(** * Storage hierarchy and stock ledger of the warehouse management project

    A shallow embedding of the Django models of
    [apps/warehouses/models.py] and [apps/products/models.py]:
    the rows the models declare, the constraints their field types and
    [Meta] options put on the tables, the [save] overrides that fan a
    warehouse out into corridors and cells, and the read-side properties
    ([location_code], [occupied_cells], [occupancy_rate]).

    Integers are [Z]; a [PositiveIntegerField] is a [Z] column with the
    database check [0 <= value]; the width of a column is not part of
    the table, it is a hypothesis of the statements that a save returns.
    Strings are [string].  A table is the
    list of its rows, newest last.  A statement that can raise
    [IntegrityError], [DoesNotExist] or [ValueError] returns a [result]. *)

From Stdlib Require Import ZArith List String Ascii Bool Lia.
From Stdlib Require Import DecimalString DecimalN QArith.
Import ListNotations.
Close Scope Q_scope.
Open Scope string_scope.
Open Scope Z_scope.

(** ** Exceptions as results *)

Inductive error : Type :=
| IntegrityError   (* a constraint of the table refused the row *)
| DoesNotExist     (* a related object is missing *)
| ValueError.      (* an unsaved instance is used as a related object *)

Inductive result (A : Type) : Type :=
| Ok (a : A)
| Raise (e : error).
Arguments Ok {A} a.
Arguments Raise {A} e.

Definition bind {A B : Type} (r : result A) (k : A -> result B) : result B :=
  match r with
  | Ok a => k a
  | Raise e => Raise e
  end.

Declare Scope py_scope.
Delimit Scope py_scope with py.
Notation "x <- c1 ;; c2" := (bind c1 (fun x => c2))
  (at level 61, c1 at next level, right associativity) : py_scope.
Open Scope py_scope.

Definition is_ok {A : Type} (r : result A) : bool :=
  match r with Ok _ => true | Raise _ => false end.

(** ** Python built-ins used by the models *)

(** [range(lo, hi)] *)
Definition py_range (lo hi : Z) : list Z :=
  map (fun k => lo + Z.of_nat k) (seq 0 (Z.to_nat (hi - lo))).

(** [str(n)] for [n >= 0]: the decimal digits, no leading zero. *)
Definition digits (n : N) : string :=
  NilZero.string_of_uint (N.to_uint n).

Fixpoint zeros (k : nat) : string :=
  match k with
  | O => EmptyString
  | S k' => String "0" (zeros k')
  end.

(** [s.zfill(width)] on a string of digits. *)
Definition zfill (width : nat) (s : string) : string :=
  (zeros (width - String.length s) ++ s)%string.

(** [format(z, "0<width>d")], the [{z:02d}] and [{z:03d}] of an f-string:
    the sign, when there is one, comes first and counts in the width. *)
Definition format_0d (width : nat) (z : Z) : string :=
  if z <? 0
  then String "-" (zfill (width - 1) (digits (Z.to_N (- z))))
  else zfill width (digits (Z.to_N z)).

(** [f"{z}"] *)
Definition format_d (z : Z) : string := format_0d 0 z.

(** [sum(...)] over integers. *)
Definition py_sum (l : list Z) : Z := fold_right Z.add 0 l.

(** ** The rows

    One record per model, with the model's field names.  Primary keys
    are [option Z]: [None] is Python's [pk is None] of an instance that
    was never saved and has no default for its key.  A UUID is an opaque
    [Z].  Fields that only carry text, pictures or timestamps
    ([description], [address], [qr_code], [created_at], [updated_at],
    the areas and dimensions, ...) are left out: no statement below
    reads them.  [updated_at] is rewritten by every save, so equality of
    two rows here is equality of the columns listed, not of the stored
    rows with their timestamps. *)

Module Warehouse.
Record t : Type := mk {
  id : option Z;             (* UUIDField(primary_key, default=uuid4) *)
  adding : bool;             (* _state.adding *)
  shop : Z;                  (* ForeignKey('shops.Shop') *)
  name : string;
  code : string;
  corridor_count : Z;        (* PositiveIntegerField(default=5) *)
  is_active : bool
}.
End Warehouse.

Module Corridor.
Record t : Type := mk {
  id : option Z;             (* automatic key *)
  warehouse : Z;             (* ForeignKey(Warehouse) *)
  number : Z;                (* PositiveIntegerField *)
  name : string;
  cell_count : Z;            (* PositiveIntegerField(default=10) *)
  is_active : bool
}.
End Corridor.

Module Cell.
Record t : Type := mk {
  id : option Z;             (* automatic key *)
  corridor : Z;              (* ForeignKey(Corridor) *)
  number : Z;                (* PositiveIntegerField *)
  name : string;
  is_occupied : bool;        (* BooleanField(default=False) *)
  is_active : bool;          (* BooleanField(default=True) *)
  is_reserved : bool         (* BooleanField(default=False) *)
}.
End Cell.

Module ProductLocation.
Record t : Type := mk {
  id : option Z;             (* automatic key *)
  product : Z;               (* ForeignKey('products.Product') *)
  cell : Z;                  (* ForeignKey(Cell) *)
  quantity : Z;              (* PositiveIntegerField(default=0) *)
  batch_number : option string   (* CharField(null=True, blank=True) *)
}.
End ProductLocation.

Module Product.
Record t : Type := mk {
  id : option Z;             (* UUIDField(primary_key, default=uuid4) *)
  adding : bool;             (* _state.adding *)
  brand : Z;                 (* ForeignKey('brands.Brand') *)
  name : string;
  slug : string;
  sku : string;              (* CharField(unique=True) *)
  barcode : option string;   (* CharField(null=True, unique=True) *)
  stock_quantity : Z;        (* PositiveIntegerField(default=0) *)
  min_stock_level : Z;       (* PositiveIntegerField(default=10) *)
  max_stock_level : Z;       (* PositiveIntegerField(default=1000) *)
  is_active : bool
}.
End Product.

Module StockMovement.
(** [StockMovement.MovementType] *)
Inductive MovementType : Type := IN | OUT | ADJUSTMENT | RETURN | DAMAGE.

Record t : Type := mk {
  id : option Z;             (* automatic key *)
  product : Z;               (* ForeignKey(Product) *)
  movement_type : MovementType;
  quantity : Z;              (* IntegerField: signed *)
  previous_stock : Z;        (* PositiveIntegerField *)
  new_stock : Z;             (* PositiveIntegerField *)
  warehouse_location : option Z  (* ForeignKey('warehouses.Cell', null=True) *)
}.
End StockMovement.

(** The stored value of each [MovementType] choice. *)
Definition MovementType_value (k : StockMovement.MovementType) : string :=
  match k with
  | StockMovement.IN => "in"
  | StockMovement.OUT => "out"
  | StockMovement.ADJUSTMENT => "adjustment"
  | StockMovement.RETURN => "return"
  | StockMovement.DAMAGE => "damage"
  end.

(** ** The database: the six tables and the sequences of the automatic keys *)

Record DB : Type := mkDB {
  warehouses : list Warehouse.t;
  corridors : list Corridor.t;
  cells : list Cell.t;
  product_locations : list ProductLocation.t;
  products : list Product.t;
  stock_movements : list StockMovement.t;
  next_corridor_id : Z;
  next_cell_id : Z;
  next_product_location_id : Z;
  next_stock_movement_id : Z
}.

Definition empty_db : DB := mkDB [] [] [] [] [] [] 1 1 1 1.

Definition set_warehouses (db : DB) (t : list Warehouse.t) : DB :=
  mkDB t (corridors db) (cells db) (product_locations db) (products db)
       (stock_movements db) (next_corridor_id db) (next_cell_id db)
       (next_product_location_id db) (next_stock_movement_id db).

Definition set_corridors (db : DB) (t : list Corridor.t) (next : Z) : DB :=
  mkDB (warehouses db) t (cells db) (product_locations db) (products db)
       (stock_movements db) next (next_cell_id db)
       (next_product_location_id db) (next_stock_movement_id db).

Definition set_cells (db : DB) (t : list Cell.t) (next : Z) : DB :=
  mkDB (warehouses db) (corridors db) t (product_locations db) (products db)
       (stock_movements db) (next_corridor_id db) next
       (next_product_location_id db) (next_stock_movement_id db).

Definition set_product_locations (db : DB) (t : list ProductLocation.t) (next : Z) : DB :=
  mkDB (warehouses db) (corridors db) (cells db) t (products db)
       (stock_movements db) (next_corridor_id db) (next_cell_id db)
       next (next_stock_movement_id db).

Definition set_products (db : DB) (t : list Product.t) : DB :=
  mkDB (warehouses db) (corridors db) (cells db) (product_locations db) t
       (stock_movements db) (next_corridor_id db) (next_cell_id db)
       (next_product_location_id db) (next_stock_movement_id db).

Definition set_stock_movements (db : DB) (t : list StockMovement.t) (next : Z) : DB :=
  mkDB (warehouses db) (corridors db) (cells db) (product_locations db)
       (products db) t (next_corridor_id db) (next_cell_id db)
       (next_product_location_id db) next.

(** ** Tables: lookup by key, insertion, update in place *)

Section Table.
Context {R : Type}.
Variable pk : R -> option Z.

Definition has_pk (k : Z) (r : R) : bool :=
  match pk r with
  | Some j => j =? k
  | None => false
  end.

(** two instances denote the same stored row *)
Definition same_row (r self : R) : bool :=
  match pk self with
  | Some k => has_pk k r
  | None => false
  end.

(** [objects.get(pk=k)] *)
Definition get (t : list R) (k : Z) : option R := find (has_pk k) t.

(** [objects.filter(pk=k).exists()] *)
Definition exists_pk (t : list R) (k : Z) : bool := existsb (has_pk k) t.

(** [UPDATE ... WHERE pk = k] *)
Definition update (t : list R) (k : Z) (r : R) : list R :=
  map (fun x => if has_pk k x then r else x) t.

(** The base [Model.save()] on one table.  [check] holds the
    constraints of the table (it already ignores the stored copy of
    [self]); [next] is the sequence of the automatic key.  A row
    with a key that is stored is updated unless the insert is forced;
    any other row is inserted, with the next key of the sequence when
    it has none.  The result is the table, the sequence and the
    instance with its key.  The sequence moves with the keys it gives
    only: a key given by the caller leaves it where it was (PostgreSQL;
    SQLite moves it past every stored key), so the statements that an
    insert with the automatic key returns take the sequence ahead of
    the stored keys. *)
Definition Model_save (set_pk : Z -> R -> R) (check : R -> bool)
           (force_insert : bool) (t : list R) (next : Z) (self : R)
  : result (list R * Z * R) :=
  match pk self with
  | None =>
      let self' := set_pk next self in
      if negb (exists_pk t next) && check self'
      then Ok ((t ++ [self'])%list, next + 1, self')
      else Raise IntegrityError
  | Some k =>
      if exists_pk t k && negb force_insert
      then if check self
           then Ok (update t k self, next, self)
           else Raise IntegrityError
      else if negb (exists_pk t k) && check self
           then Ok ((t ++ [self])%list, next, self)
           else Raise IntegrityError
  end.
End Table.

(** [for x in l: body(x)], stopping at the first exception. *)
Fixpoint for_each {A : Type} (l : list A) (body : DB -> A -> result DB)
         (db : DB) : result DB :=
  match l with
  | [] => Ok db
  | x :: l' => db' <- body db x ;; for_each l' body db'
  end.

(** ** Constraints of the tables

    What the database checks on every INSERT and UPDATE: the
    [>= 0] check of each [PositiveIntegerField], the foreign keys, and
    the [unique] and [unique_together] indexes.  In a unique index a
    NULL is distinct from every value, another NULL included, so a row
    with a NULL in an indexed column never collides.  The validators of
    a field ([MinValueValidator], [MaxValueValidator]) are not among
    them: [save()] does not run validators, [full_clean()] does.

    An integer is a [Z] of any size, as a Python [int] is.  A column
    has a width: a value outside it cannot be bound or stored, and the
    save raises before any check below is made ([OverflowError] from
    the SQLite driver, a data error elsewhere).  The checks below are
    those made on values the column can hold, and every statement that a
    save returns takes its numbers in the range that Django documents as
    safe on all databases (see [PositiveIntegerField_max]). *)

(** The ranges of [IntegerField], [PositiveIntegerField] and
    [AutoField] that are safe on every database, and the [max_length]
    of a name. *)
Definition IntegerField_min : Z := -2147483648.
Definition PositiveIntegerField_max : Z := 2147483647.
Definition AutoField_max : Z := 2147483647.
Definition name_max_length : nat := 100.

Definition positive (z : Z) : bool := 0 <=? z.

(** SQL equality on a nullable text column *)
Definition sql_eq (a b : option string) : bool :=
  match a, b with
  | Some x, Some y => String.eqb x y
  | _, _ => false
  end.

Definition Warehouse_constraints (db : DB) (self : Warehouse.t) : bool :=
  positive (Warehouse.corridor_count self)
  && negb (existsb (fun r => negb (same_row Warehouse.id r self)
                             && (Warehouse.shop r =? Warehouse.shop self)
                             && String.eqb (Warehouse.code r) (Warehouse.code self))
                   (warehouses db)).

Definition Corridor_constraints (db : DB) (self : Corridor.t) : bool :=
  positive (Corridor.number self)
  && positive (Corridor.cell_count self)
  && exists_pk Warehouse.id (warehouses db) (Corridor.warehouse self)
  && negb (existsb (fun r => negb (same_row Corridor.id r self)
                             && (Corridor.warehouse r =? Corridor.warehouse self)
                             && (Corridor.number r =? Corridor.number self))
                   (corridors db)).

Definition Cell_constraints (db : DB) (self : Cell.t) : bool :=
  positive (Cell.number self)
  && exists_pk Corridor.id (corridors db) (Cell.corridor self)
  && negb (existsb (fun r => negb (same_row Cell.id r self)
                             && (Cell.corridor r =? Cell.corridor self)
                             && (Cell.number r =? Cell.number self))
                   (cells db)).

Definition ProductLocation_constraints (db : DB) (self : ProductLocation.t) : bool :=
  positive (ProductLocation.quantity self)
  && exists_pk Product.id (products db) (ProductLocation.product self)
  && exists_pk Cell.id (cells db) (ProductLocation.cell self)
  && negb (existsb (fun r => negb (same_row ProductLocation.id r self)
                             && (ProductLocation.product r =? ProductLocation.product self)
                             && (ProductLocation.cell r =? ProductLocation.cell self)
                             && sql_eq (ProductLocation.batch_number r)
                                       (ProductLocation.batch_number self))
                   (product_locations db)).

Definition Product_constraints (db : DB) (self : Product.t) : bool :=
  positive (Product.stock_quantity self)
  && positive (Product.min_stock_level self)
  && positive (Product.max_stock_level self)
  && negb (existsb (fun r => negb (same_row Product.id r self)
                             && (String.eqb (Product.sku r) (Product.sku self)
                                 || sql_eq (Product.barcode r) (Product.barcode self)
                                 || ((Product.brand r =? Product.brand self)
                                     && String.eqb (Product.slug r) (Product.slug self))))
                   (products db)).

Definition StockMovement_constraints (db : DB) (self : StockMovement.t) : bool :=
  positive (StockMovement.previous_stock self)
  && positive (StockMovement.new_stock self)
  && exists_pk Product.id (products db) (StockMovement.product self)
  && match StockMovement.warehouse_location self with
     | Some c => exists_pk Cell.id (cells db) c
     | None => true
     end.

(** ** [Cell] *)

Definition Cell_set_id (k : Z) (c : Cell.t) : Cell.t :=
  Cell.mk (Some k) (Cell.corridor c) (Cell.number c) (Cell.name c)
          (Cell.is_occupied c) (Cell.is_active c) (Cell.is_reserved c).

(** [Cell.save]: the base save; the QR picture that follows writes
    only the [qr_code] column. *)
Definition Cell_save (db : DB) (self : Cell.t) : result (DB * Cell.t) :=
  r <- Model_save Cell.id Cell_set_id (Cell_constraints db) false
                  (cells db) (next_cell_id db) self ;;
  let '(t, next, self') := r in
  Ok (set_cells db t next, self').

(** [Cell(corridor=..., number=..., name=...)]: the other fields take
    their defaults. *)
Definition Cell_init (corridor number : Z) (name : string) : Cell.t :=
  Cell.mk None corridor number name false true false.

(** [Cell.objects.create(corridor=..., number=..., name=...)] *)
Definition Cell_objects_create (db : DB) (corridor number : Z) (name : string)
  : result DB :=
  r <- Cell_save db (Cell_init corridor number name) ;;
  Ok (fst r).

(** ** [Corridor] *)

Definition Corridor_set_id (k : Z) (c : Corridor.t) : Corridor.t :=
  Corridor.mk (Some k) (Corridor.warehouse c) (Corridor.number c)
              (Corridor.name c) (Corridor.cell_count c) (Corridor.is_active c).

(** [Corridor.create_default_cells].  A corridor that was never saved
    cannot be the [corridor] of a cell. *)
Definition create_default_cells (db : DB) (self : Corridor.t) : result DB :=
  match Corridor.id self with
  | None => Raise ValueError
  | Some pk =>
      for_each (py_range 1 (Corridor.cell_count self + 1))
               (fun db i => Cell_objects_create db pk i ("Hücre " ++ format_d i)%string)
               db
  end.

(** [Corridor.save] *)
Definition Corridor_save (db : DB) (self : Corridor.t) : result (DB * Corridor.t) :=
  let is_new := match Corridor.id self with None => true | Some _ => false end in
  r <- Model_save Corridor.id Corridor_set_id (Corridor_constraints db) false
                  (corridors db) (next_corridor_id db) self ;;
  let '(t, next, self') := r in
  let db' := set_corridors db t next in
  if is_new
  then db'' <- create_default_cells db' self' ;; Ok (db'', self')
  else Ok (db', self').

(** [Corridor(warehouse=..., number=..., name=...)], [cell_count] at
    its default unless given. *)
Definition Corridor_init (warehouse number : Z) (name : string)
           (cell_count : option Z) : Corridor.t :=
  Corridor.mk None warehouse number name
              (match cell_count with Some n => n | None => 10 end) true.

(** [Corridor.objects.create(warehouse=..., number=..., name=...)] *)
Definition Corridor_objects_create (db : DB) (warehouse number : Z)
           (name : string) (cell_count : option Z) : result DB :=
  r <- Corridor_save db (Corridor_init warehouse number name cell_count) ;;
  Ok (fst r).

(** ** [Warehouse] *)

Definition Warehouse_set_id (k : Z) (w : Warehouse.t) : Warehouse.t :=
  Warehouse.mk (Some k) (Warehouse.adding w) (Warehouse.shop w)
               (Warehouse.name w) (Warehouse.code w)
               (Warehouse.corridor_count w) (Warehouse.is_active w).

Definition Warehouse_saved (w : Warehouse.t) : Warehouse.t :=
  Warehouse.mk (Warehouse.id w) false (Warehouse.shop w)
               (Warehouse.name w) (Warehouse.code w)
               (Warehouse.corridor_count w) (Warehouse.is_active w).

(** [Warehouse.create_default_corridors] *)
Definition create_default_corridors (db : DB) (self : Warehouse.t) : result DB :=
  match Warehouse.id self with
  | None => Raise ValueError
  | Some pk =>
      for_each (py_range 1 (Warehouse.corridor_count self + 1))
               (fun db i => Corridor_objects_create db pk i
                              ("Koridor " ++ format_d i)%string None)
               db
  end.

(** The base save of a model whose key has a default: a key that is
    [None] is replaced by a fresh default ([uuid4]), and an instance
    that is being added is inserted, never updated. *)
Definition Warehouse_base_save (uuid4 : Z) (db : DB) (self : Warehouse.t)
  : result (DB * Warehouse.t) :=
  let self1 := match Warehouse.id self with
               | None => Warehouse_set_id uuid4 self
               | Some _ => self
               end in
  let self2 := Warehouse_saved self1 in
  r <- Model_save Warehouse.id Warehouse_set_id (Warehouse_constraints db)
                  (Warehouse.adding self) (warehouses db) 0 self2 ;;
  let '(t, _, self') := r in
  Ok (set_warehouses db t, self').

(** [Warehouse.save]: [is_new] is read from the key before the base
    save; the QR picture writes only the [qr_code] column. *)
Definition Warehouse_save (uuid4 : Z) (db : DB) (self : Warehouse.t)
  : result (DB * Warehouse.t) :=
  let is_new := match Warehouse.id self with None => true | Some _ => false end in
  r <- Warehouse_base_save uuid4 db self ;;
  let '(db', self') := r in
  if is_new
  then db'' <- create_default_corridors db' self' ;; Ok (db'', self')
  else Ok (db', self').

(** [Warehouse(shop=..., name=..., code=...)]: [Model.__init__] gives
    every field that is not passed its default, the key included, so
    [id] is [default()], a fresh [uuid4]. *)
Definition Warehouse_init (uuid4 : Z) (shop : Z) (name code : string)
           (corridor_count : option Z) : Warehouse.t :=
  Warehouse.mk (Some uuid4) true shop name code
               (match corridor_count with Some n => n | None => 5 end) true.

(** [Warehouse.objects.create(shop=..., name=..., code=..., corridor_count=...)] *)
Definition Warehouse_objects_create (uuid4 : Z) (db : DB) (shop : Z)
           (name code : string) (corridor_count : option Z) : result DB :=
  r <- Warehouse_save uuid4 db (Warehouse_init uuid4 shop name code corridor_count) ;;
  Ok (fst r).

(** ** [ProductLocation], [Product], [StockMovement]: the base save *)

Definition ProductLocation_set_id (k : Z) (l : ProductLocation.t) : ProductLocation.t :=
  ProductLocation.mk (Some k) (ProductLocation.product l) (ProductLocation.cell l)
                     (ProductLocation.quantity l) (ProductLocation.batch_number l).

Definition ProductLocation_save (db : DB) (self : ProductLocation.t)
  : result (DB * ProductLocation.t) :=
  r <- Model_save ProductLocation.id ProductLocation_set_id
                  (ProductLocation_constraints db) false
                  (product_locations db) (next_product_location_id db) self ;;
  let '(t, next, self') := r in
  Ok (set_product_locations db t next, self').

(** [ProductLocation(product=..., cell=..., ...)]: [quantity] defaults
    to 0 and [batch_number] to [None]. *)
Definition ProductLocation_init (product cell : Z) (quantity : option Z)
           (batch_number : option string) : ProductLocation.t :=
  ProductLocation.mk None product cell
                     (match quantity with Some q => q | None => 0 end)
                     batch_number.

Definition ProductLocation_objects_create (db : DB) (product cell : Z)
           (quantity : option Z) (batch_number : option string) : result DB :=
  r <- ProductLocation_save db (ProductLocation_init product cell quantity batch_number) ;;
  Ok (fst r).

Definition Product_set_id (k : Z) (p : Product.t) : Product.t :=
  Product.mk (Some k) (Product.adding p) (Product.brand p) (Product.name p)
             (Product.slug p) (Product.sku p) (Product.barcode p)
             (Product.stock_quantity p) (Product.min_stock_level p)
             (Product.max_stock_level p) (Product.is_active p).

Definition Product_saved (p : Product.t) : Product.t :=
  Product.mk (Product.id p) false (Product.brand p) (Product.name p)
             (Product.slug p) (Product.sku p) (Product.barcode p)
             (Product.stock_quantity p) (Product.min_stock_level p)
             (Product.max_stock_level p) (Product.is_active p).

(** [Product.save]: the base save of a model whose key has a default;
    the QR picture that follows writes only the [qr_code] column. *)
Definition Product_save (uuid4 : Z) (db : DB) (self : Product.t)
  : result (DB * Product.t) :=
  let self1 := match Product.id self with
               | None => Product_set_id uuid4 self
               | Some _ => self
               end in
  let self2 := Product_saved self1 in
  r <- Model_save Product.id Product_set_id (Product_constraints db)
                  (Product.adding self) (products db) 0 self2 ;;
  let '(t, _, self') := r in
  Ok (set_products db t, self').

(** [Product(brand=..., name=..., slug=..., sku=...)] with the stock
    fields at their defaults unless given. *)
Definition Product_init (uuid4 : Z) (brand : Z) (name slug sku : string)
           (barcode : option string) (stock_quantity : option Z) : Product.t :=
  Product.mk (Some uuid4) true brand name slug sku barcode
             (match stock_quantity with Some q => q | None => 0 end)
             10 1000 true.

Definition StockMovement_set_id (k : Z) (m : StockMovement.t) : StockMovement.t :=
  StockMovement.mk (Some k) (StockMovement.product m) (StockMovement.movement_type m)
                   (StockMovement.quantity m) (StockMovement.previous_stock m)
                   (StockMovement.new_stock m) (StockMovement.warehouse_location m).

Definition StockMovement_save (db : DB) (self : StockMovement.t)
  : result (DB * StockMovement.t) :=
  r <- Model_save StockMovement.id StockMovement_set_id
                  (StockMovement_constraints db) false
                  (stock_movements db) (next_stock_movement_id db) self ;;
  let '(t, next, self') := r in
  Ok (set_stock_movements db t next, self').


(** ** Related managers and the read-side properties *)

(** [warehouse.corridors.all()] *)
Definition Warehouse_corridors (db : DB) (self : Warehouse.t) : list Corridor.t :=
  match Warehouse.id self with
  | Some k => filter (fun c => Corridor.warehouse c =? k) (corridors db)
  | None => []
  end.

(** [corridor.cells.all()] *)
Definition Corridor_cells (db : DB) (self : Corridor.t) : list Cell.t :=
  match Corridor.id self with
  | Some k => filter (fun c => Cell.corridor c =? k) (cells db)
  | None => []
  end.

(** [cell.stored_products.all()] *)
Definition Cell_stored_products (db : DB) (self : Cell.t) : list ProductLocation.t :=
  match Cell.id self with
  | Some k => filter (fun l => ProductLocation.cell l =? k) (product_locations db)
  | None => []
  end.


(** [queryset.count()] *)
Definition count {A : Type} (l : list A) : Z := Z.of_nat (List.length l).

(** [Corridor.occupied_cells] *)
Definition Corridor_occupied_cells (db : DB) (self : Corridor.t) : Z :=
  count (filter Cell.is_occupied (Corridor_cells db self)).

(** [Corridor.available_cells] *)
Definition Corridor_available_cells (db : DB) (self : Corridor.t) : Z :=
  count (filter (fun c => negb (Cell.is_occupied c)) (Corridor_cells db self)).

(** [Warehouse.total_corridors] *)
Definition Warehouse_total_corridors (db : DB) (self : Warehouse.t) : Z :=
  count (Warehouse_corridors db self).

(** [Warehouse.total_cells] *)
Definition Warehouse_total_cells (db : DB) (self : Warehouse.t) : Z :=
  py_sum (map (fun corridor => count (Corridor_cells db corridor))
              (Warehouse_corridors db self)).

(** [Warehouse.occupied_cells] *)
Definition Warehouse_occupied_cells (db : DB) (self : Warehouse.t) : Z :=
  py_sum (map (fun corridor => Corridor_occupied_cells db corridor)
              (Warehouse_corridors db self)).

(** A Python number: the two [occupancy_rate] properties return the
    [int] 0 or a [float]. *)
Inductive number (F : Type) : Type :=
| Int (z : Z)
| Float (f : F).
Arguments Int {F} z.
Arguments Float {F} f.

Section OccupancyRate.
(** Python's floats, with the two operations the properties use:
    [int / int] and [float * int]. *)
Variable float : Type.
Variable truediv : Z -> Z -> float.
Variable mul : float -> Z -> float.

(** [Corridor.occupancy_rate] *)
Definition Corridor_occupancy_rate (db : DB) (self : Corridor.t) : number float :=
  let total := count (Corridor_cells db self) in
  if total =? 0
  then Int 0
  else Float (mul (truediv (Corridor_occupied_cells db self) total) 100).

(** [Warehouse.occupancy_rate] *)
Definition Warehouse_occupancy_rate (db : DB) (self : Warehouse.t) : number float :=
  let total := Warehouse_total_cells db self in
  if total =? 0
  then Int 0
  else Float (mul (truediv (Warehouse_occupied_cells db self) total) 100).
End OccupancyRate.

(** Following a foreign key: [cell.corridor], [corridor.warehouse]. *)
Definition related {R : Type} (pk : R -> option Z) (t : list R) (k : Z) : result R :=
  match get pk t k with
  | Some r => Ok r
  | None => Raise DoesNotExist
  end.

(** [Cell.location_code] *)
Definition location_code (db : DB) (self : Cell.t) : result string :=
  corridor <- related Corridor.id (corridors db) (Cell.corridor self) ;;
  warehouse <- related Warehouse.id (warehouses db) (Corridor.warehouse corridor) ;;
  Ok ("W" ++ Warehouse.code warehouse
      ++ "-C" ++ format_0d 2 (Corridor.number corridor)
      ++ "-H" ++ format_0d 3 (Cell.number self))%string.

(** [Cell.full_location] *)
Definition full_location (db : DB) (self : Cell.t) : result string :=
  corridor <- related Corridor.id (corridors db) (Cell.corridor self) ;;
  warehouse <- related Warehouse.id (warehouses db) (Corridor.warehouse corridor) ;;
  Ok (Warehouse.name warehouse ++ " > " ++ Corridor.name corridor
      ++ " > " ++ Cell.name self)%string.

(** [Product.is_low_stock] *)
Definition is_low_stock (self : Product.t) : bool :=
  Product.stock_quantity self <=? Product.min_stock_level self.

(** [Product.stock_status], by the message it returns *)
Inductive StockStatus : Type := Stokta_Yok | Dusuk_Stok | Stokta_Var.

Definition stock_status (self : Product.t) : StockStatus :=
  if Product.stock_quantity self =? 0 then Stokta_Yok
  else if is_low_stock self then Dusuk_Stok
  else Stokta_Var.

(** ** Field validators, run by [full_clean()] and by forms, not by
    [save()] *)

Definition MinValueValidator (limit value : Z) : bool := limit <=? value.
Definition MaxValueValidator (limit value : Z) : bool := value <=? limit.

(** [Warehouse.corridor_count]: validators 1 and 50 *)
Definition corridor_count_valid (v : Z) : bool :=
  MinValueValidator 1 v && MaxValueValidator 50 v.
(** [Corridor.number]: validators 1 and 100 *)
Definition Corridor_number_valid (v : Z) : bool :=
  MinValueValidator 1 v && MaxValueValidator 100 v.
(** [Corridor.cell_count]: validators 1 and 100 *)
Definition cell_count_valid (v : Z) : bool :=
  MinValueValidator 1 v && MaxValueValidator 100 v.
(** [Cell.number]: validators 1 and 1000 *)
Definition Cell_number_valid (v : Z) : bool :=
  MinValueValidator 1 v && MaxValueValidator 1000 v.

(** ** Auxiliary definitions for the statements, and sample databases *)

(** The cells [create_default_cells] appends for the numbers [l], the
    first of them with key [first]. *)
Fixpoint default_cells (corridor first : Z) (l : list Z) : list Cell.t :=
  match l with
  | [] => []
  | i :: l' =>
      Cell.mk (Some first) corridor i ("Hücre " ++ format_d i)%string false true false
      :: default_cells corridor (first + 1) l'
  end.

(** The database after corridors [cs] and cells [ce] were appended and
    the two sequences advanced by [dc] and [de]. *)
Definition appended (db : DB) (cs : list Corridor.t) (dc : Z)
           (ce : list Cell.t) (de : Z) : DB :=
  mkDB (warehouses db) (corridors db ++ cs) (cells db ++ ce)
       (product_locations db) (products db) (stock_movements db)
       (next_corridor_id db + dc) (next_cell_id db + de)
       (next_product_location_id db) (next_stock_movement_id db).

(** The corridors [create_default_corridors] appends for the numbers
    [l], and the cells that come with them. *)
Fixpoint default_corridors (warehouse first : Z) (l : list Z) : list Corridor.t :=
  match l with
  | [] => []
  | i :: l' =>
      Corridor.mk (Some first) warehouse i ("Koridor " ++ format_d i)%string 10 true
      :: default_corridors warehouse (first + 1) l'
  end.

Fixpoint default_corridor_cells {A : Type} (first_corridor first_cell : Z)
         (l : list A) : list Cell.t :=
  match l with
  | [] => []
  | _ :: l' =>
      default_cells first_corridor first_cell (py_range 1 11)
      ++ default_corridor_cells (first_corridor + 1) (first_cell + 10) l'
  end.

(** The number a string of decimal digits denotes; [None] when a
    character is not a digit. *)
Definition decimal_value (s : string) : option N :=
  option_map N.of_uint (NilEmpty.uint_of_string s).

(** A warehouse saved new (key [None]) with two corridors, on an empty
    database. *)
Definition depo_db : DB :=
  Eval vm_compute in
    match Warehouse_save 77 empty_db (Warehouse.mk None true 1 "Depo" "001" 2 true) with
    | Ok (db, _) => db
    | Raise _ => empty_db
    end.

(** [occupied / total * 100], and the [int] 0 for no cell at all *)
Definition rate {F : Type} (truediv : Z -> Z -> F) (mul : F -> Z -> F)
           (occupied total : Z) : number F :=
  if total =? 0 then Int 0 else Float (mul (truediv occupied total) 100).

(** Exact rationals in the place of floats *)
Definition Q_truediv (a b : Z) : Q := Qdiv (inject_Z a) (inject_Z b).
Definition Q_mul (f : Q) (z : Z) : Q := Qmult f (inject_Z z).

(** The database after a call: what the call gives when it returns,
    and the database as it was when a single INSERT or UPDATE raises,
    which writes nothing.  No statement applies it to a fan-out that
    raises midway: [create_default_corridors] and [create_default_cells]
    run outside a transaction, and the rows written before the failure
    stay. *)
Definition commit (db : DB) (r : result DB) : DB :=
  match r with
  | Ok db' => db'
  | Raise _ => db
  end.

Inductive step : DB -> DB -> Prop :=
| step_Warehouse_save uuid4 db self db' self' :
    Warehouse_save uuid4 db self = Ok (db', self') -> step db db'
| step_Corridor_save db self db' self' :
    Corridor_save db self = Ok (db', self') -> step db db'
| step_Cell_save db self db' self' :
    Cell_save db self = Ok (db', self') -> step db db'
| step_ProductLocation_save db self db' self' :
    ProductLocation_save db self = Ok (db', self') -> step db db'
| step_Product_save uuid4 db self db' self' :
    Product_save uuid4 db self = Ok (db', self') -> step db db'
| step_StockMovement_save db self db' self' :
    StockMovement_save db self = Ok (db', self') -> step db db'
| step_create_default_corridors db self db' :
    create_default_corridors db self = Ok db' -> step db db'
| step_create_default_cells db self db' :
    create_default_cells db self = Ok db' -> step db db'.

Inductive reachable : DB -> Prop :=
| reachable_empty : reachable empty_db
| reachable_step db db' : reachable db -> step db db' -> reachable db'.

(** The stock columns of the three tables that have some *)
Definition stock_columns_ok (db : DB) : Prop :=
  (forall p, In p (products db) -> 0 <= Product.stock_quantity p)
  /\ (forall m, In m (stock_movements db) ->
        0 <= StockMovement.previous_stock m /\ 0 <= StockMovement.new_stock m)
  /\ (forall l, In l (product_locations db) -> 0 <= ProductLocation.quantity l).

(** A product with 50 in stock, saved through [Product.save], and then
    one movement: an outbound of 1 recorded with the snapshots 0 and 99. *)
Definition kalem : Product.t := Product_init 5 1 "Kalem" "kalem" "SKU1" None (Some 50).

Definition kalem_db : DB :=
  Eval vm_compute in
    match Product_save 5 empty_db kalem with
    | Ok (db, _) => db
    | Raise _ => empty_db
    end.

Definition odd_movement : StockMovement.t :=
  StockMovement.mk None 5 StockMovement.OUT (-1) 0 99 None.

Definition ledger_db : DB :=
  Eval vm_compute in
    match StockMovement_save kalem_db odd_movement with
    | Ok (db, _) => db
    | Raise _ => kalem_db
    end.


(** The sum of the quantities placed in a cell *)
Definition placed_quantity (db : DB) (c : Cell.t) : Z :=
  py_sum (map ProductLocation.quantity (Cell_stored_products db c)).

(** Every placement points to a stored cell. *)
Definition placements_in_cells (db : DB) : Prop :=
  forall l, In l (product_locations db) ->
    exists_pk Cell.id (cells db) (ProductLocation.cell l) = true.

(** A warehouse made by [objects.create], one corridor made by
    [objects.create] in it (ten cells), a product, and five of the
    product placed in cell 1. *)
Definition raf_db1 : DB :=
  Eval vm_compute in
    commit empty_db (Warehouse_objects_create 77 empty_db 1 "Depo" "001" None).
Definition raf_db2 : DB :=
  Eval vm_compute in
    commit raf_db1 (Corridor_objects_create raf_db1 77 1 "Koridor 1" None).
Definition raf_db3 : DB :=
  Eval vm_compute in
    match Product_save 5 raf_db2 kalem with Ok (db, _) => db | Raise _ => raf_db2 end.
Definition raf_db : DB :=
  Eval vm_compute in
    commit raf_db3 (ProductLocation_objects_create raf_db3 5 1 (Some 5) None).

(** ** Consistency of a database *)

(** Every row of a table has a key and no two rows share one. *)
Definition keyed {R : Type} (pk : R -> option Z) (t : list R) : Prop :=
  NoDup (map pk t) /\ forall r, In r t -> pk r <> None.

(** No row of the table other than [self] has the unique columns of
    [self]; [collide] compares the unique columns of two rows. *)
Definition no_collision {R : Type} (pk : R -> option Z) (collide : R -> R -> bool)
           (t : list R) (self : R) : bool :=
  negb (existsb (fun r => negb (same_row pk r self) && collide r self) t).

(** A database is consistent when every table is keyed and every stored
    row passes the constraints of its table. *)
Record consistent (db : DB) : Prop := {
  warehouses_keyed : keyed Warehouse.id (warehouses db);
  corridors_keyed : keyed Corridor.id (corridors db);
  cells_keyed : keyed Cell.id (cells db);
  product_locations_keyed : keyed ProductLocation.id (product_locations db);
  products_keyed : keyed Product.id (products db);
  stock_movements_keyed : keyed StockMovement.id (stock_movements db);
  warehouses_checked :
    forall r, In r (warehouses db) -> Warehouse_constraints db r = true;
  corridors_checked :
    forall r, In r (corridors db) -> Corridor_constraints db r = true;
  cells_checked :
    forall r, In r (cells db) -> Cell_constraints db r = true;
  product_locations_checked :
    forall r, In r (product_locations db) -> ProductLocation_constraints db r = true;
  products_checked :
    forall r, In r (products db) -> Product_constraints db r = true;
  stock_movements_checked :
    forall r, In r (stock_movements db) -> StockMovement_constraints db r = true
}.

(** The unique columns of each table: [unique_together] and [unique]. *)
Definition Warehouse_collide (a b : Warehouse.t) : bool :=
  (Warehouse.shop a =? Warehouse.shop b)
  && String.eqb (Warehouse.code a) (Warehouse.code b).

Definition Corridor_collide (a b : Corridor.t) : bool :=
  (Corridor.warehouse a =? Corridor.warehouse b)
  && (Corridor.number a =? Corridor.number b).

Definition Cell_collide (a b : Cell.t) : bool :=
  (Cell.corridor a =? Cell.corridor b) && (Cell.number a =? Cell.number b).

Definition ProductLocation_collide (a b : ProductLocation.t) : bool :=
  (ProductLocation.product a =? ProductLocation.product b)
  && (ProductLocation.cell a =? ProductLocation.cell b)
  && sql_eq (ProductLocation.batch_number a) (ProductLocation.batch_number b).

Definition Product_collide (a b : Product.t) : bool :=
  String.eqb (Product.sku a) (Product.sku b)
  || sql_eq (Product.barcode a) (Product.barcode b)
  || ((Product.brand a =? Product.brand b)
      && String.eqb (Product.slug a) (Product.slug b)).

(** [location.quantity = q] on an instance *)
Definition ProductLocation_with_quantity (q : Z) (l : ProductLocation.t)
  : ProductLocation.t :=
  ProductLocation.mk (ProductLocation.id l) (ProductLocation.product l)
                     (ProductLocation.cell l) q (ProductLocation.batch_number l).

(** ** [ProductForm.save] *)

(** [product.slug = s] on an instance *)
Definition Product_with_slug (s : string) (p : Product.t) : Product.t :=
  Product.mk (Product.id p) (Product.adding p) (Product.brand p) (Product.name p)
             s (Product.sku p) (Product.barcode p) (Product.stock_quantity p)
             (Product.min_stock_level p) (Product.max_stock_level p)
             (Product.is_active p).

(** [Product.objects.filter(slug=slug, brand=product.brand)
    .exclude(pk=product.pk).exists()] *)
Definition slug_taken (db : DB) (product : Product.t) (slug : string) : bool :=
  existsb (fun r => String.eqb (Product.slug r) slug
                    && (Product.brand r =? Product.brand product)
                    && negb (same_row Product.id r product))
          (products db).

(** The [while] loop of [ProductForm.save], with [fuel] rounds at most:
    [while taken(slug): slug = f"{original_slug}-{counter}"; counter += 1]. *)
Fixpoint unique_slug_loop (fuel : nat) (taken : string -> bool)
         (original_slug slug : string) (counter : Z) : option string :=
  match fuel with
  | O => None
  | S fuel' =>
      if taken slug
      then unique_slug_loop fuel' taken original_slug
                            (original_slug ++ "-" ++ format_d counter)%string
                            (counter + 1)
      else Some slug
  end.

(** The slugs the loop tries, in order: the slug itself, then the slug
    with [-1], [-2], ... *)
Definition candidate (original_slug : string) (i : nat) : string :=
  match i with
  | O => original_slug
  | S _ => (original_slug ++ "-" ++ format_d (Z.of_nat i))%string
  end.

Section ProductForm.
(** [django.utils.text.slugify] *)
Variable slugify : string -> string.

(** [ProductForm.save], from the instance that [super().save(commit=
    False)] built.  [has_brand] is [hasattr(product, 'brand') and
    product.brand].  The loop gets one round more than there are
    products. *)
Definition ProductForm_save (uuid4 : Z) (db : DB) (product : Product.t)
           (has_brand commit : bool) : result (DB * Product.t) :=
  let product1 :=
    if String.eqb (Product.slug product) ""
       || String.eqb (Product.slug product) (slugify (Product.name product))
    then
      let product' := Product_with_slug (slugify (Product.name product)) product in
      if has_brand
      then match unique_slug_loop (S (List.length (products db)))
                                  (slug_taken db product')
                                  (Product.slug product') (Product.slug product') 1 with
           | Some s => Product_with_slug s product'
           | None => product'
           end
      else product'
    else product in
  if commit then Product_save uuid4 db product1 else Ok (db, product1).
End ProductForm.

(** ** [ProductCreateView.form_valid] *)

(** [product.brand = brand] on an instance *)
Definition Product_with_brand (b : Z) (p : Product.t) : Product.t :=
  Product.mk (Product.id p) (Product.adding p) b (Product.name p)
             (Product.slug p) (Product.sku p) (Product.barcode p)
             (Product.stock_quantity p) (Product.min_stock_level p)
             (Product.max_stock_level p) (Product.is_active p).

Section ProductCreateView.
Variable slugify : string -> string.

(** [ProductCreateView.form_valid]: [form.save(commit=False)] on the
    instance of the form, which has no brand yet; the brand of the user
    is set; [product.save()]; then [super().form_valid(form)], which
    saves the form once more.  The result is the database and the
    stored product. *)
Definition ProductCreateView_form_valid (uuid4 : Z) (db : DB) (product : Product.t)
           (user_brand : Z) : result (DB * Product.t) :=
  r1 <- ProductForm_save slugify uuid4 db product false false ;;
  let product1 := Product_with_brand user_brand (snd r1) in
  r2 <- Product_save uuid4 (fst r1) product1 ;;
  ProductForm_save slugify uuid4 (fst r2) (snd r2) true true.
End ProductCreateView.

(** ** [ProductLocation.is_expired], [ProductLocation.days_to_expiry]

    A date is the number of its day; [today] is
    [timezone.now().date()]. *)

Definition is_expired (expiry_date : option Z) (today : Z) : bool :=
  match expiry_date with
  | None => false
  | Some d => d <? today
  end.

Definition days_to_expiry (expiry_date : option Z) (today : Z) : option Z :=
  match expiry_date with
  | None => None
  | Some d => Some (d - today)
  end.

(** Every key of the table is below [next]: the sequence is ahead of
    the table. *)
Definition keys_below {R : Type} (pk : R -> option Z) (t : list R) (next : Z) : bool :=
  forallb (fun r => match pk r with Some k => k <? next | None => true end) t.

(** ** URLs: [products/urls.py], [warehouses/urls.py], [get_absolute_url]

    A route of [path()] is a sequence of literal pieces and converters;
    the only converter used is [<slug:name>], the pattern
    [[-a-zA-Z0-9_]+].  A route matches a whole path or not at all. *)

Inductive part : Type :=
| Lit (s : string)
| Slug (name : string).

Record urlpattern : Type := mk_urlpattern {
  route : list part;
  view : string;
  url_name : string
}.

Definition kwargs : Type := list (string * string).

(** [products/urls.py] *)
Definition products_urlpatterns : list urlpattern :=
  [ mk_urlpattern [] "ProductListView" "list";
    mk_urlpattern [Lit "create/"] "ProductCreateView" "create";
    mk_urlpattern [Slug "slug"; Lit "/"] "ProductDetailView" "detail";
    mk_urlpattern [Slug "slug"; Lit "/edit/"] "ProductUpdateView" "edit";
    mk_urlpattern [Slug "slug"; Lit "/delete/"] "ProductDeleteView" "delete";
    mk_urlpattern [Lit "categories/"] "CategoryListView" "category_list";
    mk_urlpattern [Lit "categories/create/"] "CategoryCreateView" "category_create";
    mk_urlpattern [Lit "categories/"; Slug "slug"; Lit "/edit/"]
                  "CategoryUpdateView" "category_edit" ].

(** [warehouses/urls.py] *)
Definition warehouses_urlpatterns : list urlpattern :=
  [ mk_urlpattern [] "WarehouseListView" "warehouse_list";
    mk_urlpattern [Lit "locations/"] "LocationManagementView" "location_manage" ].

(** a character of [[-a-zA-Z0-9_]] *)
Definition is_slug_char (c : ascii) : bool :=
  let n := nat_of_ascii c in
  ((48 <=? n) && (n <=? 57) || (65 <=? n) && (n <=? 90)
   || (97 <=? n) && (n <=? 122) || (n =? 45) || (n =? 95))%nat.

(** a string that [[-a-zA-Z0-9_]+] matches whole *)
Fixpoint all_slug_chars (s : string) : bool :=
  match s with
  | EmptyString => true
  | String c s' => is_slug_char c && all_slug_chars s'
  end.

Definition is_slug (s : string) : bool :=
  negb (String.eqb s "") && all_slug_chars s.

(** [s] without the prefix [p], when it has it *)
Fixpoint strip_prefix (p s : string) : option string :=
  match p, s with
  | EmptyString, _ => Some s
  | String a p', String b s' => if Ascii.eqb a b then strip_prefix p' s' else None
  | String _ _, EmptyString => None
  end.

(** The converter on [s], as the regular expression engine runs it:
    one character at least, the longest run first, giving up one
    character at a time while the rest of the route, [k], does not
    match. *)
Fixpoint match_slug (k : string -> string -> option kwargs)
         (captured s : string) : option kwargs :=
  match s with
  | EmptyString => None
  | String c s' =>
      if is_slug_char c
      then match match_slug k (captured ++ String c "")%string s' with
           | Some r => Some r
           | None => k (captured ++ String c "")%string s'
           end
      else None
  end.

Fixpoint match_route (r : list part) : string -> option kwargs :=
  match r with
  | [] => fun s => if String.eqb s "" then Some [] else None
  | Lit l :: r' =>
      fun s => match strip_prefix l s with
               | Some rest => match_route r' rest
               | None => None
               end
  | Slug name :: r' =>
      fun s => match_slug (fun captured rest =>
                             option_map (cons (name, captured)) (match_route r' rest))
                          "" s
  end.

(** [resolve(path)] within the patterns of one app: the first pattern
    that matches, with the arguments it captures. *)
Fixpoint resolve (patterns : list urlpattern) (path : string)
  : option (string * kwargs) :=
  match patterns with
  | [] => None
  | p :: rest =>
      match match_route (route p) path with
      | Some kw => Some (view p, kw)
      | None => resolve rest path
      end
  end.

(** The names of the converters of a route *)
Fixpoint params (r : list part) : list string :=
  match r with
  | [] => []
  | Lit _ :: r' => params r'
  | Slug name :: r' => name :: params r'
  end.

Fixpoint lookup (key : string) (kw : kwargs) : option string :=
  match kw with
  | [] => None
  | (k, v) :: kw' => if String.eqb k key then Some v else lookup key kw'
  end.

(** The path a route gives for the arguments, when every argument
    fits its converter. *)
Fixpoint build (r : list part) (kw : kwargs) : option string :=
  match r with
  | [] => Some ""%string
  | Lit l :: r' => option_map (String.append l) (build r' kw)
  | Slug name :: r' =>
      match lookup name kw with
      | Some v => if is_slug v then option_map (String.append v) (build r' kw)
                  else None
      | None => None
      end
  end.

Definition same_names (a b : list string) : bool :=
  forallb (fun x => existsb (String.eqb x) b) a
  && forallb (fun x => existsb (String.eqb x) a) b.

(** [reverse('<app>:<name>', kwargs=kw)]: the first pattern of that
    name that takes these arguments; [None] is [NoReverseMatch]. *)
Fixpoint reverse (patterns : list urlpattern) (prefix name : string) (kw : kwargs)
  : option string :=
  match patterns with
  | [] => None
  | p :: rest =>
      if String.eqb (url_name p) name && same_names (params (route p)) (map fst kw)
      then match build (route p) kw with
           | Some path => Some (prefix ++ path)%string
           | None => reverse rest prefix name kw
           end
      else reverse rest prefix name kw
  end.

Section GetAbsoluteUrl.
(** [str(uuid)] *)
Variable str_uuid : Z -> string.

(** [Warehouse.get_absolute_url] *)
Definition Warehouse_get_absolute_url (self : Warehouse.t) : option string :=
  reverse warehouses_urlpatterns "/warehouses/" "detail"
          [("pk"%string, match Warehouse.id self with
                         | Some k => str_uuid k
                         | None => "None"%string
                         end)].
End GetAbsoluteUrl.

(** [Product.get_absolute_url] *)
Definition Product_get_absolute_url (self : Product.t) : option string :=
  reverse products_urlpatterns "/products/" "detail"
          [("slug"%string, Product.slug self)].

(** [Category.get_absolute_url], of a category with this slug *)
Definition Category_get_absolute_url (slug : string) : option string :=
  reverse products_urlpatterns "/products/" "category_detail"
          [("slug"%string, slug)].

(** ** [ProductForm.clean] *)

Inductive cleaned : Type :=
| Cleaned            (* [return cleaned_data] *)
| ValidationError.   (* [raise forms.ValidationError(...)] *)

(** [cleaned_data.get(key, 0)]: a field that did not validate is
    missing from [cleaned_data]. *)
Definition get_or_0 (v : option Z) : Z :=
  match v with Some z => z | None => 0 end.

(** truth of an [int] *)
Definition truthy (z : Z) : bool := negb (z =? 0).

(** [ProductForm.clean] on the two stock levels of [cleaned_data] *)
Definition ProductForm_clean (min_stock_level max_stock_level : option Z) : cleaned :=
  let min_stock := get_or_0 min_stock_level in
  let max_stock := get_or_0 max_stock_level in
  if truthy min_stock && truthy max_stock && (max_stock <=? min_stock)
  then ValidationError
  else Cleaned.

(** [raf_db2] after cell 1 was saved as occupied *)
Definition dolu : Cell.t := Cell.mk (Some 1) 1 1 "Hücre 1" true true false.

Definition dolu_db : DB :=
  Eval vm_compute in
    match Cell_save raf_db2 dolu with
    | Ok (db, _) => db
    | Raise _ => raf_db2
    end.

(** [cell.is_occupied = b] on an instance *)
Definition Cell_with_is_occupied (b : bool) (c : Cell.t) : Cell.t :=
  Cell.mk (Cell.id c) (Cell.corridor c) (Cell.number c) (Cell.name c)
          b (Cell.is_active c) (Cell.is_reserved c).

(** Instances used in the examples *)
Definition koridor1 : Corridor.t := Corridor_init 77 1 "Koridor 1" None.
Definition depo_yeni : Warehouse.t := Warehouse.mk None true 1 "Depo" "001" 2 true.
Definition raf_kayit : ProductLocation.t :=
  ProductLocation_set_id 1 (ProductLocation_init 5 1 (Some 5) None).
Definition kalem2 : Product.t := Product_init 9 1 "Kalem" "" "SKU9" None None.

(** [raf_db3] with five of the product in cell 1, batch "P-7" *)
Definition raf_batch_db : DB :=
  Eval vm_compute in
    commit raf_db3 (ProductLocation_objects_create raf_db3 5 1 (Some 5) (Some "P-7")).


(** [raf_db1] after a corridor was saved under the key 5, given by the
    caller *)
Definition koridor5_db : DB :=
  Eval vm_compute in
    match Corridor_save raf_db1 (Corridor_set_id 5 koridor1) with
    | Ok (db, _) => db
    | Raise _ => raf_db1
    end.

(** ** Occupancy, counted on the table of cells

    The words of the specification, read on the tables and not through
    the related managers: the cells of a corridor are the stored cells
    that point to it, the cells of a warehouse are the stored cells
    whose corridor is a stored corridor of the warehouse, and a rate is
    the occupied ones over all of them, times 100. *)
Definition spec_cell_of_corridor (k : Z) (c : Cell.t) : bool :=
  Cell.corridor c =? k.

Definition spec_cell_of_warehouse (db : DB) (k : Z) (c : Cell.t) : bool :=
  existsb (fun co => has_pk Corridor.id (Cell.corridor c) co
                     && (Corridor.warehouse co =? k))
          (corridors db).

Definition spec_occupancy_rate {F : Type} (truediv : Z -> Z -> F) (mul : F -> Z -> F)
           (cs : list Cell.t) : number F :=
  rate truediv mul (count (filter Cell.is_occupied cs)) (count cs).

(** [warehouse.code = code] on an instance *)
Definition Warehouse_with_code (code : string) (w : Warehouse.t) : Warehouse.t :=
  Warehouse.mk (Warehouse.id w) (Warehouse.adding w) (Warehouse.shop w)
               (Warehouse.name w) code (Warehouse.corridor_count w)
               (Warehouse.is_active w).

(** The stored warehouse of [raf_db2], and [raf_db2] after it was saved
    again with the code 002 *)
Definition depo_kayit : Warehouse.t :=
  Warehouse_saved (Warehouse_init 77 1 "Depo" "001" None).

Definition depo_002_db : DB :=
  Eval vm_compute in
    match Warehouse_save 0 raf_db2 (Warehouse_with_code "002" depo_kayit) with
    | Ok (db, _) => db
    | Raise _ => raf_db2
    end.



(** Two warehouses.  Warehouse 77 has corridor 1 with one cell and
    corridor 2 with three cells; warehouse 88 has corridor 3 with two
    cells.  Then cell 1 (corridor 1) and the cells 5 and 6 (corridor 3)
    are saved as occupied. *)
Definition iki_depo_db1 : DB :=
  Eval vm_compute in
    commit raf_db1 (Warehouse_objects_create 88 raf_db1 1 "Depo 2" "002" None).
Definition iki_depo_db2 : DB :=
  Eval vm_compute in
    commit iki_depo_db1 (Corridor_objects_create iki_depo_db1 77 1 "Koridor 1" (Some 1)).
Definition iki_depo_db3 : DB :=
  Eval vm_compute in
    commit iki_depo_db2 (Corridor_objects_create iki_depo_db2 77 2 "Koridor 2" (Some 3)).
Definition iki_depo_db4 : DB :=
  Eval vm_compute in
    commit iki_depo_db3 (Corridor_objects_create iki_depo_db3 88 1 "Koridor 1" (Some 2)).
Definition iki_depo_db5 : DB :=
  Eval vm_compute in
    match Cell_save iki_depo_db4 (Cell.mk (Some 1) 1 1 "Hücre 1" true true false) with
    | Ok (db, _) => db
    | Raise _ => iki_depo_db4
    end.
Definition iki_depo_db6 : DB :=
  Eval vm_compute in
    match Cell_save iki_depo_db5 (Cell.mk (Some 5) 3 1 "Hücre 1" true true false) with
    | Ok (db, _) => db
    | Raise _ => iki_depo_db5
    end.
Definition iki_depo_db : DB :=
  Eval vm_compute in
    match Cell_save iki_depo_db6 (Cell.mk (Some 6) 3 2 "Hücre 2" true true false) with
    | Ok (db, _) => db
    | Raise _ => iki_depo_db6
    end.

(** [raf_db1] with a corridor numbered 100 that has no cell of its own,
    and then a cell numbered 1000 in it. *)
Definition genis_db1 : DB :=
  Eval vm_compute in
    commit raf_db1 (Corridor_objects_create raf_db1 77 100 "Koridor 100" (Some 0)).
Definition genis_db : DB :=
  Eval vm_compute in
    commit genis_db1 (Cell_objects_create genis_db1 1 1000 "Hücre 1000").
(** * Properties *)

(** ** The Python built-ins on examples *)

Example format_0d_7 : format_0d 3 7 = "007".
Proof. reflexivity. Qed.
Example format_0d_1000 : format_0d 3 1000 = "1000".
Proof. reflexivity. Qed.
Example format_0d_neg : format_0d 3 (-5) = "-05".
Proof. reflexivity. Qed.
Example py_range_1_4 : py_range 1 4 = [1; 2; 3].
Proof. reflexivity. Qed.

(** ** The base save *)

Section TableFacts.
Context {R : Type}.
Variable pk : R -> option Z.
Variable set_pk : Z -> R -> R.
Variable check : R -> bool.

Lemma update_In (t : list R) (k : Z) (self r : R) :
  In r (update pk t k self) -> r = self \/ In r t.
Proof.
  unfold update. rewrite in_map_iff. intros [x [Hx Hin]].
  destruct (has_pk pk k x); subst; auto.
Qed.

Lemma update_length (t : list R) (k : Z) (self : R) :
  List.length (update pk t k self) = List.length t.
Proof. unfold update. apply length_map. Qed.

(** What a save that returns has done: the instance it returns
    satisfies the constraints, and the table is the old one with the
    instance appended or put in the place of its stored copy. *)
Lemma Model_save_Ok force t next self t' next' self' :
  Model_save pk set_pk check force t next self = Ok (t', next', self') ->
  check self' = true /\
  ((pk self = None /\ self' = set_pk next self /\ t' = (t ++ [self'])%list
    /\ next' = next + 1 /\ exists_pk pk t next = false)
   \/ (exists k, pk self = Some k /\ self' = self /\ next' = next /\
         ((t' = update pk t k self /\ exists_pk pk t k = true /\ force = false)
          \/ (t' = (t ++ [self])%list /\ exists_pk pk t k = false)))).
Proof.
  unfold Model_save. destruct (pk self) as [k|] eqn:Hpk.
  - destruct (exists_pk pk t k) eqn:Hex; simpl.
    + destruct force; simpl.
      * discriminate.
      * destruct (check self) eqn:Hc; [|discriminate].
        intros H; inversion H; subst. split; [assumption|].
        right. exists k. repeat split; auto.
    + destruct (check self) eqn:Hc; [|discriminate].
      intros H; inversion H; subst. split; [assumption|].
      right. exists k. repeat split; auto.
  - destruct (exists_pk pk t next) eqn:Hex; simpl; [discriminate|].
    destruct (check (set_pk next self)) eqn:Hc; [|discriminate].
    intros H; inversion H; subst. split; [assumption|].
    left. repeat split; auto.
Qed.

Lemma Model_save_In force t next self t' next' self' :
  Model_save pk set_pk check force t next self = Ok (t', next', self') ->
  forall r, In r t' -> r = self' \/ In r t.
Proof.
  intros H r Hr. apply Model_save_Ok in H.
  destruct H as [_ [(_ & _ & -> & _) | (k & _ & -> & _ & [(-> & _) | (-> & _)])]].
  - apply in_app_or in Hr. destruct Hr as [Hr | [Hr | []]]; auto.
  - apply update_In in Hr. assumption.
  - apply in_app_or in Hr. destruct Hr as [Hr | [Hr | []]]; auto.
Qed.

Lemma Model_save_Forall (P : R -> Prop) force t next self t' next' self' :
  Model_save pk set_pk check force t next self = Ok (t', next', self') ->
  (forall r, check r = true -> P r) ->
  Forall P t -> Forall P t'.
Proof.
  intros H Hc Ht. rewrite Forall_forall in *. intros r Hr.
  destruct (Model_save_In _ _ _ _ _ _ _ H r Hr) as [-> | Hin].
  - apply Hc. apply Model_save_Ok in H. tauto.
  - auto.
Qed.

(** A row the constraints refuse is not saved. *)
Lemma Model_save_refused force t next self :
  (forall r, check r = false) ->
  Model_save pk set_pk check force t next self = Raise IntegrityError.
Proof.
  intros Hc. unfold Model_save.
  destruct (pk self); rewrite ?Hc, ?andb_false_r;
    repeat match goal with |- context [if ?b then _ else _] => destruct b end;
    reflexivity.
Qed.
End TableFacts.

(** ** What the fan-out writes *)

Lemma set_cells_set_cells db t n t' n' :
  set_cells (set_cells db t n) t' n' = set_cells db t' n'.
Proof. reflexivity. Qed.

Lemma set_cells_eta db : set_cells db (cells db) (next_cell_id db) = db.
Proof. destruct db; reflexivity. Qed.

Lemma Cell_objects_create_Ok db k i name db' :
  Cell_objects_create db k i name = Ok db' ->
  db' = set_cells db
          (cells db ++ [Cell.mk (Some (next_cell_id db)) k i name false true false])
          (next_cell_id db + 1).
Proof.
  unfold Cell_objects_create, Cell_save, bind.
  destruct (Model_save _ _ _ _ _ _ _) as [[[t next] self']|e] eqn:H; [|discriminate].
  apply Model_save_Ok in H. simpl in H.
  destruct H as [_ [(_ & -> & -> & -> & _) | (k' & Hk & _)]]; [|discriminate].
  intros H; inversion H; subst. reflexivity.
Qed.

Lemma default_cells_loop corridor l : forall db db',
  for_each l (fun db i => Cell_objects_create db corridor i
                            ("Hücre " ++ format_d i)%string) db = Ok db' ->
  db' = set_cells db (cells db ++ default_cells corridor (next_cell_id db) l)
                  (next_cell_id db + Z.of_nat (List.length l)).
Proof.
  induction l as [|i l IH]; simpl; intros db db' H.
  - inversion H; subst. rewrite app_nil_r, Z.add_0_r. symmetry. apply set_cells_eta.
  - unfold bind in H.
    destruct (Cell_objects_create db corridor i _) as [db1|e] eqn:H1; [|discriminate].
    apply Cell_objects_create_Ok in H1. apply IH in H. subst db1.
    rewrite H. rewrite set_cells_set_cells. simpl cells. simpl next_cell_id.
    rewrite <- app_assoc. simpl. f_equal. lia.
Qed.

Lemma create_default_cells_Ok db self db' :
  create_default_cells db self = Ok db' ->
  exists pk, Corridor.id self = Some pk /\
    db' = set_cells db
            (cells db ++ default_cells pk (next_cell_id db)
                                       (py_range 1 (Corridor.cell_count self + 1)))
            (next_cell_id db
             + Z.of_nat (List.length (py_range 1 (Corridor.cell_count self + 1)))).
Proof.
  unfold create_default_cells. destruct (Corridor.id self) as [pk|]; [|discriminate].
  intros H. exists pk. split; [reflexivity|]. apply default_cells_loop. assumption.
Qed.

Lemma default_cells_length corridor l : forall first,
  List.length (default_cells corridor first l) = List.length l.
Proof. induction l; simpl; intros; [reflexivity|]. f_equal. apply IHl. Qed.

Lemma default_cells_numbers corridor l : forall first,
  map Cell.number (default_cells corridor first l) = l.
Proof. induction l; simpl; intros; [reflexivity|]. f_equal. apply IHl. Qed.

Lemma default_cells_In corridor l : forall first c,
  In c (default_cells corridor first l) ->
  Cell.corridor c = corridor /\ Cell.is_occupied c = false
  /\ Cell.is_active c = true /\ Cell.is_reserved c = false
  /\ In (Cell.number c) l
  /\ exists k, Cell.id c = Some k /\ first <= k < first + Z.of_nat (List.length l).
Proof.
  induction l as [|i l IH]; simpl; intros first c H; [contradiction|].
  destruct H as [<- | H].
  - simpl. repeat split; auto. exists first. split; [reflexivity | lia].
  - apply IH in H. destruct H as (H1 & H2 & H3 & H4 & H5 & k & Hk & Hr).
    repeat split; auto. exists k. split; [assumption | lia].
Qed.

Lemma py_range_length lo hi :
  Z.of_nat (List.length (py_range lo hi)) = Z.max 0 (hi - lo).
Proof. unfold py_range. rewrite length_map, length_seq. lia. Qed.

Lemma py_range_In lo hi i : In i (py_range lo hi) <-> lo <= i < hi.
Proof.
  unfold py_range. rewrite in_map_iff. split.
  - intros [k [<- Hk]]. apply in_seq in Hk. lia.
  - intros H. exists (Z.to_nat (i - lo)). split; [lia|]. apply in_seq. lia.
Qed.

Lemma appended_nil db : appended db [] 0 [] 0 = db.
Proof.
  destruct db; unfold appended; simpl. rewrite !app_nil_r, !Z.add_0_r. reflexivity.
Qed.

Lemma appended_appended db cs dc ce de cs' dc' ce' de' :
  appended (appended db cs dc ce de) cs' dc' ce' de'
  = appended db (cs ++ cs') (dc + dc') (ce ++ ce') (de + de').
Proof.
  unfold appended; simpl. rewrite <- !app_assoc, <- !Z.add_assoc. reflexivity.
Qed.

Lemma Corridor_objects_create_Ok db w i name db' :
  Corridor_objects_create db w i name None = Ok db' ->
  db' = appended db
          [Corridor.mk (Some (next_corridor_id db)) w i name 10 true] 1
          (default_cells (next_corridor_id db) (next_cell_id db) (py_range 1 11)) 10.
Proof.
  unfold Corridor_objects_create, Corridor_save, bind. simpl.
  destruct (Model_save _ _ _ _ _ _ _) as [[[t next] self']|e] eqn:H; [|discriminate].
  apply Model_save_Ok in H. simpl in H.
  destruct H as [_ [(_ & -> & -> & -> & _) | (k' & Hk & _)]]; [|discriminate].
  destruct (create_default_cells _ _) as [db2|e] eqn:H2; [|discriminate].
  apply create_default_cells_Ok in H2. destruct H2 as (pk & Hpk & ->).
  simpl in Hpk. inversion Hpk; subst pk. clear Hpk.
  intros H; inversion H; subst db'. reflexivity.
Qed.

Lemma next_corridor_id_appended db cs dc ce de :
  next_corridor_id (appended db cs dc ce de) = next_corridor_id db + dc.
Proof. reflexivity. Qed.

Lemma next_cell_id_appended db cs dc ce de :
  next_cell_id (appended db cs dc ce de) = next_cell_id db + de.
Proof. reflexivity. Qed.

Lemma default_corridors_loop w l : forall db db',
  for_each l (fun db i => Corridor_objects_create db w i
                            ("Koridor " ++ format_d i)%string None) db = Ok db' ->
  db' = appended db
          (default_corridors w (next_corridor_id db) l) (Z.of_nat (List.length l))
          (default_corridor_cells (next_corridor_id db) (next_cell_id db) l)
          (10 * Z.of_nat (List.length l)).
Proof.
  induction l as [|i l IH]; intros db db' H.
  - simpl in H. inversion H; subst. symmetry. apply appended_nil.
  - cbn [for_each] in H. unfold bind in H.
    destruct (Corridor_objects_create db w i _ None) as [db1|e] eqn:H1; [|discriminate].
    apply Corridor_objects_create_Ok in H1. apply IH in H. subst db1.
    rewrite H, appended_appended, next_corridor_id_appended, next_cell_id_appended.
    cbn [default_corridors default_corridor_cells List.length app].
    rewrite Nat2Z.inj_succ. f_equal; lia.
Qed.

Lemma create_default_corridors_Ok db self db' :
  create_default_corridors db self = Ok db' ->
  exists pk, Warehouse.id self = Some pk /\
    let l := py_range 1 (Warehouse.corridor_count self + 1) in
    db' = appended db
            (default_corridors pk (next_corridor_id db) l) (Z.of_nat (List.length l))
            (default_corridor_cells (next_corridor_id db) (next_cell_id db) l)
            (10 * Z.of_nat (List.length l)).
Proof.
  unfold create_default_corridors. destruct (Warehouse.id self) as [pk|]; [|discriminate].
  intros H. exists pk. split; [reflexivity|]. apply default_corridors_loop. assumption.
Qed.

Lemma default_corridors_length w l : forall first,
  List.length (default_corridors w first l) = List.length l.
Proof. induction l; simpl; intros; [reflexivity|]. f_equal. apply IHl. Qed.

Lemma default_corridors_numbers w l : forall first,
  map Corridor.number (default_corridors w first l) = l.
Proof. induction l; simpl; intros; [reflexivity|]. f_equal. apply IHl. Qed.

Lemma default_corridor_cells_length {A : Type} (l : list A) : forall fc fe,
  List.length (default_corridor_cells fc fe l) = (10 * List.length l)%nat.
Proof.
  induction l as [|a l IH]; intros fc fe; [reflexivity|].
  cbn [default_corridor_cells]. rewrite length_app, default_cells_length, IH.
  change (List.length (py_range 1 11)) with 10%nat. cbn [List.length]. lia.
Qed.

Lemma Corridor_save_Ok db self db' self' :
  Corridor_save db self = Ok (db', self') ->
  (Corridor.id self = None /\
   self' = Corridor_set_id (next_corridor_id db) self /\
   let l := py_range 1 (Corridor.cell_count self + 1) in
   db' = appended db [self'] 1
           (default_cells (next_corridor_id db) (next_cell_id db) l)
           (Z.of_nat (List.length l)))
  \/ (exists k t, Corridor.id self = Some k /\ self' = self /\
        db' = set_corridors db t (next_corridor_id db) /\
        forall r, In r t -> r = self \/ In r (corridors db)).
Proof.
  unfold Corridor_save, bind.
  destruct (Model_save _ _ _ _ _ _ _) as [[[t next] s1]|e] eqn:H; [|discriminate].
  pose proof (Model_save_In _ _ _ _ _ _ _ _ _ _ H) as Hin.
  apply Model_save_Ok in H.
  destruct H as [_ [(Hid & -> & -> & -> & _) | (k & Hid & -> & -> & _)]]; rewrite Hid.
  - destruct (create_default_cells _ _) as [db2|e] eqn:H2; [|discriminate].
    apply create_default_cells_Ok in H2. destruct H2 as (pk & Hpk & ->).
    simpl in Hpk. inversion Hpk; subst pk.
    intros H; inversion H; subst. left. repeat split.
  - intros H; inversion H; subst. right. exists k, t. repeat split; auto.
Qed.

Lemma Warehouse_base_save_Ok uuid4 db self db' self' :
  Warehouse_base_save uuid4 db self = Ok (db', self') ->
  exists t k, db' = set_warehouses db t /\ Warehouse.id self' = Some k
    /\ Warehouse.corridor_count self' = Warehouse.corridor_count self
    /\ Warehouse_constraints db self' = true
    /\ In self' t
    /\ forall r, In r t -> r = self' \/ In r (warehouses db).
Proof.
  unfold Warehouse_base_save, bind.
  destruct (Model_save _ _ _ _ _ _ _) as [[[t next] s1]|e] eqn:H; [|discriminate].
  intros E; inversion E; subst; clear E.
  pose proof (Model_save_In _ _ _ _ _ _ _ _ _ _ H) as Hin.
  apply Model_save_Ok in H. destruct H as [Hc H].
  assert (Hsome : exists k, Warehouse.id
            (Warehouse_saved match Warehouse.id self with
                             | Some _ => self
                             | None => Warehouse_set_id uuid4 self
                             end) = Some k).
  { destruct (Warehouse.id self) as [k|] eqn:Hk; simpl; eauto. }
  destruct Hsome as [k0 Hk0].
  destruct H as [(Hid & _) | (k & Hid & -> & _ & Ht)].
  - rewrite Hid in Hk0. discriminate.
  - exists t, k0. repeat split; auto.
    + destruct (Warehouse.id self); reflexivity.
    + destruct Ht as [(-> & Hex & _) | (-> & _)].
      * unfold update. apply in_map_iff.
        unfold exists_pk in Hex. apply existsb_exists in Hex.
        destruct Hex as [x [Hx Hp]]. exists x. rewrite Hid in Hk0.
        inversion Hk0; subst k0. rewrite Hp. auto.
      * apply in_or_app. right. left. reflexivity.
Qed.

(** A warehouse saved with its key already set gets no corridor and no
    cell; one saved with the key [None] gets its default corridors. *)
Lemma Warehouse_save_Ok uuid4 db self db' self' :
  Warehouse_save uuid4 db self = Ok (db', self') ->
  exists t pk, Warehouse.id self' = Some pk /\
    ((Warehouse.id self <> None /\ db' = set_warehouses db t)
     \/ (Warehouse.id self = None /\
         let l := py_range 1 (Warehouse.corridor_count self + 1) in
         db' = appended (set_warehouses db t)
                 (default_corridors pk (next_corridor_id db) l)
                 (Z.of_nat (List.length l))
                 (default_corridor_cells (next_corridor_id db) (next_cell_id db) l)
                 (10 * Z.of_nat (List.length l)))).
Proof.
  unfold Warehouse_save, bind.
  destruct (Warehouse_base_save uuid4 db self) as [[db1 s1]|e] eqn:H; [|discriminate].
  apply Warehouse_base_save_Ok in H.
  destruct H as (t & k & -> & Hk & Hcc & _).
  destruct (Warehouse.id self) as [k'|] eqn:Hid.
  - intros E; inversion E; subst. exists t, k. split; [assumption|].
    left. split; [discriminate | reflexivity].
  - destruct (create_default_corridors _ _) as [db2|e] eqn:H2; [|discriminate].
    intros E; inversion E; subst.
    apply create_default_corridors_Ok in H2. destruct H2 as (pk & Hpk & H2).
    rewrite Hk in Hpk. inversion Hpk; subst pk.
    exists t, k. split; [assumption|]. right. split; [reflexivity|].
    rewrite Hcc in H2. exact H2.
Qed.

(** [objects.create] builds the instance first, so the key is set when
    [save] reads it: the corridor and cell tables are left as they were. *)
Lemma Warehouse_objects_create_Ok uuid4 db shop name code n db' :
  Warehouse_objects_create uuid4 db shop name code n = Ok db' ->
  corridors db' = corridors db /\ cells db' = cells db.
Proof.
  unfold Warehouse_objects_create, bind.
  destruct (Warehouse_save _ _ _) as [[db1 s1]|e] eqn:H; [|discriminate].
  intros E; inversion E; subst; clear E. simpl.
  apply Warehouse_save_Ok in H.
  destruct H as (t & pk & _ & [(_ & ->) | (Hid & _)]).
  - split; reflexivity.
  - discriminate.
Qed.

(** ** Creating a warehouse *)

(** C5.  [Warehouse.objects.create(shop=1, name="Depo", code="001",
    corridor_count=5)] on an empty database stores the warehouse and
    nothing else: [save] finds the key already set by the field default,
    takes the instance for an old one and skips
    [create_default_corridors].  No corridor and no cell is created. *)
Theorem Warehouse_create_makes_no_corridor :
  exists db',
    Warehouse_objects_create 77 empty_db 1 "Depo" "001" (Some 5) = Ok db'
    /\ map Warehouse.corridor_count (warehouses db') = [5]
    /\ corridors db' = []
    /\ cells db' = [].
Proof.
  eexists. split; [reflexivity|]. repeat split.
Qed.

(** The loop itself does what the claim says: run on a stored warehouse
    of an empty database it makes corridors 1..5 with cells 1..10 each. *)
Example create_default_corridors_5 :
  exists db',
    create_default_corridors
      (set_warehouses empty_db [Warehouse.mk (Some 77) false 1 "Depo" "001" 5 true])
      (Warehouse.mk (Some 77) false 1 "Depo" "001" 5 true) = Ok db'
    /\ map Corridor.number (corridors db') = [1; 2; 3; 4; 5]
    /\ forall c, In c (corridors db') ->
         map Cell.number (Corridor_cells db' c) = [1; 2; 3; 4; 5; 6; 7; 8; 9; 10].
Proof.
  eexists. split; [vm_compute; reflexivity|]. split; [reflexivity|].
  intros c Hc. simpl in Hc.
  repeat (destruct Hc as [<- | Hc]; [reflexivity|]). contradiction.
Qed.

(** ** The bounds of the fan-out *)

Lemma range_valid lo hi v :
  MinValueValidator lo v && MaxValueValidator hi v = true <-> lo <= v <= hi.
Proof.
  unfold MinValueValidator, MaxValueValidator.
  rewrite andb_true_iff, !Z.leb_le. tauto.
Qed.

(** ** Decimal formatting *)

Lemma decimal_value_digits n : decimal_value (digits n) = Some n.
Proof.
  unfold decimal_value, digits.
  assert (H : forall d, option_map N.of_uint
                (NilEmpty.uint_of_string (NilZero.string_of_uint d))
              = Some (N.of_uint d)).
  { intros d. destruct d; try reflexivity;
      (change (NilZero.string_of_uint ?x) with (NilEmpty.string_of_uint x);
       rewrite NilEmpty.usu; reflexivity). }
  rewrite H. f_equal. apply DecimalN.Unsigned.of_to.
Qed.

Lemma decimal_value_zeros k s : decimal_value (zeros k ++ s) = decimal_value s.
Proof.
  induction k as [|k IH]; [reflexivity|].
  rewrite <- IH. unfold decimal_value. simpl.
  destruct (NilEmpty.uint_of_string (zeros k ++ s)); reflexivity.
Qed.

Lemma decimal_value_zfill w n : decimal_value (zfill w (digits n)) = Some n.
Proof. unfold zfill. rewrite decimal_value_zeros. apply decimal_value_digits. Qed.

(** For a number that is not negative, [format_0d] is [zfill] of the
    digits: at least [width] characters, all of them digits, denoting
    the number. *)
Lemma format_0d_nonneg w z :
  0 <= z -> format_0d w z = zfill w (digits (Z.to_N z)).
Proof.
  intros H. unfold format_0d. destruct (z <? 0) eqn:E; [|reflexivity].
  apply Z.ltb_lt in E. lia.
Qed.

Lemma format_0d_value w z :
  0 <= z -> decimal_value (format_0d w z) = Some (Z.to_N z).
Proof. intros H. rewrite format_0d_nonneg by assumption. apply decimal_value_zfill. Qed.

Lemma format_0d_inj w z z' :
  0 <= z -> 0 <= z' -> format_0d w z = format_0d w z' -> z = z'.
Proof.
  intros H H' E. apply (f_equal decimal_value) in E.
  rewrite !format_0d_value in E by assumption. inversion E. lia.
Qed.

Lemma zeros_length k : String.length (zeros k) = k.
Proof. induction k; simpl; congruence. Qed.

Lemma string_length_app (a b : string) :
  String.length (a ++ b) = (String.length a + String.length b)%nat.
Proof. induction a; simpl; congruence. Qed.

Lemma zfill_length w s : (w <= String.length (zfill w s))%nat.
Proof. unfold zfill. rewrite string_length_app, zeros_length. lia. Qed.

(** Two strings of digits followed by a dash: the digits end where the
    dash is, so equal wholes have equal parts. *)
Lemma digits_dash_split a : forall a' r r',
  decimal_value a <> None -> decimal_value a' <> None ->
  (a ++ String "-" r)%string = (a' ++ String "-" r')%string ->
  a = a' /\ r = r'.
Proof.
  unfold decimal_value.
  induction a as [|c a IH]; intros [|c' a'] r r' Ha Ha' E; simpl in *.
  - inversion E. auto.
  - inversion E; subst c'. exfalso. apply Ha'.
    destruct (NilEmpty.uint_of_string a'); reflexivity.
  - inversion E; subst c. exfalso. apply Ha.
    destruct (NilEmpty.uint_of_string a); reflexivity.
  - inversion E; subst c'.
    destruct (IH a' r r') as [-> ->]; auto.
    + intros H. apply Ha. destruct (NilEmpty.uint_of_string a); [discriminate|reflexivity].
    + intros H. apply Ha'. destruct (NilEmpty.uint_of_string a'); [discriminate|reflexivity].
Qed.

Lemma string_app_inv_head (p a b : string) : (p ++ a = p ++ b)%string -> a = b.
Proof. induction p; simpl; intros H; [assumption|]. inversion H. auto. Qed.

(** ** Lookups *)

Section LookupFacts.
Context {R : Type}.
Variable pk : R -> option Z.

Lemma has_pk_iff k r : has_pk pk k r = true <-> pk r = Some k.
Proof.
  unfold has_pk. destruct (pk r) as [j|]; split; intros H; try discriminate.
  - apply Z.eqb_eq in H. congruence.
  - inversion H. apply Z.eqb_refl.
Qed.

Lemma get_Some t k r : get pk t k = Some r -> In r t /\ pk r = Some k.
Proof.
  unfold get. intros H. apply find_some in H. rewrite has_pk_iff in H. exact H.
Qed.

Lemma exists_pk_get t k :
  exists_pk pk t k = true -> exists r, get pk t k = Some r.
Proof.
  unfold exists_pk, get. intros H. apply existsb_exists in H.
  destruct H as [x [Hin Hx]].
  destruct (find (has_pk pk k) t) as [r|] eqn:E; [eauto|].
  rewrite (find_none _ _ E x Hin) in Hx. discriminate.
Qed.

Lemma related_Ok t k r : related pk t k = Ok r -> In r t /\ pk r = Some k.
Proof.
  unfold related. destruct (get pk t k) eqn:E; [|discriminate].
  intros H; inversion H; subst. apply get_Some. assumption.
Qed.

Lemma exists_pk_related t k :
  exists_pk pk t k = true -> exists r, related pk t k = Ok r.
Proof.
  intros H. apply exists_pk_get in H. destruct H as [r H].
  exists r. unfold related. rewrite H. reflexivity.
Qed.

Lemma same_row_false r self : pk r <> pk self -> same_row pk r self = false.
Proof.
  unfold same_row. destruct (pk self) as [k|] eqn:E; [|reflexivity].
  intros H. destruct (has_pk pk k r) eqn:Hk; [|reflexivity].
  apply has_pk_iff in Hk. congruence.
Qed.

Lemma same_row_true r self :
  same_row pk r self = true -> exists k, pk r = Some k /\ pk self = Some k.
Proof.
  unfold same_row. destruct (pk self) as [k|]; [|discriminate].
  intros H. apply has_pk_iff in H. eauto.
Qed.
End LookupFacts.

(** What the constraints of a stored corridor and of a stored cell say. *)
Lemma Corridor_constraints_true db self :
  Corridor_constraints db self = true ->
  0 <= Corridor.number self /\ 0 <= Corridor.cell_count self
  /\ exists_pk Warehouse.id (warehouses db) (Corridor.warehouse self) = true
  /\ forall r, In r (corridors db) ->
       Corridor.warehouse r = Corridor.warehouse self ->
       Corridor.number r = Corridor.number self ->
       same_row Corridor.id r self = true.
Proof.
  unfold Corridor_constraints, positive.
  rewrite !andb_true_iff, !Z.leb_le, negb_true_iff.
  intros [[[H1 H2] H3] H4]. repeat split; auto.
  intros r Hin Hw Hn.
  destruct (same_row Corridor.id r self) eqn:E; [reflexivity|]. exfalso.
  assert (X : existsb (fun r => negb (same_row Corridor.id r self)
                        && (Corridor.warehouse r =? Corridor.warehouse self)
                        && (Corridor.number r =? Corridor.number self))
                      (corridors db) = true).
  { apply existsb_exists. exists r. split; [assumption|].
    rewrite E, Hw, Hn, !Z.eqb_refl. reflexivity. }
  congruence.
Qed.

Lemma Cell_constraints_true db self :
  Cell_constraints db self = true ->
  0 <= Cell.number self
  /\ exists_pk Corridor.id (corridors db) (Cell.corridor self) = true
  /\ forall r, In r (cells db) ->
       Cell.corridor r = Cell.corridor self ->
       Cell.number r = Cell.number self ->
       same_row Cell.id r self = true.
Proof.
  unfold Cell_constraints, positive.
  rewrite !andb_true_iff, !Z.leb_le, negb_true_iff.
  intros [[H1 H2] H3]. repeat split; auto.
  intros r Hin Hw Hn.
  destruct (same_row Cell.id r self) eqn:E; [reflexivity|]. exfalso.
  assert (X : existsb (fun r => negb (same_row Cell.id r self)
                        && (Cell.corridor r =? Cell.corridor self)
                        && (Cell.number r =? Cell.number self))
                      (cells db) = true).
  { apply existsb_exists. exists r. split; [assumption|].
    rewrite E, Hw, Hn, !Z.eqb_refl. reflexivity. }
  congruence.
Qed.

(** ** The location code *)

Lemma location_code_eq db c co w :
  related Corridor.id (corridors db) (Cell.corridor c) = Ok co ->
  related Warehouse.id (warehouses db) (Corridor.warehouse co) = Ok w ->
  location_code db c
  = Ok ("W" ++ Warehouse.code w
        ++ "-C" ++ format_0d 2 (Corridor.number co)
        ++ "-H" ++ format_0d 3 (Cell.number c))%string.
Proof. intros H1 H2. unfold location_code. rewrite H1. simpl. rewrite H2. reflexivity. Qed.

(** ** Committed operations

    One step is one call of a [save] (or of one of the two fan-out
    methods) that returns.  A single INSERT or UPDATE that raises
    writes nothing; a fan-out that raises midway keeps the rows written
    before it raised, and these are rows that single saves write. *)

Lemma Cell_save_Ok db self db' self' :
  Cell_save db self = Ok (db', self') ->
  exists t next, db' = set_cells db t next
    /\ Cell_constraints db self' = true
    /\ forall r, In r t -> r = self' \/ In r (cells db).
Proof.
  unfold Cell_save, bind.
  destruct (Model_save _ _ _ _ _ _ _) as [[[t next] s1]|e] eqn:H; [|discriminate].
  intros E; inversion E; subst. exists t, next. split; [reflexivity|].
  split; [apply Model_save_Ok in H; tauto|].
  eapply Model_save_In; eassumption.
Qed.

Lemma ProductLocation_save_Ok db self db' self' :
  ProductLocation_save db self = Ok (db', self') ->
  exists t next, db' = set_product_locations db t next
    /\ ProductLocation_constraints db self' = true
    /\ forall r, In r t -> r = self' \/ In r (product_locations db).
Proof.
  unfold ProductLocation_save, bind.
  destruct (Model_save _ _ _ _ _ _ _) as [[[t next] s1]|e] eqn:H; [|discriminate].
  intros E; inversion E; subst. exists t, next. split; [reflexivity|].
  split; [apply Model_save_Ok in H; tauto|].
  eapply Model_save_In; eassumption.
Qed.

Lemma Product_save_Ok uuid4 db self db' self' :
  Product_save uuid4 db self = Ok (db', self') ->
  exists t, db' = set_products db t
    /\ Product_constraints db self' = true
    /\ forall r, In r t -> r = self' \/ In r (products db).
Proof.
  unfold Product_save, bind.
  destruct (Model_save _ _ _ _ _ _ _) as [[[t next] s1]|e] eqn:H; [|discriminate].
  intros E; inversion E; subst. exists t. split; [reflexivity|].
  split; [apply Model_save_Ok in H; tauto|].
  eapply Model_save_In; eassumption.
Qed.

Lemma StockMovement_save_Ok db self db' self' :
  StockMovement_save db self = Ok (db', self') ->
  exists t next, db' = set_stock_movements db t next
    /\ StockMovement_constraints db self' = true
    /\ forall r, In r t -> r = self' \/ In r (stock_movements db).
Proof.
  unfold StockMovement_save, bind.
  destruct (Model_save _ _ _ _ _ _ _) as [[[t next] s1]|e] eqn:H; [|discriminate].
  intros E; inversion E; subst. exists t, next. split; [reflexivity|].
  split; [apply Model_save_Ok in H; tauto|].
  eapply Model_save_In; eassumption.
Qed.

Lemma step_stock_columns_ok db db' :
  step db db' -> stock_columns_ok db -> stock_columns_ok db'.
Proof.
  intros Hs (Hp & Hm & Hl). destruct Hs as
    [u db self db' self' H | db self db' self' H | db self db' self' H
     | db self db' self' H | u db self db' self' H | db self db' self' H
     | db self db' H | db self db' H].
  - apply Warehouse_save_Ok in H.
    destruct H as (t & pk & _ & [(_ & ->) | (_ & ->)]); repeat split; simpl; auto;
      apply Hm; assumption.
  - apply Corridor_save_Ok in H.
    destruct H as [(_ & _ & ->) | (k & t & _ & _ & -> & _)]; repeat split; simpl; auto;
      apply Hm; assumption.
  - apply Cell_save_Ok in H. destruct H as (t & n & -> & _).
    repeat split; simpl; auto; apply Hm; assumption.
  - apply ProductLocation_save_Ok in H. destruct H as (t & n & -> & Hc & Hin).
    repeat split; simpl; auto; try (apply Hm; assumption).
    intros l Hl'. destruct (Hin l Hl') as [-> | Hold]; [|auto].
    unfold ProductLocation_constraints, positive in Hc.
    rewrite !andb_true_iff, Z.leb_le in Hc. tauto.
  - apply Product_save_Ok in H. destruct H as (t & -> & Hc & Hin).
    repeat split; simpl; auto; try (apply Hm; assumption).
    intros p Hp'. destruct (Hin p Hp') as [-> | Hold]; [|auto].
    unfold Product_constraints, positive in Hc.
    rewrite !andb_true_iff, !Z.leb_le in Hc. tauto.
  - apply StockMovement_save_Ok in H. destruct H as (t & n & -> & Hc & Hin).
    unfold StockMovement_constraints, positive in Hc.
    rewrite !andb_true_iff, !Z.leb_le in Hc.
    repeat split; simpl; auto;
      destruct (Hin m H) as [-> | Hold]; try tauto; apply Hm; assumption.
  - apply create_default_corridors_Ok in H. destruct H as (pk & _ & ->).
    repeat split; simpl; auto; apply Hm; assumption.
  - apply create_default_cells_Ok in H. destruct H as (pk & _ & ->).
    repeat split; simpl; auto; apply Hm; assumption.
Qed.

Lemma reachable_stock_columns_ok db : reachable db -> stock_columns_ok db.
Proof.
  induction 1 as [|db db' _ IH Hs].
  - repeat split; simpl; contradiction.
  - eapply step_stock_columns_ok; eassumption.
Qed.

(** ** The stock ledger *)

Lemma kalem_db_reachable : reachable kalem_db.
Proof.
  apply (reachable_step empty_db); [apply reachable_empty|].
  apply (step_Product_save 5 empty_db kalem kalem_db (Product_saved kalem)).
  reflexivity.
Qed.

Lemma ledger_db_reachable : reachable ledger_db.
Proof.
  apply (reachable_step kalem_db); [apply kalem_db_reachable|].
  apply (step_StockMovement_save kalem_db odd_movement ledger_db
                                 (StockMovement_set_id 1 odd_movement)).
  reflexivity.
Qed.

(** C10.  In every database the operations can reach, the
    [previous_stock] and [new_stock] of every movement and the
    [stock_quantity] of every product are at least 0; the [quantity] of a
    movement is signed, and a stored movement can have a negative one. *)
Theorem stock_snapshots_non_negative :
  (forall db, reachable db ->
     (forall m, In m (stock_movements db) ->
        0 <= StockMovement.previous_stock m /\ 0 <= StockMovement.new_stock m)
     /\ (forall p, In p (products db) -> 0 <= Product.stock_quantity p))
  /\ (exists db m, reachable db /\ In m (stock_movements db)
                   /\ StockMovement.quantity m < 0).
Proof.
  split.
  - intros db H. apply reachable_stock_columns_ok in H.
    destruct H as (Hp & Hm & _). split; assumption.
  - exists ledger_db, (StockMovement_set_id 1 odd_movement).
    split; [apply ledger_db_reachable|]. split; [left; reflexivity | reflexivity].
Qed.

Lemma stock_snapshots_non_negative_witness :
  (forall m, In m (stock_movements ledger_db) ->
     0 <= StockMovement.previous_stock m /\ 0 <= StockMovement.new_stock m)
  /\ (forall p, In p (products ledger_db) -> 0 <= Product.stock_quantity p).
Proof.
  destruct stock_snapshots_non_negative as [H _].
  apply (H ledger_db). apply ledger_db_reachable.
Defined.




(** ** Occupancy *)

Section KeysKept.
Context {R : Type}.
Variable pk : R -> option Z.
Variable set_pk : Z -> R -> R.
Variable check : R -> bool.
Hypothesis set_pk_pk : forall k r, pk (set_pk k r) = Some k.

Lemma exists_pk_app t t' k :
  exists_pk pk (t ++ t') k = exists_pk pk t k || exists_pk pk t' k.
Proof. unfold exists_pk. apply existsb_app. Qed.

Lemma exists_pk_update t k self j :
  pk self = Some k -> exists_pk pk (update pk t k self) j = exists_pk pk t j.
Proof.
  intros Hs. unfold exists_pk, update. induction t as [|x t IH]; [reflexivity|].
  simpl. rewrite IH. f_equal.
  destruct (has_pk pk k x) eqn:E; [|reflexivity].
  apply has_pk_iff in E. unfold has_pk. rewrite Hs, E. reflexivity.
Qed.

(** A save never removes a key from the table. *)
Lemma Model_save_exists_pk force t next self t' next' self' j :
  Model_save pk set_pk check force t next self = Ok (t', next', self') ->
  exists_pk pk t j = true -> exists_pk pk t' j = true.
Proof.
  intros H Hj. apply Model_save_Ok in H.
  destruct H as [_ [(_ & _ & -> & _) | (k & Hk & -> & _ & [(-> & _) | (-> & _)])]].
  - rewrite exists_pk_app, Hj. reflexivity.
  - rewrite exists_pk_update; assumption.
  - rewrite exists_pk_app, Hj. reflexivity.
Qed.
End KeysKept.

Lemma Cell_objects_create_fresh db k i name db' :
  Cell_objects_create db k i name = Ok db' ->
  exists_pk Cell.id (cells db) (next_cell_id db) = false.
Proof.
  unfold Cell_objects_create, Cell_save, bind.
  destruct (Model_save _ _ _ _ _ _ _) as [[[t next] self']|e] eqn:H; [|discriminate].
  apply Model_save_Ok in H. simpl in H.
  destruct H as [_ [(_ & _ & _ & _ & Hf) | (k' & Hk & _)]]; [|discriminate].
  intros _. exact Hf.
Qed.

Lemma default_cells_loop_fresh corridor l : forall db db',
  for_each l (fun db i => Cell_objects_create db corridor i
                            ("Hücre " ++ format_d i)%string) db = Ok db' ->
  forall j, next_cell_id db <= j < next_cell_id db + Z.of_nat (List.length l) ->
    exists_pk Cell.id (cells db) j = false.
Proof.
  induction l as [|i l IH]; intros db db' H j Hj.
  - simpl in Hj. lia.
  - cbn [for_each] in H. unfold bind in H.
    destruct (Cell_objects_create db corridor i _) as [db1|e] eqn:H1; [|discriminate].
    pose proof (Cell_objects_create_fresh _ _ _ _ _ H1) as Hf.
    apply Cell_objects_create_Ok in H1. subst db1.
    destruct (Z.eq_dec j (next_cell_id db)) as [-> | Hne]; [assumption|].
    specialize (IH _ _ H j). simpl in IH.
    rewrite exists_pk_app in IH. apply orb_false_iff in IH; [tauto|].
    cbn [List.length] in Hj. rewrite Nat2Z.inj_succ in Hj. lia.
Qed.

Lemma create_default_cells_fresh db self db' :
  create_default_cells db self = Ok db' ->
  forall j, next_cell_id db <= j
            < next_cell_id db
              + Z.of_nat (List.length (py_range 1 (Corridor.cell_count self + 1))) ->
    exists_pk Cell.id (cells db) j = false.
Proof.
  unfold create_default_cells. destruct (Corridor.id self) as [pk|]; [|discriminate].
  apply default_cells_loop_fresh.
Qed.

(** A cell whose key no placement points to holds nothing. *)
Lemma placed_quantity_no_placement db c k :
  Cell.id c = Some k ->
  (forall l, In l (product_locations db) -> ProductLocation.cell l <> k) ->
  placed_quantity db c = 0.
Proof.
  intros Hk Hno. unfold placed_quantity, Cell_stored_products. rewrite Hk.
  induction (product_locations db) as [|l t IH]; [reflexivity|].
  simpl. destruct (ProductLocation.cell l =? k) eqn:E.
  - apply Z.eqb_eq in E. exfalso. apply (Hno l); [left; reflexivity | assumption].
  - apply IH. intros l' Hl'. apply Hno. right. assumption.
Qed.

Lemma Cell_save_keys db self db' self' :
  Cell_save db self = Ok (db', self') ->
  product_locations db' = product_locations db
  /\ forall j, exists_pk Cell.id (cells db) j = true ->
               exists_pk Cell.id (cells db') j = true.
Proof.
  unfold Cell_save, bind.
  destruct (Model_save _ _ _ _ _ _ _) as [[[t next] s1]|e] eqn:H; [|discriminate].
  intros E; inversion E; subst. split; [reflexivity|].
  intros j Hj. simpl. eapply Model_save_exists_pk; eassumption.
Qed.

Lemma step_placements_in_cells db db' :
  step db db' -> placements_in_cells db -> placements_in_cells db'.
Proof.
  unfold placements_in_cells.
  intros Hs Hfk. destruct Hs as
    [u db self db' self' H | db self db' self' H | db self db' self' H
     | db self db' self' H | u db self db' self' H | db self db' self' H
     | db self db' H | db self db' H].
  - apply Warehouse_save_Ok in H.
    destruct H as (t & pk & _ & [(_ & ->) | (_ & ->)]); simpl; auto.
    intros l Hl. rewrite exists_pk_app, (Hfk l Hl). reflexivity.
  - apply Corridor_save_Ok in H.
    destruct H as [(_ & _ & ->) | (k & t & _ & _ & -> & _)]; simpl; auto.
    intros l Hl. rewrite exists_pk_app, (Hfk l Hl). reflexivity.
  - apply Cell_save_keys in H. destruct H as [E Hk].
    rewrite E. intros l Hl. apply Hk. auto.
  - apply ProductLocation_save_Ok in H. destruct H as (t & n & -> & Hc & Hin).
    simpl. intros l Hl. destruct (Hin l Hl) as [-> | Hold]; [|auto].
    unfold ProductLocation_constraints in Hc. rewrite !andb_true_iff in Hc. tauto.
  - apply Product_save_Ok in H. destruct H as (t & -> & _). simpl. auto.
  - apply StockMovement_save_Ok in H. destruct H as (t & n & -> & _). simpl. auto.
  - apply create_default_corridors_Ok in H. destruct H as (pk & _ & ->). simpl.
    intros l Hl. rewrite exists_pk_app, (Hfk l Hl). reflexivity.
  - apply create_default_cells_Ok in H. destruct H as (pk & _ & ->). simpl.
    intros l Hl. rewrite exists_pk_app, (Hfk l Hl). reflexivity.
Qed.

Lemma reachable_placements_in_cells db : reachable db -> placements_in_cells db.
Proof.
  induction 1 as [|db db' _ IH Hs].
  - intros l [].
  - eapply step_placements_in_cells; eassumption.
Qed.

Lemma raf_db3_reachable : reachable raf_db3.
Proof.
  apply (reachable_step raf_db2).
  - apply (reachable_step raf_db1).
    + apply (reachable_step empty_db); [apply reachable_empty|].
      apply (step_Warehouse_save 77 empty_db (Warehouse_init 77 1 "Depo" "001" None)
               raf_db1 (Warehouse_saved (Warehouse_init 77 1 "Depo" "001" None))).
      reflexivity.
    + apply (step_Corridor_save raf_db1 (Corridor_init 77 1 "Koridor 1" None)
               raf_db2 (Corridor_set_id 1 (Corridor_init 77 1 "Koridor 1" None))).
      reflexivity.
  - apply (step_Product_save 5 raf_db2 kalem raf_db3 (Product_saved kalem)).
    reflexivity.
Qed.

Lemma raf_db_reachable : reachable raf_db.
Proof.
  apply (reachable_step raf_db3); [apply raf_db3_reachable|].
  apply (step_ProductLocation_save raf_db3 (ProductLocation_init 5 1 (Some 5) None)
           raf_db (ProductLocation_set_id 1 (ProductLocation_init 5 1 (Some 5) None))).
  reflexivity.
Qed.

(** C1, as the claim states it, fails: in [raf_db], reached by saves
    only, cell 1 holds five of the product and its flag is false. *)
Lemma occupied_flag_not_kept :
  exists db c,
    reachable db /\ In c (cells db)
    /\ Cell.is_occupied c = false /\ 0 < placed_quantity db c.
Proof.
  exists raf_db, (Cell.mk (Some 1) 1 1 "Hücre 1" false true false).
  split; [apply raf_db_reachable|]. split; [left; reflexivity|].
  split; reflexivity.
Qed.

(** ** One record for a product, a cell and a batch *)

(** C8.  On [raf_db], where five of product 5 lie in cell 1 with no
    batch number, [ProductLocation.objects.create(product=5, cell=1,
    quantity=3)] returns: a NULL [batch_number] never collides in the
    unique index, and the table then has two records for the same
    product, cell and (absent) batch. *)
Theorem two_records_without_batch :
  exists db' l1 l2,
    ProductLocation_objects_create raf_db 5 1 (Some 3) None = Ok db'
    /\ product_locations db' = [l1; l2]
    /\ ProductLocation.id l1 <> ProductLocation.id l2
    /\ ProductLocation.product l1 = ProductLocation.product l2
    /\ ProductLocation.cell l1 = ProductLocation.cell l2
    /\ ProductLocation.batch_number l1 = None
    /\ ProductLocation.batch_number l2 = None.
Proof.
  do 3 eexists. split; [reflexivity|]. split; [reflexivity|].
  split; [discriminate|]. repeat split.
Qed.

(** With a batch number the index does its work: the second record for
    the same product, cell and batch is refused. *)
Example second_record_with_batch_refused :
  let db1 := commit raf_db3 (ProductLocation_objects_create raf_db3 5 1 (Some 5) (Some "P-7")) in
  List.length (product_locations db1) = 1%nat
  /\ ProductLocation_objects_create db1 5 1 (Some 3) (Some "P-7") = Raise IntegrityError.
Proof. split; reflexivity. Qed.


(** ** Keys and unique columns across a save *)

Section SaveKeepsTable.
Context {R : Type}.
Variable pk : R -> option Z.
Variable set_pk : Z -> R -> R.
Variable check : R -> bool.
Variable collide : R -> R -> bool.
Hypothesis set_pk_pk : forall k r, pk (set_pk k r) = Some k.
Hypothesis collide_sym : forall a b, collide a b = collide b a.

Lemma same_row_sym r s : same_row pk r s = same_row pk s r.
Proof.
  unfold same_row, has_pk. destruct (pk r) as [j|], (pk s) as [k|]; try reflexivity.
  apply Z.eqb_sym.
Qed.

Lemma same_row_refl r : pk r <> None -> same_row pk r r = true.
Proof.
  unfold same_row, has_pk. destruct (pk r) as [j|]; [|congruence].
  intros _. apply Z.eqb_refl.
Qed.

Lemma no_collision_true t self :
  no_collision pk collide t self = true <->
  forall r, In r t -> collide r self = true -> same_row pk r self = true.
Proof.
  unfold no_collision. rewrite negb_true_iff. split.
  - intros H r Hin Hc. destruct (same_row pk r self) eqn:E; [reflexivity|].
    assert (X : existsb (fun r => negb (same_row pk r self) && collide r self) t = true).
    { apply existsb_exists. exists r. rewrite E, Hc. auto. }
    congruence.
  - intros H. destruct (existsb _ t) eqn:E; [|reflexivity].
    apply existsb_exists in E. destruct E as [r [Hin Hr]].
    apply andb_true_iff in Hr. destruct Hr as [Hn Hc].
    rewrite (H r Hin Hc) in Hn. discriminate.
Qed.

Lemma Model_save_pk force t next self t' next' self' :
  Model_save pk set_pk check force t next self = Ok (t', next', self') ->
  exists k, pk self' = Some k /\ In self' t'
    /\ (pk self = None -> k = next)
    /\ (forall j, exists_pk pk t' j = true -> j = k \/ exists_pk pk t j = true).
Proof.
  intros H. apply Model_save_Ok in H.
  destruct H as [_ [(Hn & -> & -> & _ & _) | (k & Hk & -> & _ & [(-> & Hex & _) | (-> & _)])]].
  - exists next. rewrite set_pk_pk. split; [reflexivity|].
    split; [apply in_or_app; right; left; reflexivity|]. split; [reflexivity|].
    intros j Hj. rewrite exists_pk_app in Hj. apply orb_true_iff in Hj.
    destruct Hj as [Hj | Hj]; [right; assumption|]. left.
    unfold exists_pk in Hj. simpl in Hj. rewrite orb_false_r in Hj.
    apply has_pk_iff in Hj. rewrite set_pk_pk in Hj. congruence.
  - exists k. split; [assumption|]. split.
    + unfold exists_pk in Hex. apply existsb_exists in Hex.
      destruct Hex as [x [Hx Hp]]. unfold update. apply in_map_iff.
      exists x. rewrite Hp. auto.
    + split; [congruence|]. intros j Hj.
      rewrite exists_pk_update in Hj by assumption. right; assumption.
  - exists k. split; [assumption|].
    split; [apply in_or_app; right; left; reflexivity|]. split; [congruence|].
    intros j Hj. rewrite exists_pk_app in Hj. apply orb_true_iff in Hj.
    destruct Hj as [Hj | Hj]; [right; assumption|]. left.
    unfold exists_pk in Hj. simpl in Hj. rewrite orb_false_r in Hj.
    apply has_pk_iff in Hj. congruence.
Qed.

Lemma not_exists_pk_not_In t k :
  exists_pk pk t k = false -> ~ In (Some k) (map pk t).
Proof.
  intros H Hin. apply in_map_iff in Hin. destruct Hin as [x [Hx Hin]].
  assert (X : exists_pk pk t k = true).
  { apply existsb_exists. exists x. split; [assumption|]. apply has_pk_iff. assumption. }
  congruence.
Qed.

Lemma map_pk_update t k self :
  pk self = Some k -> map pk (update pk t k self) = map pk t.
Proof.
  intros Hs. unfold update. rewrite map_map. apply map_ext_in. intros x _.
  destruct (has_pk pk k x) eqn:E; [|reflexivity].
  apply has_pk_iff in E. congruence.
Qed.

Lemma NoDup_snoc {A : Type} (l : list A) (x : A) :
  NoDup l -> ~ In x l -> NoDup (l ++ [x]).
Proof.
  intros Hl Hx. apply NoDup_app; [assumption | repeat constructor; intros [] |].
  intros a Ha [<- | []]. contradiction.
Qed.

(** A save leaves the table keyed. *)
Lemma Model_save_keyed force t next self t' next' self' :
  Model_save pk set_pk check force t next self = Ok (t', next', self') ->
  keyed pk t -> keyed pk t'.
Proof.
  intros H [Hnd Hsome].
  pose proof (Model_save_In _ _ _ _ _ _ _ _ _ _ H) as Hin.
  destruct (Model_save_pk _ _ _ _ _ _ _ H) as (k0 & Hk0 & _).
  split.
  - apply Model_save_Ok in H.
    destruct H as [_ [(_ & -> & -> & _ & Hf) | (k & Hk & -> & _ & [(-> & _) | (-> & Hf)])]].
    + rewrite map_app. simpl. rewrite set_pk_pk.
      apply NoDup_snoc; [assumption | apply not_exists_pk_not_In; assumption].
    + rewrite map_pk_update; assumption.
    + rewrite map_app. simpl. rewrite Hk.
      apply NoDup_snoc; [assumption | apply not_exists_pk_not_In; assumption].
  - intros r Hr. destruct (Hin r Hr) as [-> | Hold]; [congruence | auto].
Qed.

(** A save leaves the unique columns without collision, when the
    constraints of the table say so for the instance saved. *)
Lemma Model_save_unique force t next self t' next' self' :
  Model_save pk set_pk check force t next self = Ok (t', next', self') ->
  (forall r, check r = true -> no_collision pk collide t r = true) ->
  (forall r, In r t -> no_collision pk collide t r = true) ->
  forall r, In r t' -> no_collision pk collide t' r = true.
Proof.
  intros H Hc Hold r Hr.
  pose proof (Model_save_In _ _ _ _ _ _ _ _ _ _ H) as Hin.
  destruct (Model_save_pk _ _ _ _ _ _ _ H) as (k0 & Hk0 & _).
  assert (Hs : no_collision pk collide t self' = true).
  { apply Hc. apply Model_save_Ok in H. tauto. }
  rewrite no_collision_true in Hs. apply no_collision_true.
  intros r' Hr' Hcol.
  destruct (Hin r Hr) as [-> | Hr0], (Hin r' Hr') as [-> | Hr0'].
  - apply same_row_refl. congruence.
  - apply Hs; assumption.
  - rewrite same_row_sym. apply Hs; [assumption|]. rewrite collide_sym. assumption.
  - specialize (Hold r Hr0). rewrite no_collision_true in Hold. apply Hold; assumption.
Qed.
End SaveKeepsTable.

(** ** The constraints, table by table *)

Lemma existsb_ext_all {A : Type} (f g : A -> bool) (l : list A) :
  (forall x, f x = g x) -> existsb f l = existsb g l.
Proof. intros H. induction l as [|x l IH]; simpl; [reflexivity|]. rewrite H, IH. reflexivity. Qed.

Lemma sql_eq_sym a b : sql_eq a b = sql_eq b a.
Proof. destruct a, b; simpl; try reflexivity. apply String.eqb_sym. Qed.

Lemma Warehouse_collide_sym a b : Warehouse_collide a b = Warehouse_collide b a.
Proof. unfold Warehouse_collide. rewrite Z.eqb_sym, String.eqb_sym. reflexivity. Qed.

Lemma Corridor_collide_sym a b : Corridor_collide a b = Corridor_collide b a.
Proof.
  unfold Corridor_collide.
  rewrite (Z.eqb_sym (Corridor.warehouse a)), (Z.eqb_sym (Corridor.number a)). reflexivity.
Qed.

Lemma Cell_collide_sym a b : Cell_collide a b = Cell_collide b a.
Proof.
  unfold Cell_collide.
  rewrite (Z.eqb_sym (Cell.corridor a)), (Z.eqb_sym (Cell.number a)). reflexivity.
Qed.

Lemma ProductLocation_collide_sym a b :
  ProductLocation_collide a b = ProductLocation_collide b a.
Proof.
  unfold ProductLocation_collide.
  rewrite (Z.eqb_sym (ProductLocation.product a)), (Z.eqb_sym (ProductLocation.cell a)),
    sql_eq_sym. reflexivity.
Qed.

Lemma Product_collide_sym a b : Product_collide a b = Product_collide b a.
Proof.
  unfold Product_collide.
  rewrite (String.eqb_sym (Product.sku a)), (sql_eq_sym (Product.barcode a)),
    (Z.eqb_sym (Product.brand a)), (String.eqb_sym (Product.slug a)). reflexivity.
Qed.

Lemma Warehouse_constraints_iff db r :
  Warehouse_constraints db r = true <->
  0 <= Warehouse.corridor_count r
  /\ no_collision Warehouse.id Warehouse_collide (warehouses db) r = true.
Proof.
  unfold Warehouse_constraints, no_collision, Warehouse_collide, positive.
  rewrite andb_true_iff, Z.leb_le.
  rewrite (existsb_ext_all _ (fun r0 => negb (same_row Warehouse.id r0 r)
             && ((Warehouse.shop r0 =? Warehouse.shop r)
                 && String.eqb (Warehouse.code r0) (Warehouse.code r))));
    [tauto | intros x; rewrite andb_assoc; reflexivity].
Qed.

Lemma Corridor_constraints_iff db r :
  Corridor_constraints db r = true <->
  (0 <= Corridor.number r /\ 0 <= Corridor.cell_count r)
  /\ exists_pk Warehouse.id (warehouses db) (Corridor.warehouse r) = true
  /\ no_collision Corridor.id Corridor_collide (corridors db) r = true.
Proof.
  unfold Corridor_constraints, no_collision, Corridor_collide, positive.
  rewrite !andb_true_iff, !Z.leb_le.
  rewrite (existsb_ext_all _ (fun r0 => negb (same_row Corridor.id r0 r)
             && ((Corridor.warehouse r0 =? Corridor.warehouse r)
                 && (Corridor.number r0 =? Corridor.number r))));
    [tauto | intros x; rewrite andb_assoc; reflexivity].
Qed.

Lemma Cell_constraints_iff db r :
  Cell_constraints db r = true <->
  0 <= Cell.number r
  /\ exists_pk Corridor.id (corridors db) (Cell.corridor r) = true
  /\ no_collision Cell.id Cell_collide (cells db) r = true.
Proof.
  unfold Cell_constraints, no_collision, Cell_collide, positive.
  rewrite !andb_true_iff, !Z.leb_le.
  rewrite (existsb_ext_all _ (fun r0 => negb (same_row Cell.id r0 r)
             && ((Cell.corridor r0 =? Cell.corridor r)
                 && (Cell.number r0 =? Cell.number r))));
    [tauto | intros x; rewrite andb_assoc; reflexivity].
Qed.

Lemma ProductLocation_constraints_iff db r :
  ProductLocation_constraints db r = true <->
  0 <= ProductLocation.quantity r
  /\ (exists_pk Product.id (products db) (ProductLocation.product r) = true
      /\ exists_pk Cell.id (cells db) (ProductLocation.cell r) = true)
  /\ no_collision ProductLocation.id ProductLocation_collide (product_locations db) r = true.
Proof.
  unfold ProductLocation_constraints, no_collision, ProductLocation_collide, positive.
  rewrite !andb_true_iff, !Z.leb_le.
  rewrite (existsb_ext_all _ (fun r0 => negb (same_row ProductLocation.id r0 r)
             && ((ProductLocation.product r0 =? ProductLocation.product r)
                 && (ProductLocation.cell r0 =? ProductLocation.cell r)
                 && sql_eq (ProductLocation.batch_number r0)
                           (ProductLocation.batch_number r))));
    [tauto | intros x; rewrite !andb_assoc; reflexivity].
Qed.

Lemma Product_constraints_iff db r :
  Product_constraints db r = true <->
  (0 <= Product.stock_quantity r /\ 0 <= Product.min_stock_level r
   /\ 0 <= Product.max_stock_level r)
  /\ no_collision Product.id Product_collide (products db) r = true.
Proof.
  unfold Product_constraints, no_collision, Product_collide, positive.
  rewrite !andb_true_iff, !Z.leb_le. tauto.
Qed.

Lemma StockMovement_constraints_iff db r :
  StockMovement_constraints db r = true <->
  (0 <= StockMovement.previous_stock r /\ 0 <= StockMovement.new_stock r)
  /\ exists_pk Product.id (products db) (StockMovement.product r) = true
  /\ match StockMovement.warehouse_location r with
     | Some c => exists_pk Cell.id (cells db) c = true
     | None => True
     end.
Proof.
  unfold StockMovement_constraints, positive.
  rewrite !andb_true_iff, !Z.leb_le.
  destruct (StockMovement.warehouse_location r); intuition.
Qed.

(** ** Every save keeps the database consistent *)

Lemma Model_save_checked {R : Type} (pk : R -> option Z) set_pk check
      force t next self t' next' self' :
  Model_save pk set_pk check force t next self = Ok (t', next', self') ->
  (forall r, In r t -> check r = true) ->
  forall r, In r t' -> check r = true.
Proof.
  intros H Hold r Hr.
  destruct (Model_save_In _ _ _ _ _ _ _ _ _ _ H r Hr) as [-> | Hin]; [|auto].
  apply Model_save_Ok in H. tauto.
Qed.

Lemma warehouses_save_consistent db force self t next next' self' :
  Model_save Warehouse.id Warehouse_set_id (Warehouse_constraints db) force
             (warehouses db) next self = Ok (t, next', self') ->
  consistent db -> consistent (set_warehouses db t).
Proof.
  intros H C. destruct C.
  pose proof (fun j => Model_save_exists_pk _ _ _ _ _ _ _ _ _ _ j H) as Hk.
  pose proof (Model_save_checked _ _ _ _ _ _ _ _ _ _ H warehouses_checked0) as Hall.
  constructor; simpl; auto.
  - eapply (Model_save_keyed Warehouse.id Warehouse_set_id); [intros; reflexivity | eassumption | assumption].
  - intros r Hr. apply Warehouse_constraints_iff. simpl.
    destruct (proj1 (Warehouse_constraints_iff _ _) (Hall r Hr)) as (Hf & _).
    split; [assumption|].
    eapply (Model_save_unique Warehouse.id Warehouse_set_id _ Warehouse_collide);
      [intros; reflexivity | apply Warehouse_collide_sym | exact H | | | exact Hr].
    + intros x Hx. apply Warehouse_constraints_iff in Hx. tauto.
    + intros x Hx. apply warehouses_checked0 in Hx.
      apply Warehouse_constraints_iff in Hx. tauto.
  - intros r Hr. apply Corridor_constraints_iff. simpl.
    destruct (proj1 (Corridor_constraints_iff _ _) (corridors_checked0 r Hr))
      as (Hf & Hfk & Hu).
    split; [assumption|]. split; [apply Hk; assumption | assumption].
Qed.

Lemma corridors_save_consistent db force self t next self' :
  Model_save Corridor.id Corridor_set_id (Corridor_constraints db) force
             (corridors db) (next_corridor_id db) self = Ok (t, next, self') ->
  consistent db -> consistent (set_corridors db t next).
Proof.
  intros H C. destruct C.
  pose proof (fun j => Model_save_exists_pk _ _ _ _ _ _ _ _ _ _ j H) as Hk.
  pose proof (Model_save_checked _ _ _ _ _ _ _ _ _ _ H corridors_checked0) as Hall.
  constructor; simpl; auto.
  - eapply (Model_save_keyed Corridor.id Corridor_set_id); [intros; reflexivity | eassumption | assumption].
  - intros r Hr. apply Corridor_constraints_iff. simpl.
    destruct (proj1 (Corridor_constraints_iff _ _) (Hall r Hr)) as (Hf & Hfk & _).
    split; [assumption|]. split; [assumption|].
    eapply (Model_save_unique Corridor.id Corridor_set_id _ Corridor_collide);
      [intros; reflexivity | apply Corridor_collide_sym | exact H | | | exact Hr].
    + intros x Hx. apply Corridor_constraints_iff in Hx. tauto.
    + intros x Hx. apply corridors_checked0 in Hx.
      apply Corridor_constraints_iff in Hx. tauto.
  - intros r Hr. apply Cell_constraints_iff. simpl.
    destruct (proj1 (Cell_constraints_iff _ _) (cells_checked0 r Hr)) as (Hf & Hfk & Hu).
    split; [assumption|]. split; [apply Hk; assumption | assumption].
Qed.

Lemma cells_save_consistent db force self t next self' :
  Model_save Cell.id Cell_set_id (Cell_constraints db) force
             (cells db) (next_cell_id db) self = Ok (t, next, self') ->
  consistent db -> consistent (set_cells db t next).
Proof.
  intros H C. destruct C.
  pose proof (fun j => Model_save_exists_pk _ _ _ _ _ _ _ _ _ _ j H) as Hk.
  pose proof (Model_save_checked _ _ _ _ _ _ _ _ _ _ H cells_checked0) as Hall.
  constructor; simpl; auto.
  - eapply (Model_save_keyed Cell.id Cell_set_id); [intros; reflexivity | eassumption | assumption].
  - intros r Hr. apply Cell_constraints_iff. simpl.
    destruct (proj1 (Cell_constraints_iff _ _) (Hall r Hr)) as (Hf & Hfk & _).
    split; [assumption|]. split; [assumption|].
    eapply (Model_save_unique Cell.id Cell_set_id _ Cell_collide);
      [intros; reflexivity | apply Cell_collide_sym | exact H | | | exact Hr].
    + intros x Hx. apply Cell_constraints_iff in Hx. tauto.
    + intros x Hx. apply cells_checked0 in Hx. apply Cell_constraints_iff in Hx. tauto.
  - intros r Hr. apply ProductLocation_constraints_iff. simpl.
    destruct (proj1 (ProductLocation_constraints_iff _ _)
                    (product_locations_checked0 r Hr)) as (Hf & (Hp & Hc) & Hu).
    split; [assumption|]. split; [split; [assumption | apply Hk; assumption] | assumption].
  - intros r Hr. apply StockMovement_constraints_iff. simpl.
    destruct (proj1 (StockMovement_constraints_iff _ _)
                    (stock_movements_checked0 r Hr)) as (Hf & Hp & Hc).
    split; [assumption|]. split; [assumption|].
    destruct (StockMovement.warehouse_location r); [apply Hk; assumption | exact I].
Qed.

Lemma product_locations_save_consistent db force self t next self' :
  Model_save ProductLocation.id ProductLocation_set_id (ProductLocation_constraints db)
             force (product_locations db) (next_product_location_id db) self
  = Ok (t, next, self') ->
  consistent db -> consistent (set_product_locations db t next).
Proof.
  intros H C. destruct C.
  pose proof (Model_save_checked _ _ _ _ _ _ _ _ _ _ H product_locations_checked0) as Hall.
  constructor; simpl; auto.
  - eapply (Model_save_keyed ProductLocation.id ProductLocation_set_id); [intros; reflexivity | eassumption | assumption].
  - intros r Hr. apply ProductLocation_constraints_iff. simpl.
    destruct (proj1 (ProductLocation_constraints_iff _ _) (Hall r Hr)) as (Hf & Hfk & _).
    split; [assumption|]. split; [assumption|].
    eapply (Model_save_unique ProductLocation.id ProductLocation_set_id _ ProductLocation_collide);
      [intros; reflexivity | apply ProductLocation_collide_sym | exact H | | | exact Hr].
    + intros x Hx. apply ProductLocation_constraints_iff in Hx. tauto.
    + intros x Hx. apply product_locations_checked0 in Hx.
      apply ProductLocation_constraints_iff in Hx. tauto.
Qed.

Lemma products_save_consistent db force self t next next' self' :
  Model_save Product.id Product_set_id (Product_constraints db) force
             (products db) next self = Ok (t, next', self') ->
  consistent db -> consistent (set_products db t).
Proof.
  intros H C. destruct C.
  pose proof (fun j => Model_save_exists_pk _ _ _ _ _ _ _ _ _ _ j H) as Hk.
  pose proof (Model_save_checked _ _ _ _ _ _ _ _ _ _ H products_checked0) as Hall.
  constructor; simpl; auto.
  - eapply (Model_save_keyed Product.id Product_set_id); [intros; reflexivity | eassumption | assumption].
  - intros r Hr. apply ProductLocation_constraints_iff. simpl.
    destruct (proj1 (ProductLocation_constraints_iff _ _)
                    (product_locations_checked0 r Hr)) as (Hf & (Hp & Hc) & Hu).
    split; [assumption|]. split; [split; [apply Hk; assumption | assumption] | assumption].
  - intros r Hr. apply Product_constraints_iff. simpl.
    destruct (proj1 (Product_constraints_iff _ _) (Hall r Hr)) as (Hf & _).
    split; [assumption|].
    eapply (Model_save_unique Product.id Product_set_id _ Product_collide);
      [intros; reflexivity | apply Product_collide_sym | exact H | | | exact Hr].
    + intros x Hx. apply Product_constraints_iff in Hx. tauto.
    + intros x Hx. apply products_checked0 in Hx. apply Product_constraints_iff in Hx. tauto.
  - intros r Hr. apply StockMovement_constraints_iff. simpl.
    destruct (proj1 (StockMovement_constraints_iff _ _)
                    (stock_movements_checked0 r Hr)) as (Hf & Hp & Hc).
    split; [assumption|]. split; [apply Hk; assumption | assumption].
Qed.

Lemma stock_movements_save_consistent db force self t next self' :
  Model_save StockMovement.id StockMovement_set_id (StockMovement_constraints db)
             force (stock_movements db) (next_stock_movement_id db) self
  = Ok (t, next, self') ->
  consistent db -> consistent (set_stock_movements db t next).
Proof.
  intros H C. destruct C.
  pose proof (Model_save_checked _ _ _ _ _ _ _ _ _ _ H stock_movements_checked0) as Hall.
  constructor; simpl; auto.
  eapply (Model_save_keyed StockMovement.id StockMovement_set_id); [intros; reflexivity | eassumption | assumption].
Qed.

Lemma for_each_keeps {A : Type} (P : DB -> Prop) (body : DB -> A -> result DB) l :
  (forall db x db', body db x = Ok db' -> P db -> P db') ->
  forall db db', for_each l body db = Ok db' -> P db -> P db'.
Proof.
  intros Hb. induction l as [|x l IH]; simpl; intros db db' H Hp.
  - inversion H; subst. assumption.
  - unfold bind in H. destruct (body db x) as [db1|e] eqn:E; [|discriminate].
    eapply IH; [eassumption|]. eapply Hb; eassumption.
Qed.

Lemma Cell_save_consistent db self db' self' :
  Cell_save db self = Ok (db', self') -> consistent db -> consistent db'.
Proof.
  unfold Cell_save, bind.
  destruct (Model_save _ _ _ _ _ _ _) as [[[t next] s1]|e] eqn:H; [|discriminate].
  intros E; inversion E; subst. eapply cells_save_consistent; eassumption.
Qed.

Lemma Cell_objects_create_consistent db corridor number name db' :
  Cell_objects_create db corridor number name = Ok db' ->
  consistent db -> consistent db'.
Proof.
  unfold Cell_objects_create, bind.
  destruct (Cell_save _ _) as [[db1 s1]|e] eqn:H; [|discriminate].
  intros E; inversion E; subst. eapply Cell_save_consistent; eassumption.
Qed.

Lemma create_default_cells_consistent db self db' :
  create_default_cells db self = Ok db' -> consistent db -> consistent db'.
Proof.
  unfold create_default_cells. destruct (Corridor.id self) as [pk|]; [|discriminate].
  apply for_each_keeps. intros d x d'. apply Cell_objects_create_consistent.
Qed.

Lemma Corridor_save_consistent db self db' self' :
  Corridor_save db self = Ok (db', self') -> consistent db -> consistent db'.
Proof.
  unfold Corridor_save, bind.
  destruct (Model_save _ _ _ _ _ _ _) as [[[t next] s1]|e] eqn:H; [|discriminate].
  intros E C. pose proof (corridors_save_consistent _ _ _ _ _ _ H C) as C1.
  destruct (Corridor.id self).
  - inversion E; subst. assumption.
  - destruct (create_default_cells _ _) as [db2|e] eqn:H2; [|discriminate].
    inversion E; subst. eapply create_default_cells_consistent; eassumption.
Qed.

Lemma create_default_corridors_consistent db self db' :
  create_default_corridors db self = Ok db' -> consistent db -> consistent db'.
Proof.
  unfold create_default_corridors. destruct (Warehouse.id self) as [pk|]; [|discriminate].
  apply for_each_keeps. intros d x d'. unfold Corridor_objects_create, bind.
  destruct (Corridor_save _ _) as [[db1 s1]|e] eqn:H; [|discriminate].
  intros E; inversion E; subst. eapply Corridor_save_consistent; eassumption.
Qed.

Lemma Warehouse_save_consistent uuid4 db self db' self' :
  Warehouse_save uuid4 db self = Ok (db', self') -> consistent db -> consistent db'.
Proof.
  unfold Warehouse_save, Warehouse_base_save, bind.
  destruct (Model_save _ _ _ _ _ _ _) as [[[t next] s1]|e] eqn:H; [|discriminate].
  intros E C. pose proof (warehouses_save_consistent _ _ _ _ _ _ _ H C) as C1.
  destruct (Warehouse.id self).
  - inversion E; subst. assumption.
  - destruct (create_default_corridors _ _) as [db2|e] eqn:H2; [|discriminate].
    inversion E; subst. eapply create_default_corridors_consistent; eassumption.
Qed.

Lemma ProductLocation_save_consistent db self db' self' :
  ProductLocation_save db self = Ok (db', self') -> consistent db -> consistent db'.
Proof.
  unfold ProductLocation_save, bind.
  destruct (Model_save _ _ _ _ _ _ _) as [[[t next] s1]|e] eqn:H; [|discriminate].
  intros E; inversion E; subst. eapply product_locations_save_consistent; eassumption.
Qed.

Lemma Product_save_consistent uuid4 db self db' self' :
  Product_save uuid4 db self = Ok (db', self') -> consistent db -> consistent db'.
Proof.
  unfold Product_save, bind.
  destruct (Model_save _ _ _ _ _ _ _) as [[[t next] s1]|e] eqn:H; [|discriminate].
  intros E; inversion E; subst. eapply products_save_consistent; eassumption.
Qed.

Lemma StockMovement_save_consistent db self db' self' :
  StockMovement_save db self = Ok (db', self') -> consistent db -> consistent db'.
Proof.
  unfold StockMovement_save, bind.
  destruct (Model_save _ _ _ _ _ _ _) as [[[t next] s1]|e] eqn:H; [|discriminate].
  intros E; inversion E; subst. eapply stock_movements_save_consistent; eassumption.
Qed.

Lemma empty_db_consistent : consistent empty_db.
Proof.
  constructor; simpl; try (split; [constructor | intros r []]); intros r [].
Qed.

Lemma step_consistent db db' : step db db' -> consistent db -> consistent db'.
Proof.
  intros Hs. destruct Hs.
  - eapply Warehouse_save_consistent; eassumption.
  - eapply Corridor_save_consistent; eassumption.
  - eapply Cell_save_consistent; eassumption.
  - eapply ProductLocation_save_consistent; eassumption.
  - eapply Product_save_consistent; eassumption.
  - eapply StockMovement_save_consistent; eassumption.
  - eapply create_default_corridors_consistent; eassumption.
  - eapply create_default_cells_consistent; eassumption.
Qed.

Lemma reachable_consistent db : reachable db -> consistent db.
Proof.
  induction 1 as [|db db' _ IH Hs].
  - apply empty_db_consistent.
  - eapply step_consistent; eassumption.
Qed.

(** ** What consistency gives *)

Lemma keyed_inj {R : Type} (pk : R -> option Z) (t : list R) a b :
  keyed pk t -> In a t -> In b t -> pk a = pk b -> a = b.
Proof.
  intros [Hnd _]. induction t as [|x t IH]; simpl; [contradiction|].
  inversion Hnd as [|? ? Hx Hnd']; subst.
  intros [<- | Ha] [<- | Hb] E; auto.
  - exfalso. apply Hx. rewrite E. apply in_map. assumption.
  - exfalso. apply Hx. rewrite <- E. apply in_map. assumption.
Qed.

Lemma no_collision_same {R : Type} (pk : R -> option Z) collide (t : list R) a b :
  keyed pk t -> In a t -> In b t ->
  no_collision pk collide t b = true -> collide a b = true -> a = b.
Proof.
  intros Hk Ha Hb Hn Hc.
  assert (Hs : same_row pk a b = true).
  { unfold no_collision in Hn. apply negb_true_iff in Hn.
    destruct (same_row pk a b) eqn:E; [reflexivity|].
    assert (X : existsb (fun r => negb (same_row pk r b) && collide r b) t = true).
    { apply existsb_exists. exists a. rewrite E, Hc. auto. }
    congruence. }
  apply same_row_true in Hs. destruct Hs as (k & H1 & H2).
  eapply keyed_inj; eauto. congruence.
Qed.

(** X1.  In every database the saves can reach, a warehouse has at
    most one corridor of a given number and a corridor has at most one
    cell of a given number. *)
Theorem numbers_unique_in_parent db :
  reachable db ->
  (forall a b, In a (corridors db) -> In b (corridors db) ->
     Corridor.warehouse a = Corridor.warehouse b ->
     Corridor.number a = Corridor.number b -> a = b)
  /\ (forall a b, In a (cells db) -> In b (cells db) ->
        Cell.corridor a = Cell.corridor b ->
        Cell.number a = Cell.number b -> a = b).
Proof.
  intros Hr. apply reachable_consistent in Hr. destruct Hr. split.
  - intros a b Ha Hb Hw Hn.
    apply (no_collision_same Corridor.id Corridor_collide (corridors db)); auto.
    + specialize (corridors_checked0 b Hb).
      apply Corridor_constraints_iff in corridors_checked0. tauto.
    + unfold Corridor_collide. rewrite Hw, Hn, !Z.eqb_refl. reflexivity.
  - intros a b Ha Hb Hw Hn.
    apply (no_collision_same Cell.id Cell_collide (cells db)); auto.
    + specialize (cells_checked0 b Hb). apply Cell_constraints_iff in cells_checked0. tauto.
    + unfold Cell_collide. rewrite Hw, Hn, !Z.eqb_refl. reflexivity.
Qed.

Lemma raf_db2_reachable : reachable raf_db2.
Proof.
  apply (reachable_step raf_db1).
  - apply (reachable_step empty_db); [apply reachable_empty|].
    apply (step_Warehouse_save 77 empty_db (Warehouse_init 77 1 "Depo" "001" None)
             raf_db1 (Warehouse_saved (Warehouse_init 77 1 "Depo" "001" None))).
    reflexivity.
  - apply (step_Corridor_save raf_db1 (Corridor_init 77 1 "Koridor 1" None)
             raf_db2 (Corridor_set_id 1 (Corridor_init 77 1 "Koridor 1" None))).
    reflexivity.
Qed.

Lemma numbers_unique_in_parent_witness :
  reachable raf_db2
  /\ (forall a b, In a (cells raf_db2) -> In b (cells raf_db2) ->
        Cell.corridor a = Cell.corridor b -> Cell.number a = Cell.number b -> a = b).
Proof.
  split; [apply raf_db2_reachable|].
  apply (numbers_unique_in_parent raf_db2). apply raf_db2_reachable.
Defined.

(** X2.  In every database the saves can reach, a product, a cell and
    a batch number that is not NULL have at most one placement record. *)
Theorem one_record_per_batch db :
  reachable db ->
  forall a b batch,
    In a (product_locations db) -> In b (product_locations db) ->
    ProductLocation.product a = ProductLocation.product b ->
    ProductLocation.cell a = ProductLocation.cell b ->
    ProductLocation.batch_number a = Some batch ->
    ProductLocation.batch_number b = Some batch ->
    a = b.
Proof.
  intros Hr a b batch Ha Hb Hp Hc Hba Hbb.
  apply reachable_consistent in Hr. destruct Hr.
  apply (no_collision_same ProductLocation.id ProductLocation_collide
                           (product_locations db)); auto.
  - specialize (product_locations_checked0 b Hb).
    apply ProductLocation_constraints_iff in product_locations_checked0. tauto.
  - unfold ProductLocation_collide. rewrite Hp, Hc, Hba, Hbb, !Z.eqb_refl.
    simpl. apply String.eqb_refl.
Qed.

Lemma raf_batch_db_reachable : reachable raf_batch_db.
Proof.
  apply (reachable_step raf_db3); [apply raf_db3_reachable|].
  apply (step_ProductLocation_save raf_db3
           (ProductLocation_init 5 1 (Some 5) (Some "P-7")) raf_batch_db
           (ProductLocation_set_id 1 (ProductLocation_init 5 1 (Some 5) (Some "P-7")))).
  reflexivity.
Qed.

Lemma one_record_per_batch_witness :
  reachable raf_batch_db
  /\ (forall a b batch,
        In a (product_locations raf_batch_db) -> In b (product_locations raf_batch_db) ->
        ProductLocation.product a = ProductLocation.product b ->
        ProductLocation.cell a = ProductLocation.cell b ->
        ProductLocation.batch_number a = Some batch ->
        ProductLocation.batch_number b = Some batch ->
        a = b).
Proof.
  split; [apply raf_batch_db_reachable|].
  apply (one_record_per_batch raf_batch_db). apply raf_batch_db_reachable.
Defined.

(** X3.  In every database the saves can reach, a shop has at most one
    warehouse of a given code, and no two products share a SKU, a
    barcode that is not NULL, or a slug within one brand. *)
Theorem codes_unique db :
  reachable db ->
  (forall a b, In a (warehouses db) -> In b (warehouses db) ->
     Warehouse.shop a = Warehouse.shop b -> Warehouse.code a = Warehouse.code b -> a = b)
  /\ (forall a b, In a (products db) -> In b (products db) ->
        Product.sku a = Product.sku b
        \/ (exists s, Product.barcode a = Some s /\ Product.barcode b = Some s)
        \/ (Product.brand a = Product.brand b /\ Product.slug a = Product.slug b) ->
        a = b).
Proof.
  intros Hr. apply reachable_consistent in Hr. destruct Hr. split.
  - intros a b Ha Hb Hs Hc.
    apply (no_collision_same Warehouse.id Warehouse_collide (warehouses db)); auto.
    + specialize (warehouses_checked0 b Hb).
      apply Warehouse_constraints_iff in warehouses_checked0. tauto.
    + unfold Warehouse_collide. rewrite Hs, Hc, Z.eqb_refl, String.eqb_refl. reflexivity.
  - intros a b Ha Hb H.
    apply (no_collision_same Product.id Product_collide (products db)); auto.
    + specialize (products_checked0 b Hb).
      apply Product_constraints_iff in products_checked0. tauto.
    + unfold Product_collide. destruct H as [E | [(s & E1 & E2) | (E1 & E2)]].
      * rewrite E, String.eqb_refl. reflexivity.
      * rewrite E1, E2. simpl. rewrite String.eqb_refl, orb_true_r. reflexivity.
      * rewrite E1, E2, Z.eqb_refl, String.eqb_refl. rewrite !orb_true_r. reflexivity.
Qed.

Lemma codes_unique_witness :
  reachable raf_db
  /\ (forall a b, In a (products raf_db) -> In b (products raf_db) ->
        Product.sku a = Product.sku b
        \/ (exists s, Product.barcode a = Some s /\ Product.barcode b = Some s)
        \/ (Product.brand a = Product.brand b /\ Product.slug a = Product.slug b) ->
        a = b).
Proof.
  split; [apply raf_db_reachable|].
  apply (codes_unique raf_db). apply raf_db_reachable.
Defined.

(** X4.  In every database the saves can reach, the corridor and the
    warehouse of every stored cell are stored: [location_code] and
    [full_location] return a string for every stored cell and never
    raise. *)
Theorem location_of_stored_cell db :
  reachable db ->
  forall c, In c (cells db) ->
    exists code path, location_code db c = Ok code /\ full_location db c = Ok path.
Proof.
  intros Hr c Hc. apply reachable_consistent in Hr. destruct Hr.
  destruct (proj1 (Cell_constraints_iff _ _) (cells_checked0 c Hc)) as (_ & Hfk & _).
  destruct (exists_pk_related _ _ _ Hfk) as [co Hco].
  destruct (related_Ok _ _ _ _ Hco) as [Hin _].
  destruct (proj1 (Corridor_constraints_iff _ _) (corridors_checked0 co Hin))
    as (_ & Hfw & _).
  destruct (exists_pk_related _ _ _ Hfw) as [w Hw].
  unfold location_code, full_location. rewrite Hco. simpl. rewrite Hw. simpl.
  eauto.
Qed.

Lemma location_of_stored_cell_witness :
  reachable raf_db
  /\ (forall c, In c (cells raf_db) ->
        exists code path,
          location_code raf_db c = Ok code /\ full_location raf_db c = Ok path).
Proof.
  split; [apply raf_db_reachable|].
  apply (location_of_stored_cell raf_db). apply raf_db_reachable.
Defined.

(** ** Counting cells *)

Lemma filter_partition_length {A : Type} (f : A -> bool) (l : list A) :
  (List.length (filter f l) + List.length (filter (fun x => negb (f x)) l))%nat
  = List.length l.
Proof.
  induction l as [|x l IH]; simpl; [reflexivity|].
  destruct (f x); simpl; lia.
Qed.

Lemma filter_length_le {A : Type} (f : A -> bool) (l : list A) :
  (List.length (filter f l) <= List.length l)%nat.
Proof. induction l as [|x l IH]; simpl; [lia|]. destruct (f x); simpl; lia. Qed.

(** X5.  The occupied and the available cells of a corridor add up to
    its cells. *)
Theorem occupied_plus_available (db : DB) (c : Corridor.t) :
  Corridor_occupied_cells db c + Corridor_available_cells db c
  = count (Corridor_cells db c).
Proof.
  unfold Corridor_occupied_cells, Corridor_available_cells, count.
  rewrite <- Nat2Z.inj_add, filter_partition_length. reflexivity.
Qed.

Lemma Corridor_occupied_bounds db c :
  0 <= Corridor_occupied_cells db c <= count (Corridor_cells db c).
Proof.
  unfold Corridor_occupied_cells, count.
  pose proof (filter_length_le Cell.is_occupied (Corridor_cells db c)). lia.
Qed.

(** X6.  A corridor never has more occupied cells than cells, and
    neither has a warehouse: the counts the rates divide are between 0
    and the total. *)
Theorem occupied_at_most_total (db : DB) :
  (forall c, 0 <= Corridor_occupied_cells db c <= count (Corridor_cells db c))
  /\ (forall w, 0 <= Warehouse_occupied_cells db w <= Warehouse_total_cells db w).
Proof.
  split; [apply Corridor_occupied_bounds|].
  intros w. unfold Warehouse_occupied_cells, Warehouse_total_cells.
  induction (Warehouse_corridors db w) as [|c l IH]; simpl; [lia|].
  pose proof (Corridor_occupied_bounds db c). lia.
Qed.

(** ** A new corridor *)

Lemma Corridor_save_new db self db' self' :
  Corridor.id self = None ->
  Corridor_save db self = Ok (db', self') ->
  let k := next_corridor_id db in
  let l := py_range 1 (Corridor.cell_count self + 1) in
  self' = Corridor_set_id k self
  /\ exists_pk Corridor.id (corridors db) k = false
  /\ Corridor_constraints db self' = true
  /\ db' = appended db [self'] 1 (default_cells k (next_cell_id db) l)
                    (Z.of_nat (List.length l)).
Proof.
  intros Hid H. pose proof H as H0. apply Corridor_save_Ok in H0.
  destruct H0 as [(_ & Hs & Hdb) | (k & t & Hk & _)]; [|congruence].
  unfold Corridor_save, bind in H.
  destruct (Model_save _ _ _ _ _ _ _) as [[[t next] s1]|e] eqn:Hm; [|discriminate].
  apply Model_save_Ok in Hm.
  destruct Hm as [Hc [(_ & -> & _ & _ & Hf) | (k & Hk & _)]]; [|congruence].
  subst self'. repeat split; assumption.
Qed.

Lemma filter_none {A : Type} (f : A -> bool) (l : list A) :
  (forall x, In x l -> f x = false) -> filter f l = [].
Proof.
  induction l as [|x l IH]; simpl; intros H; [reflexivity|].
  rewrite (H x) by auto. apply IH. auto.
Qed.

Lemma filter_all {A : Type} (f : A -> bool) (l : list A) :
  (forall x, In x l -> f x = true) -> filter f l = l.
Proof.
  induction l as [|x l IH]; simpl; intros H; [reflexivity|].
  rewrite (H x) by auto. f_equal. apply IH. auto.
Qed.

(** The cells of a corridor that was just inserted are the ones its
    fan-out made. *)
Lemma Corridor_cells_new db self db' self' :
  consistent db ->
  Corridor.id self = None ->
  Corridor_save db self = Ok (db', self') ->
  Corridor_cells db' self'
  = default_cells (next_corridor_id db) (next_cell_id db)
                  (py_range 1 (Corridor.cell_count self + 1)).
Proof.
  intros C Hid H. destruct (Corridor_save_new _ _ _ _ Hid H) as (-> & Hf & _ & ->).
  unfold Corridor_cells. simpl. rewrite filter_app.
  rewrite filter_none, filter_all; [reflexivity | |].
  - intros c Hc. apply default_cells_In in Hc. destruct Hc as (-> & _).
    apply Z.eqb_refl.
  - intros c Hc. destruct C.
    destruct (proj1 (Cell_constraints_iff _ _) (cells_checked0 c Hc)) as (_ & Hfk & _).
    destruct (Cell.corridor c =? next_corridor_id db) eqn:E; [|reflexivity].
    apply Z.eqb_eq in E. rewrite E in Hfk. congruence.
Qed.

(** X7.  [Corridor.save] in a database the saves can reach.  A corridor
    saved with no key yet ([pk] is [None], the automatic key) has
    afterwards exactly the cells numbered 1 to its [cell_count], every
    one of them free: no occupied cell, [cell_count] available ones.  A
    corridor saved under a key given by the caller, stored before or
    not, gets no cell: [is_new] is false and the cells are as they were. *)
Theorem new_corridor_cells db self db' self' :
  reachable db ->
  Corridor_save db self = Ok (db', self') ->
  (Corridor.id self = None ->
   map Cell.number (Corridor_cells db' self') = py_range 1 (Corridor.cell_count self + 1)
   /\ Corridor_occupied_cells db' self' = 0
   /\ Corridor_available_cells db' self' = Corridor.cell_count self)
  /\ (Corridor.id self <> None -> cells db' = cells db).
Proof.
  intros Hr H. split.
  - intros Hid. apply reachable_consistent in Hr.
    pose proof (Corridor_cells_new _ _ _ _ Hr Hid H) as Hcells.
    destruct (Corridor_save_new _ _ _ _ Hid H) as (Hs & _ & Hc & _).
    apply Corridor_constraints_iff in Hc. destruct Hc as ((_ & Hcc) & _).
    rewrite Hs in Hcc. simpl in Hcc.
    unfold Corridor_occupied_cells, Corridor_available_cells. rewrite Hcells.
    split; [apply default_cells_numbers|].
    rewrite filter_none, filter_all.
    + split; [reflexivity|]. unfold count.
      rewrite default_cells_length, py_range_length. lia.
    + intros c Hc. apply default_cells_In in Hc. destruct Hc as (_ & -> & _). reflexivity.
    + intros c Hc. apply default_cells_In in Hc. destruct Hc as (_ & -> & _). reflexivity.
  - intros Hid. apply Corridor_save_Ok in H.
    destruct H as [(Hn & _) | (k & t & _ & _ & -> & _)]; [contradiction|reflexivity].
Qed.

Lemma new_corridor_cells_witness :
  Corridor_save raf_db1 koridor1 = Ok (raf_db2, Corridor_set_id 1 koridor1)
  /\ (map Cell.number (Corridor_cells raf_db2 (Corridor_set_id 1 koridor1))
      = py_range 1 (Corridor.cell_count koridor1 + 1)
      /\ Corridor_occupied_cells raf_db2 (Corridor_set_id 1 koridor1) = 0
      /\ Corridor_available_cells raf_db2 (Corridor_set_id 1 koridor1)
         = Corridor.cell_count koridor1)
  /\ Corridor_save raf_db1 (Corridor_set_id 5 koridor1)
     = Ok (koridor5_db, Corridor_set_id 5 koridor1)
  /\ cells koridor5_db = cells raf_db1.
Proof.
  assert (R : reachable raf_db1).
  { apply (reachable_step empty_db); [apply reachable_empty|].
    apply (step_Warehouse_save 77 empty_db (Warehouse_init 77 1 "Depo" "001" None)
             raf_db1 (Warehouse_saved (Warehouse_init 77 1 "Depo" "001" None))).
    reflexivity. }
  split; [reflexivity|]. split; [|split; [reflexivity|]].
  - apply (new_corridor_cells raf_db1 koridor1 raf_db2 (Corridor_set_id 1 koridor1));
      [exact R | reflexivity | reflexivity].
  - apply (new_corridor_cells raf_db1 (Corridor_set_id 5 koridor1) koridor5_db
                              (Corridor_set_id 5 koridor1));
      [exact R | reflexivity | discriminate].
Defined.

(** ** When a create is refused *)

Lemma exists_pk_false_has_pk {R : Type} (pk : R -> option Z) t k r :
  exists_pk pk t k = false -> In r t -> has_pk pk k r = false.
Proof.
  intros H Hin. destruct (has_pk pk k r) eqn:E; [|reflexivity].
  assert (X : exists_pk pk t k = true) by (apply existsb_exists; eauto).
  congruence.
Qed.

Lemma existsb_ext_in {A : Type} (f g : A -> bool) (l : list A) :
  (forall x, In x l -> f x = g x) -> existsb f l = existsb g l.
Proof.
  induction l as [|x l IH]; simpl; intros H; [reflexivity|].
  rewrite (H x) by auto. rewrite IH by auto. reflexivity.
Qed.

Lemma Cell_objects_create_eq (db : DB) (corridor number : Z) (name : string) :
  Cell_objects_create db corridor number name
  = if (0 <=? number)
       && exists_pk Corridor.id (corridors db) corridor
       && negb (existsb (fun r => (Cell.corridor r =? corridor)
                                  && (Cell.number r =? number)) (cells db))
       && negb (exists_pk Cell.id (cells db) (next_cell_id db))
    then Ok (set_cells db
               (cells db ++ [Cell.mk (Some (next_cell_id db)) corridor number name
                                     false true false])
               (next_cell_id db + 1))
    else Raise IntegrityError.
Proof.
  unfold Cell_objects_create, Cell_save, Model_save, bind. simpl.
  destruct (exists_pk Cell.id (cells db) (next_cell_id db)) eqn:Hf; simpl.
  - rewrite andb_false_r. reflexivity.
  - rewrite andb_true_r. unfold Cell_constraints, positive. simpl.
    rewrite (existsb_ext_in _ (fun r => (Cell.corridor r =? corridor)
                                        && (Cell.number r =? number))).
    + destruct ((0 <=? number) && exists_pk Corridor.id (corridors db) corridor
                && negb (existsb _ (cells db))); reflexivity.
    + intros r Hr. unfold same_row. simpl.
      rewrite (exists_pk_false_has_pk _ _ _ _ Hf Hr). reflexivity.
Qed.

Lemma py_range_from_1 n : 1 <= n -> exists l, py_range 1 (n + 1) = 1 :: l.
Proof.
  intros H. unfold py_range. replace (n + 1 - 1) with n by lia.
  destruct (Z.to_nat n) as [|m] eqn:E; [lia|]. simpl. eauto.
Qed.

Lemma Corridor_objects_create_taken db w i name co :
  In co (corridors db) -> Corridor.warehouse co = w -> Corridor.number co = i ->
  Corridor_objects_create db w i name None = Raise IntegrityError.
Proof.
  intros Hin Hw Hn.
  unfold Corridor_objects_create, Corridor_save, Model_save, bind. simpl.
  destruct (exists_pk Corridor.id (corridors db) (next_corridor_id db)) eqn:Hf; simpl;
    [reflexivity|].
  assert (Hc : Corridor_constraints db
                 (Corridor_set_id (next_corridor_id db) (Corridor_init w i name None))
               = false).
  { unfold Corridor_constraints. simpl.
    assert (X : existsb (fun r => negb (same_row Corridor.id r
                    (Corridor_set_id (next_corridor_id db) (Corridor_init w i name None)))
                  && (Corridor.warehouse r =? w) && (Corridor.number r =? i))
                  (corridors db) = true).
    { apply existsb_exists. exists co. split; [assumption|].
      unfold same_row. simpl. rewrite (exists_pk_false_has_pk _ _ _ _ Hf Hin).
      rewrite Hw, Hn, !Z.eqb_refl. reflexivity. }
    rewrite X. apply andb_false_r. }
  rewrite Hc. reflexivity.
Qed.

(** X9.  The fan-out of a warehouse cannot run twice: after a save
    that made the corridors of a warehouse (one at least),
    [create_default_corridors] on the same warehouse raises
    [IntegrityError], corridor 1 being there already. *)
Theorem create_default_corridors_twice uuid4 db self db' self' :
  Warehouse.id self = None ->
  1 <= Warehouse.corridor_count self ->
  Warehouse_save uuid4 db self = Ok (db', self') ->
  create_default_corridors db' self' = Raise IntegrityError.
Proof.
  intros Hid Hn H.
  assert (Hcc : Warehouse.corridor_count self' = Warehouse.corridor_count self).
  { unfold Warehouse_save, bind in H.
    destruct (Warehouse_base_save uuid4 db self) as [[db1 s1]|e] eqn:Hb; [|discriminate].
    apply Warehouse_base_save_Ok in Hb. destruct Hb as (t & k & _ & _ & Hcc & _).
    rewrite Hid in H.
    destruct (create_default_corridors db1 s1); [|discriminate].
    inversion H; subst. assumption. }
  apply Warehouse_save_Ok in H.
  destruct H as (t & pk & Hpk & [(Hx & _) | (_ & Hdb)]); [congruence|].
  destruct (py_range_from_1 _ Hn) as [l Hl]. rewrite Hl in Hdb. simpl in Hdb.
  unfold create_default_corridors. rewrite Hpk, Hcc, Hl. simpl. unfold bind.
  rewrite (Corridor_objects_create_taken db' pk 1 _
             (Corridor.mk (Some (next_corridor_id db)) pk 1
                          ("Koridor " ++ format_d 1)%string 10 true)).
  - reflexivity.
  - subst db'. unfold appended. simpl. apply in_or_app. right. left. reflexivity.
  - reflexivity.
  - reflexivity.
Qed.

Lemma create_default_corridors_twice_witness :
  Warehouse_save 77 empty_db depo_yeni
  = Ok (depo_db, Warehouse_saved (Warehouse_set_id 77 depo_yeni))
  /\ create_default_corridors depo_db (Warehouse_saved (Warehouse_set_id 77 depo_yeni))
     = Raise IntegrityError.
Proof.
  split; [reflexivity|].
  apply (create_default_corridors_twice 77 empty_db depo_yeni depo_db
           (Warehouse_saved (Warehouse_set_id 77 depo_yeni))).
  - reflexivity.
  - simpl. lia.
  - reflexivity.
Defined.

(** ** Stock status *)

(** X10.  For a product that passes the constraints of its table, the
    status is "Stokta Var" exactly when the product is not low on
    stock, "Stokta Yok" exactly when the quantity is 0, and a product
    out of stock always counts as low on stock. *)
Theorem stock_status_and_low_stock db p :
  Product_constraints db p = true ->
  (stock_status p = Stokta_Var <-> is_low_stock p = false)
  /\ (stock_status p = Stokta_Yok <-> Product.stock_quantity p = 0)
  /\ (stock_status p = Dusuk_Stok <->
      0 < Product.stock_quantity p <= Product.min_stock_level p)
  /\ (Product.stock_quantity p = 0 -> is_low_stock p = true).
Proof.
  intros H. apply Product_constraints_iff in H. destruct H as ((Hq & Hmin & _) & _).
  unfold stock_status, is_low_stock.
  destruct (Z.eqb_spec (Product.stock_quantity p) 0) as [E0 | E0];
    destruct (Z.leb_spec (Product.stock_quantity p) (Product.min_stock_level p))
      as [E1 | E1];
    repeat split; intros; try discriminate; try reflexivity; try lia.
Qed.

Lemma stock_status_and_low_stock_witness :
  (stock_status kalem = Stokta_Var <-> is_low_stock kalem = false)
  /\ (stock_status kalem = Stokta_Yok <-> Product.stock_quantity kalem = 0)
  /\ (stock_status kalem = Dusuk_Stok <->
      0 < Product.stock_quantity kalem <= Product.min_stock_level kalem)
  /\ (Product.stock_quantity kalem = 0 -> is_low_stock kalem = true).
Proof.
  apply (stock_status_and_low_stock empty_db kalem). reflexivity.
Defined.

(** ** Changing a quantity *)

Lemma update_keeps_others {R : Type} (pk : R -> option Z) (t : list R) k self r :
  In r t -> pk r <> Some k -> In r (update pk t k self).
Proof.
  intros Hin Hk. unfold update. apply in_map_iff. exists r.
  split; [|assumption].
  destruct (has_pk pk k r) eqn:E; [|reflexivity].
  apply has_pk_iff in E. congruence.
Qed.

Lemma In_exists_pk {R : Type} (pk : R -> option Z) (t : list R) r k :
  In r t -> pk r = Some k -> exists_pk pk t k = true.
Proof.
  intros Hin Hk. apply existsb_exists. exists r. split; [assumption|].
  apply has_pk_iff. assumption.
Qed.

(** X11.  In a database the saves can reach, saving a stored placement
    with another quantity between 0 and 2147483647 returns, and changes
    that record where it stands: the table keeps its length, the other
    records are still there, and no other table changes.  With a
    quantity between -2147483648 and -1 the save raises
    [IntegrityError]. *)
Theorem quantity_change_in_place db l q :
  reachable db ->
  In l (product_locations db) ->
  (0 <= q <= PositiveIntegerField_max ->
   exists db',
     ProductLocation_save db (ProductLocation_with_quantity q l)
     = Ok (db', ProductLocation_with_quantity q l)
     /\ List.length (product_locations db') = List.length (product_locations db)
     /\ In (ProductLocation_with_quantity q l) (product_locations db')
     /\ (forall r, In r (product_locations db) -> r <> l ->
                   In r (product_locations db'))
     /\ cells db' = cells db /\ products db' = products db
     /\ stock_movements db' = stock_movements db)
  /\ (IntegerField_min <= q < 0 ->
      ProductLocation_save db (ProductLocation_with_quantity q l)
      = Raise IntegrityError).
Proof.
  intros Hr Hin. apply reachable_consistent in Hr. destruct Hr.
  pose proof product_locations_keyed0 as Hkeyed.
  destruct product_locations_keyed0 as [_ Hsome].
  destruct (ProductLocation.id l) as [k|] eqn:Hk; [|exfalso; eapply Hsome; eauto].
  pose proof (In_exists_pk _ _ _ _ Hin Hk) as Hex.
  destruct (proj1 (ProductLocation_constraints_iff _ _)
                  (product_locations_checked0 l Hin)) as (_ & Hfk & Hu).
  split.
  - intros [Hq _].
    assert (Hc : ProductLocation_constraints db (ProductLocation_with_quantity q l) = true).
    { apply ProductLocation_constraints_iff. simpl. split; [assumption|].
      split; [assumption|]. exact Hu. }
    eexists. unfold ProductLocation_save, Model_save, bind. simpl.
    rewrite Hk, Hex, Hc. simpl. split; [reflexivity|]. simpl.
    split; [apply update_length|]. split.
    + unfold update. apply in_map_iff. exists l. split; [|assumption].
      rewrite (proj2 (has_pk_iff _ _ _) Hk). reflexivity.
    + split; [|auto]. intros r Hrin Hne. apply update_keeps_others; [assumption|].
      intros E. apply Hne. eapply keyed_inj; eauto. congruence.
  - intros [_ Hq].
    assert (Hc : ProductLocation_constraints db (ProductLocation_with_quantity q l) = false).
    { unfold ProductLocation_constraints, positive. simpl.
      rewrite (proj2 (Z.leb_gt 0 q) Hq). reflexivity. }
    unfold ProductLocation_save, Model_save, bind. simpl.
    rewrite Hk, Hex, Hc. reflexivity.
Qed.

Lemma quantity_change_in_place_witness :
  In raf_kayit (product_locations raf_db)
  /\ 0 <= 2 <= PositiveIntegerField_max
  /\ (exists db',
        ProductLocation_save raf_db (ProductLocation_with_quantity 2 raf_kayit)
        = Ok (db', ProductLocation_with_quantity 2 raf_kayit)
        /\ List.length (product_locations db') = List.length (product_locations raf_db))
  /\ IntegerField_min <= -3 < 0
  /\ ProductLocation_save raf_db (ProductLocation_with_quantity (-3) raf_kayit)
     = Raise IntegrityError.
Proof.
  split; [left; reflexivity|]. split; [vm_compute; split; discriminate|].
  split.
  - destruct (quantity_change_in_place raf_db raf_kayit 2 raf_db_reachable) as [H _];
      [left; reflexivity|].
    destruct H as (db' & H1 & H2 & _); [vm_compute; split; discriminate|].
    exists db'. split; assumption.
  - split; [vm_compute; split; [discriminate | reflexivity]|].
    destruct (quantity_change_in_place raf_db raf_kayit (-3) raf_db_reachable) as [_ H];
      [left; reflexivity|].
    apply H. vm_compute. split; [discriminate | reflexivity].
Defined.

(** ** The slug loop of [ProductForm.save] *)

Lemma string_app_nil_inv (s t : string) : (s = s ++ t)%string -> t = ""%string.
Proof.
  intros H. apply (f_equal String.length) in H. rewrite string_length_app in H.
  destruct t; [reflexivity|]. simpl in H. lia.
Qed.

Lemma candidate_inj o i j : candidate o i = candidate o j -> i = j.
Proof.
  destruct i as [|i], j as [|j]; unfold candidate; intros H.
  - reflexivity.
  - apply string_app_nil_inv in H. discriminate.
  - symmetry in H. apply string_app_nil_inv in H. discriminate.
  - apply string_app_inv_head in H. inversion H as [E].
    apply format_0d_inj in E; lia.
Qed.

Lemma NoDup_map_inj {A B : Type} (f : A -> B) (l : list A) :
  (forall x y, f x = f y -> x = y) -> NoDup l -> NoDup (map f l).
Proof.
  intros Hf. induction 1 as [|x l Hx Hl IH]; simpl; constructor; [|assumption].
  intros Hin. apply in_map_iff in Hin. destruct Hin as [y [E Hy]].
  apply Hf in E. subst. contradiction.
Qed.

Lemma slug_taken_In db product slug :
  slug_taken db product slug = true -> In slug (map Product.slug (products db)).
Proof.
  unfold slug_taken. intros H. apply existsb_exists in H.
  destruct H as [r [Hin Hr]]. rewrite !andb_true_iff in Hr.
  destruct Hr as [[Hs _] _]. apply String.eqb_eq in Hs. subst.
  apply in_map. assumption.
Qed.

(** There are more candidates than products: one of the first is free. *)
Lemma candidates_not_all_taken db product o :
  ~ (forall i, (i < S (List.length (products db)))%nat ->
               slug_taken db product (candidate o i) = true).
Proof.
  intros H.
  set (n := List.length (products db)) in *.
  assert (Hnd : NoDup (map (candidate o) (seq 0 (S n)))).
  { apply NoDup_map_inj; [apply candidate_inj | apply seq_NoDup]. }
  assert (Hincl : incl (map (candidate o) (seq 0 (S n)))
                       (map Product.slug (products db))).
  { intros s Hs. apply in_map_iff in Hs. destruct Hs as [i [<- Hi]].
    apply in_seq in Hi. apply (slug_taken_In db product). apply H. lia. }
  pose proof (NoDup_incl_length Hnd Hincl) as Hlen.
  rewrite !length_map, length_seq in Hlen. unfold n in Hlen. lia.
Qed.

Lemma unique_slug_loop_finds db product o : forall fuel j,
  (fuel + j = S (List.length (products db)))%nat ->
  (forall i, (i < j)%nat -> slug_taken db product (candidate o i) = true) ->
  exists k,
    unique_slug_loop fuel (slug_taken db product) o (candidate o j) (Z.of_nat j + 1)
    = Some (candidate o k)
    /\ slug_taken db product (candidate o k) = false
    /\ forall i, (i < k)%nat -> slug_taken db product (candidate o i) = true.
Proof.
  induction fuel as [|fuel IH]; intros j Hj Hall.
  - exfalso. apply (candidates_not_all_taken db product o).
    intros i Hi. apply Hall. lia.
  - cbn [unique_slug_loop].
    destruct (slug_taken db product (candidate o j)) eqn:E.
    + replace (o ++ "-" ++ format_d (Z.of_nat j + 1))%string with (candidate o (S j))
        by (unfold candidate; rewrite Nat2Z.inj_succ; reflexivity).
      replace (Z.of_nat j + 1 + 1) with (Z.of_nat (S j) + 1) by lia.
      apply IH; [lia|]. intros i Hi.
      destruct (Nat.eq_dec i j) as [-> | Hne]; [assumption | apply Hall; lia].
    + exists j. repeat split; assumption.
Qed.

(** X12.  The [while] loop of [ProductForm.save] ends: within one round
    more than there are products it returns the first of [slug],
    [slug-1], [slug-2], ... that no other product of the brand has. *)
Theorem unique_slug_loop_ends (db : DB) (product : Product.t) (slug : string) :
  exists k,
    unique_slug_loop (S (List.length (products db))) (slug_taken db product)
                     slug slug 1
    = Some (candidate slug k)
    /\ (k <= List.length (products db))%nat
    /\ slug_taken db product (candidate slug k) = false
    /\ forall i, (i < k)%nat -> slug_taken db product (candidate slug i) = true.
Proof.
  destruct (unique_slug_loop_finds db product slug (S (List.length (products db))) 0)
    as (k & H1 & H2 & H3); [lia | intros i Hi; lia |].
  exists k. split; [exact H1|]. split; [|split; assumption].
  destruct (Nat.le_gt_cases k (List.length (products db))) as [Hle | Hgt]; [assumption|].
  exfalso. apply (candidates_not_all_taken db product slug).
  intros i Hi. apply H3. lia.
Qed.

Lemma unique_slug_loop_ends_witness :
  exists k,
    unique_slug_loop (S (List.length (products kalem_db)))
                     (slug_taken kalem_db (Product_init 9 1 "Kalem" "" "SKU9" None None))
                     "kalem" "kalem" 1
    = Some (candidate "kalem" k)
    /\ (k <= List.length (products kalem_db))%nat.
Proof.
  destruct (unique_slug_loop_ends kalem_db
              (Product_init 9 1 "Kalem" "" "SKU9" None None) "kalem")
    as (k & H1 & H2 & _).
  exists k. split; assumption.
Defined.

(** X13.  [ProductForm.save(commit=False)] on a product with a brand
    and no slug of its own returns the product with a slug made from
    its name that no other product of the brand has; the database is
    not touched.  Without a brand on the instance the slug is the plain
    slug of the name, taken or not. *)
Theorem ProductForm_save_slug (slugify : string -> string) (uuid4 : Z) (db : DB)
        (product : Product.t) :
  Product.slug product = ""%string ->
  (exists k,
     ProductForm_save slugify uuid4 db product true false
     = Ok (db, Product_with_slug (candidate (slugify (Product.name product)) k) product)
     /\ slug_taken db product (candidate (slugify (Product.name product)) k) = false)
  /\ ProductForm_save slugify uuid4 db product false false
     = Ok (db, Product_with_slug (slugify (Product.name product)) product).
Proof.
  intros Hs. unfold ProductForm_save. rewrite Hs.
  change (String.eqb "" "") with true. cbn [orb]. split; [|reflexivity].
  destruct (unique_slug_loop_finds db
              (Product_with_slug (slugify (Product.name product)) product)
              (slugify (Product.name product)) (S (List.length (products db))) 0)
    as (k & H1 & H2 & _); [lia | intros i Hi; lia |].
  change (candidate (slugify (Product.name product)) 0)
    with (slugify (Product.name product)) in H1.
  change (Z.of_nat 0 + 1) with 1 in H1.
  exists k. cbn [Product.slug Product_with_slug]. rewrite H1.
  split; [reflexivity|]. exact H2.
Qed.

Lemma ProductForm_save_slug_witness :
  Product.slug kalem2 = ""%string
  /\ exists k,
       ProductForm_save (fun _ => "kalem"%string) 9 kalem_db kalem2 true false
       = Ok (kalem_db, Product_with_slug (candidate "kalem" k) kalem2)
       /\ slug_taken kalem_db kalem2 (candidate "kalem" k) = false.
Proof.
  split; [reflexivity|].
  destruct (ProductForm_save_slug (fun _ => "kalem"%string) 9 kalem_db kalem2) as [H _].
  - reflexivity.
  - exact H.
Defined.

(** ** Creating a product through the view *)

(** X14.  [ProductCreateView.form_valid] does not get to choose a free
    slug: the form is saved before the brand is set, so the slug stays
    the plain slug of the name, and when a product of the user's brand
    has that slug already, [product.save()] raises [IntegrityError]. *)
Theorem ProductCreateView_same_slug_refused (slugify : string -> string)
        (uuid4 : Z) (db : DB) (product : Product.t) (user_brand : Z) (r : Product.t) :
  Product.slug product = ""%string ->
  Product.adding product = true ->
  In r (products db) ->
  Product.brand r = user_brand ->
  Product.slug r = slugify (Product.name product) ->
  ProductCreateView_form_valid slugify uuid4 db product user_brand
  = Raise IntegrityError.
Proof.
  intros Hs Ha Hin Hb Hsl.
  unfold ProductCreateView_form_valid, ProductForm_save. rewrite Hs.
  change (String.eqb "" "") with true. cbn [orb bind fst snd].
  set (p1 := Product_with_brand user_brand
               (Product_with_slug (slugify (Product.name product)) product)).
  assert (E : Product_save uuid4 db p1 = Raise IntegrityError).
  { unfold Product_save.
    set (self2 := Product_saved match Product.id p1 with
                                | Some _ => p1
                                | None => Product_set_id uuid4 p1
                                end).
    assert (Hk : exists k, Product.id self2 = Some k).
    { unfold self2. destruct (Product.id p1) eqn:E; simpl; eauto. }
    destruct Hk as [k Hk].
    unfold Model_save. rewrite Hk.
    replace (Product.adding p1) with true by (symmetry; exact Ha).
    rewrite andb_false_r.
    destruct (exists_pk Product.id (products db) k) eqn:Hex; [reflexivity|].
    assert (Hc : Product_constraints db self2 = false).
    { unfold Product_constraints.
      assert (X : existsb (fun r0 => negb (same_row Product.id r0 self2)
                    && (String.eqb (Product.sku r0) (Product.sku self2)
                        || sql_eq (Product.barcode r0) (Product.barcode self2)
                        || ((Product.brand r0 =? Product.brand self2)
                            && String.eqb (Product.slug r0) (Product.slug self2))))
                    (products db) = true).
      { apply existsb_exists. exists r. split; [assumption|].
        unfold same_row. rewrite Hk.
        rewrite (exists_pk_false_has_pk _ _ _ _ Hex Hin).
        assert (Eb : Product.brand self2 = user_brand).
        { unfold self2. destruct (Product.id p1); reflexivity. }
        assert (Es : Product.slug self2 = slugify (Product.name product)).
        { unfold self2. destruct (Product.id p1); reflexivity. }
        rewrite Eb, Es, Hb, Hsl, Z.eqb_refl, String.eqb_refl.
        rewrite orb_true_r. reflexivity. }
      rewrite X. apply andb_false_r. }
    rewrite Hc. reflexivity. }
  rewrite E. reflexivity.
Qed.

Lemma ProductCreateView_same_slug_refused_witness :
  ProductCreateView_form_valid (fun _ => "kalem"%string) 9 kalem_db
    (Product_init 9 0 "Kalem" "" "SKU9" None None) 1
  = Raise IntegrityError.
Proof.
  apply (ProductCreateView_same_slug_refused (fun _ => "kalem"%string) 9 kalem_db
           (Product_init 9 0 "Kalem" "" "SKU9" None None) 1 (Product_saved kalem)).
  - reflexivity.
  - reflexivity.
  - left. reflexivity.
  - reflexivity.
  - reflexivity.
Defined.

(** ** Expiry *)

(** X15.  A placement is expired exactly when its days to expiry are
    negative; without an expiry date it never expires and has no days
    to expiry; on the expiry date itself it is not expired yet, with 0
    days left. *)
Theorem expired_is_negative_days (expiry_date : option Z) (today : Z) :
  (is_expired expiry_date today = true <->
   exists d, days_to_expiry expiry_date today = Some d /\ d < 0)
  /\ is_expired None today = false
  /\ days_to_expiry None today = None
  /\ is_expired (Some today) today = false
  /\ days_to_expiry (Some today) today = Some 0.
Proof.
  split; [|repeat split].
  - destruct expiry_date as [d|]; simpl.
    + rewrite Z.ltb_lt. split.
      * intros H. exists (d - today). split; [reflexivity | lia].
      * intros (x & E & Hx). inversion E. lia.
    + split; [discriminate | intros (x & E & _); discriminate].
  - simpl. apply Z.ltb_irrefl.
  - simpl. f_equal. lia.
Qed.

Lemma expired_is_negative_days_witness : is_expired (Some 3) 5 = true.
Proof.
  destruct (expired_is_negative_days (Some 3) 5) as [[_ H] _].
  apply H. exists (-2). split; [reflexivity | lia].
Defined.

(** ** A new warehouse whose fan-out runs *)

Lemma Corridor_objects_create_fresh db w i name db' :
  Corridor_objects_create db w i name None = Ok db' ->
  exists_pk Corridor.id (corridors db) (next_corridor_id db) = false.
Proof.
  unfold Corridor_objects_create, bind.
  destruct (Corridor_save _ _) as [[db1 s1]|e] eqn:H; [|discriminate].
  intros _. apply Corridor_save_new in H; [|reflexivity]. tauto.
Qed.

Lemma default_corridors_loop_fresh w l : forall db db',
  for_each l (fun db i => Corridor_objects_create db w i
                            ("Koridor " ++ format_d i)%string None) db = Ok db' ->
  forall j, next_corridor_id db <= j < next_corridor_id db + Z.of_nat (List.length l) ->
    exists_pk Corridor.id (corridors db) j = false.
Proof.
  induction l as [|i l IH]; intros db db' H j Hj.
  - simpl in Hj. lia.
  - cbn [for_each] in H. unfold bind in H.
    destruct (Corridor_objects_create db w i _ None) as [db1|e] eqn:H1; [|discriminate].
    pose proof (Corridor_objects_create_fresh _ _ _ _ _ H1) as Hf.
    apply Corridor_objects_create_Ok in H1. subst db1.
    destruct (Z.eq_dec j (next_corridor_id db)) as [-> | Hne]; [assumption|].
    specialize (IH _ _ H j). rewrite next_corridor_id_appended in IH.
    unfold appended in IH. simpl corridors in IH.
    rewrite exists_pk_app in IH. apply orb_false_iff in IH; [tauto|].
    cbn [List.length] in Hj. rewrite Nat2Z.inj_succ in Hj. lia.
Qed.

Lemma default_corridors_In w l : forall first co,
  In co (default_corridors w first l) ->
  Corridor.warehouse co = w /\ In (Corridor.number co) l
  /\ exists k, Corridor.id co = Some k /\ first <= k < first + Z.of_nat (List.length l).
Proof.
  induction l as [|i l IH]; simpl; intros first co H; [contradiction|].
  destruct H as [<- | H].
  - simpl. repeat split; auto. exists first. split; [reflexivity | lia].
  - apply IH in H. destruct H as (H1 & H2 & k & Hk & Hr).
    repeat split; auto. exists k. split; [assumption | lia].
Qed.

Lemma default_corridor_cells_free {A : Type} (l : list A) : forall fc fe c,
  In c (default_corridor_cells fc fe l) -> Cell.is_occupied c = false.
Proof.
  induction l as [|x l IH]; intros fc fe c H; [contradiction|].
  cbn [default_corridor_cells] in H.
  apply in_app_or in H. destruct H as [H | H].
  - apply default_cells_In in H. tauto.
  - eapply IH; eassumption.
Qed.

Lemma default_cells_of_corridor fc r k : forall fe,
  List.length (filter (fun c => Cell.corridor c =? k) (default_cells fc fe r))
  = if fc =? k then List.length r else 0%nat.
Proof.
  induction r as [|i r IH]; simpl; intros fe.
  - destruct (fc =? k); reflexivity.
  - specialize (IH (fe + 1)). destruct (fc =? k); simpl; rewrite IH; reflexivity.
Qed.

Lemma default_corridor_cells_of_corridor {A : Type} (l : list A) : forall fc fe k,
  fc <= k < fc + Z.of_nat (List.length l) ->
  List.length (filter (fun c => Cell.corridor c =? k) (default_corridor_cells fc fe l))
  = 10%nat.
Proof.
  assert (Hout : forall (l : list A) fc fe k, k < fc ->
            List.length (filter (fun c => Cell.corridor c =? k)
                                (default_corridor_cells fc fe l)) = 0%nat).
  { induction l0 as [|x l0 IH]; intros fc fe k Hk; [reflexivity|].
    cbn [default_corridor_cells]. rewrite filter_app, length_app.
    rewrite default_cells_of_corridor, IH by lia.
    destruct (Z.eqb_spec fc k); [lia | reflexivity]. }
  induction l as [|x l IH]; intros fc fe k Hk.
  - simpl in Hk. lia.
  - cbn [default_corridor_cells]. rewrite filter_app, length_app.
    rewrite default_cells_of_corridor.
    cbn [List.length] in Hk. rewrite Nat2Z.inj_succ in Hk.
    destruct (Z.eqb_spec fc k) as [-> | Hne].
    + rewrite Hout by lia. reflexivity.
    + rewrite IH by lia. reflexivity.
Qed.

Lemma py_sum_const {A : Type} (f : A -> Z) (l : list A) v :
  (forall x, In x l -> f x = v) -> py_sum (map f l) = v * Z.of_nat (List.length l).
Proof.
  induction l as [|x l IH]; intros H.
  - simpl. lia.
  - cbn [map py_sum fold_right List.length]. rewrite Nat2Z.inj_succ.
    unfold py_sum in IH. rewrite IH by (intros; apply H; right; assumption).
    rewrite (H x) by (left; reflexivity). lia.
Qed.

Lemma Warehouse_save_new uuid4 db self db' self' :
  Warehouse.id self = None ->
  exists_pk Warehouse.id (warehouses db) uuid4 = false ->
  Warehouse_save uuid4 db self = Ok (db', self') ->
  let l := py_range 1 (Warehouse.corridor_count self + 1) in
  self' = Warehouse_saved (Warehouse_set_id uuid4 self)
  /\ Warehouse_constraints db self' = true
  /\ (forall j, next_corridor_id db <= j
                < next_corridor_id db + Z.of_nat (List.length l) ->
                exists_pk Corridor.id (corridors db) j = false)
  /\ db' = appended (set_warehouses db (warehouses db ++ [self']))
             (default_corridors uuid4 (next_corridor_id db) l)
             (Z.of_nat (List.length l))
             (default_corridor_cells (next_corridor_id db) (next_cell_id db) l)
             (10 * Z.of_nat (List.length l)).
Proof.
  intros Hid Hfree H l.
  unfold Warehouse_save, Warehouse_base_save, bind in H. rewrite Hid in H.
  destruct (Model_save _ _ _ _ _ _ _) as [[[t next] s1]|e] eqn:Hm; [|discriminate].
  apply Model_save_Ok in Hm. simpl in Hm.
  destruct Hm as [Hc [(Hx & _) | (k & Hk & -> & _ & Hcase)]]; [discriminate|].
  inversion Hk; subst k. clear Hk.
  destruct Hcase as [(_ & Hex & _) | (-> & _)]; [congruence|].
  destruct (create_default_corridors _ _) as [db2|e] eqn:H2; [|discriminate].
  inversion H; subst db2 self'. clear H.
  split; [reflexivity|]. split; [assumption|].
  unfold create_default_corridors in H2. simpl in H2.
  split.
  - apply (default_corridors_loop_fresh _ _ _ _ H2).
  - apply default_corridors_loop in H2. exact H2.
Qed.

(** X16.  When the fan-out of a warehouse runs (the warehouse is saved
    with its key still [None], under a key that is not stored), in a
    database the saves can reach, the warehouse gets the corridors
    numbered 1 to its [corridor_count], ten cells in each, and none of
    them occupied. *)
Theorem new_warehouse_totals uuid4 db self db' self' :
  reachable db ->
  Warehouse.id self = None ->
  exists_pk Warehouse.id (warehouses db) uuid4 = false ->
  Warehouse_save uuid4 db self = Ok (db', self') ->
  map Corridor.number (Warehouse_corridors db' self')
  = py_range 1 (Warehouse.corridor_count self + 1)
  /\ Warehouse_total_corridors db' self' = Warehouse.corridor_count self
  /\ Warehouse_total_cells db' self' = 10 * Warehouse.corridor_count self
  /\ Warehouse_occupied_cells db' self' = 0.
Proof.
  intros Hr Hid Hfree H. apply reachable_consistent in Hr.
  destruct (Warehouse_save_new _ _ _ _ _ Hid Hfree H) as (Hs & Hc & Hfresh & Hdb).
  set (l := py_range 1 (Warehouse.corridor_count self + 1)) in *.
  set (nc := next_corridor_id db) in *. set (ne := next_cell_id db) in *.
  assert (Hcc : 0 <= Warehouse.corridor_count self).
  { apply Warehouse_constraints_iff in Hc. rewrite Hs in Hc. simpl in Hc. tauto. }
  assert (Hlen : Z.of_nat (List.length l) = Warehouse.corridor_count self).
  { unfold l. rewrite py_range_length. lia. }
  assert (Hcorr : Warehouse_corridors db' self' = default_corridors uuid4 nc l).
  { unfold Warehouse_corridors. rewrite Hs. simpl. rewrite Hdb. simpl.
    rewrite filter_app, filter_none, filter_all; [reflexivity | |].
    - intros co Hco. apply default_corridors_In in Hco. destruct Hco as (-> & _).
      apply Z.eqb_refl.
    - intros co Hco. destruct Hr.
      destruct (proj1 (Corridor_constraints_iff _ _) (corridors_checked0 co Hco))
        as (_ & Hfk & _).
      destruct (Z.eqb_spec (Corridor.warehouse co) uuid4) as [E|]; [|reflexivity].
      rewrite E in Hfk. congruence. }
  assert (Hcells : forall co, In co (default_corridors uuid4 nc l) ->
            count (Corridor_cells db' co) = 10
            /\ Corridor_occupied_cells db' co = 0).
  { intros co Hco. apply default_corridors_In in Hco.
    destruct Hco as (_ & _ & k & Hk & Hrange).
    assert (Hold : filter (fun c => Cell.corridor c =? k) (cells db) = []).
    { apply filter_none. intros c Hc'. destruct Hr.
      destruct (proj1 (Cell_constraints_iff _ _) (cells_checked0 c Hc'))
        as (_ & Hfk & _).
      destruct (Z.eqb_spec (Cell.corridor c) k) as [E|]; [|reflexivity].
      rewrite E, (Hfresh k Hrange) in Hfk. discriminate. }
    unfold Corridor_occupied_cells, Corridor_cells. rewrite Hk, Hdb. simpl cells.
    rewrite filter_app, Hold. simpl app. split.
    - unfold count. rewrite default_corridor_cells_of_corridor by assumption.
      reflexivity.
    - rewrite filter_none; [reflexivity|]. intros c Hc'.
      apply filter_In in Hc'. destruct Hc' as [Hc' _].
      eapply default_corridor_cells_free; eassumption. }
  split; [rewrite Hcorr; apply default_corridors_numbers|].
  split; [unfold Warehouse_total_corridors, count;
          rewrite Hcorr, default_corridors_length; exact Hlen|].
  unfold Warehouse_total_cells, Warehouse_occupied_cells. rewrite Hcorr. split.
  - rewrite (py_sum_const _ _ 10); [rewrite default_corridors_length; lia|].
    intros co Hco. apply Hcells. assumption.
  - rewrite (py_sum_const _ _ 0); [lia|].
    intros co Hco. apply Hcells. assumption.
Qed.

Lemma new_warehouse_totals_witness :
  Warehouse_save 77 empty_db depo_yeni
  = Ok (depo_db, Warehouse_saved (Warehouse_set_id 77 depo_yeni))
  /\ map Corridor.number
         (Warehouse_corridors depo_db (Warehouse_saved (Warehouse_set_id 77 depo_yeni)))
     = py_range 1 (Warehouse.corridor_count depo_yeni + 1)
  /\ Warehouse_total_corridors depo_db (Warehouse_saved (Warehouse_set_id 77 depo_yeni))
     = Warehouse.corridor_count depo_yeni
  /\ Warehouse_total_cells depo_db (Warehouse_saved (Warehouse_set_id 77 depo_yeni))
     = 10 * Warehouse.corridor_count depo_yeni
  /\ Warehouse_occupied_cells depo_db (Warehouse_saved (Warehouse_set_id 77 depo_yeni)) = 0.
Proof.
  split; [reflexivity|].
  apply (new_warehouse_totals 77 empty_db depo_yeni depo_db
           (Warehouse_saved (Warehouse_set_id 77 depo_yeni))).
  - apply reachable_empty.
  - reflexivity.
  - reflexivity.
  - reflexivity.
Defined.

(** ** When a new corridor can be saved *)

Lemma keys_below_exists_pk {R : Type} (pk : R -> option Z) t next j :
  keys_below pk t next = true -> next <= j -> exists_pk pk t j = false.
Proof.
  unfold keys_below. intros H Hj.
  destruct (exists_pk pk t j) eqn:E; [|reflexivity].
  apply existsb_exists in E. destruct E as [r [Hin Hr]].
  apply has_pk_iff in Hr. rewrite forallb_forall in H. specialize (H r Hin).
  rewrite Hr in H. apply Z.ltb_lt in H. lia.
Qed.

Lemma keys_below_snoc {R : Type} (pk : R -> option Z) t next x :
  keys_below pk t next = true -> pk x = Some next ->
  keys_below pk (t ++ [x]) (next + 1) = true.
Proof.
  unfold keys_below. intros H Hx. rewrite forallb_app. apply andb_true_iff. split.
  - rewrite forallb_forall in *. intros r Hr. specialize (H r Hr).
    destruct (pk r); [|reflexivity]. apply Z.ltb_lt in H. apply Z.ltb_lt. lia.
  - simpl. rewrite Hx, andb_true_r. apply Z.ltb_lt. lia.
Qed.

Lemma py_range_NoDup lo hi : NoDup (py_range lo hi).
Proof.
  unfold py_range. apply NoDup_map_inj; [intros x y H; lia | apply seq_NoDup].
Qed.

Lemma default_cells_loop_returns k l : forall db,
  NoDup l -> (forall i, In i l -> 0 <= i) ->
  exists_pk Corridor.id (corridors db) k = true ->
  (forall c, In c (cells db) -> Cell.corridor c = k -> ~ In (Cell.number c) l) ->
  keys_below Cell.id (cells db) (next_cell_id db) = true ->
  exists db',
    for_each l (fun db i => Cell_objects_create db k i
                              ("Hücre " ++ format_d i)%string) db = Ok db'.
Proof.
  induction l as [|i l IH]; intros db Hnd Hpos Hfk Hfree Hkeys.
  - eexists. reflexivity.
  - cbn [for_each]. rewrite Cell_objects_create_eq.
    inversion Hnd as [|? ? Hi Hnd']; subst.
    assert (H1 : (0 <=? i) = true) by (apply Z.leb_le; apply Hpos; left; reflexivity).
    assert (H2 : existsb (fun r => (Cell.corridor r =? k) && (Cell.number r =? i))
                         (cells db) = false).
    { destruct (existsb _ (cells db)) eqn:E; [|reflexivity].
      apply existsb_exists in E. destruct E as [c [Hc Hcc]].
      apply andb_true_iff in Hcc. destruct Hcc as [Ec En].
      apply Z.eqb_eq in Ec. apply Z.eqb_eq in En.
      exfalso. apply (Hfree c Hc Ec). left. symmetry. assumption. }
    assert (H3 : exists_pk Cell.id (cells db) (next_cell_id db) = false)
      by (apply (keys_below_exists_pk _ _ _ _ Hkeys); lia).
    rewrite H1, Hfk, H2, H3. cbn [andb negb bind].
    apply IH.
    + assumption.
    + intros j Hj. apply Hpos. right. assumption.
    + exact Hfk.
    + simpl. intros c Hc Ec Hn. apply in_app_or in Hc. destruct Hc as [Hc | [<- | []]].
      * apply (Hfree c Hc Ec). right. assumption.
      * simpl in Hn. contradiction.
    + simpl. apply keys_below_snoc; [assumption | reflexivity].
Qed.

(** X17.  In a database the saves can reach, with both sequences ahead
    of their tables and the keys to come within the range of an
    [AutoField], a new corridor is saved, cells included, whenever its
    number and cell count are between 0 and 2147483647, its name has at
    most 100 characters, its warehouse is stored and the warehouse has
    no corridor of that number. *)
Theorem Corridor_save_returns db self :
  reachable db ->
  keys_below Corridor.id (corridors db) (next_corridor_id db) = true ->
  keys_below Cell.id (cells db) (next_cell_id db) = true ->
  next_corridor_id db <= AutoField_max ->
  next_cell_id db + Corridor.cell_count self - 1 <= AutoField_max ->
  Corridor.id self = None ->
  0 <= Corridor.number self <= PositiveIntegerField_max ->
  0 <= Corridor.cell_count self <= PositiveIntegerField_max ->
  (String.length (Corridor.name self) <= name_max_length)%nat ->
  exists_pk Warehouse.id (warehouses db) (Corridor.warehouse self) = true ->
  (forall co, In co (corridors db) ->
              Corridor.warehouse co = Corridor.warehouse self ->
              Corridor.number co <> Corridor.number self) ->
  exists db', Corridor_save db self
              = Ok (db', Corridor_set_id (next_corridor_id db) self).
Proof.
  intros Hr Hkc Hke _ _ Hid [Hn _] [Hcc _] _ Hfk Hfree. apply reachable_consistent in Hr.
  set (k := next_corridor_id db).
  assert (Hnew : exists_pk Corridor.id (corridors db) k = false)
    by (apply (keys_below_exists_pk _ _ _ _ Hkc); unfold k; lia).
  assert (Hc : Corridor_constraints db (Corridor_set_id k self) = true).
  { apply Corridor_constraints_iff. simpl. split; [split; assumption|].
    split; [assumption|]. apply no_collision_true. intros r Hin Hcol. exfalso.
    unfold Corridor_collide in Hcol. simpl in Hcol. apply andb_true_iff in Hcol.
    destruct Hcol as [Ew En]. apply Z.eqb_eq in Ew. apply Z.eqb_eq in En.
    apply (Hfree r Hin Ew En). }
  unfold Corridor_save, Model_save, bind. rewrite Hid. fold k. rewrite Hnew, Hc.
  cbn [negb andb].
  destruct (default_cells_loop_returns k (py_range 1 (Corridor.cell_count self + 1))
              (set_corridors db (corridors db ++ [Corridor_set_id k self]) (k + 1)))
    as [db' Hloop].
  - apply py_range_NoDup.
  - intros i Hi. apply py_range_In in Hi. lia.
  - simpl. rewrite exists_pk_app.
    replace (exists_pk Corridor.id [Corridor_set_id k self] k) with true;
      [apply orb_true_r|].
    unfold exists_pk, has_pk. simpl. rewrite Z.eqb_refl. reflexivity.
  - simpl. intros c Hc' E. exfalso. destruct Hr.
    destruct (proj1 (Cell_constraints_iff _ _) (cells_checked0 c Hc')) as (_ & Hx & _).
    rewrite E, Hnew in Hx. discriminate.
  - exact Hke.
  - exists db'. unfold create_default_cells.
    cbn [Corridor.id Corridor_set_id Corridor.cell_count]. rewrite Hloop. reflexivity.
Qed.

Lemma Corridor_save_returns_witness :
  exists db', Corridor_save raf_db1 (Corridor_init 77 2 "Koridor 2" (Some 3))
              = Ok (db', Corridor_set_id (next_corridor_id raf_db1)
                                         (Corridor_init 77 2 "Koridor 2" (Some 3))).
Proof.
  apply (Corridor_save_returns raf_db1 (Corridor_init 77 2 "Koridor 2" (Some 3))).
  - apply (reachable_step empty_db); [apply reachable_empty|].
    apply (step_Warehouse_save 77 empty_db (Warehouse_init 77 1 "Depo" "001" None)
             raf_db1 (Warehouse_saved (Warehouse_init 77 1 "Depo" "001" None))).
    reflexivity.
  - reflexivity.
  - reflexivity.
  - vm_compute. discriminate.
  - vm_compute. discriminate.
  - reflexivity.
  - vm_compute. split; discriminate.
  - vm_compute. split; discriminate.
  - vm_compute. repeat constructor.
  - reflexivity.
  - intros co [].
Defined.

(** ** URLs *)

(** X18.  [Warehouse.get_absolute_url] and [Category.get_absolute_url]
    never return a URL: the names they reverse, [warehouses:detail] and
    [products:category_detail], are not among the patterns of their
    apps, whatever the key or the slug. *)
Theorem get_absolute_url_no_match :
  (forall (str_uuid : Z -> string) (w : Warehouse.t),
     Warehouse_get_absolute_url str_uuid w = None)
  /\ (forall slug : string, Category_get_absolute_url slug = None).
Proof. split; intros; reflexivity. Qed.

Lemma strip_prefix_Some p : forall s rest,
  strip_prefix p s = Some rest -> s = (p ++ rest)%string.
Proof.
  induction p as [|a p IH]; simpl; intros s rest H.
  - inversion H. reflexivity.
  - destruct s as [|b s]; [discriminate|].
    destruct (Ascii.eqb_spec a b) as [-> | Hne]; [|discriminate].
    f_equal. apply IH. assumption.
Qed.

Lemma strip_prefix_app p : forall rest, strip_prefix p (p ++ rest) = Some rest.
Proof.
  induction p as [|a p IH]; simpl; intros rest; [reflexivity|].
  rewrite Ascii.eqb_refl. apply IH.
Qed.

Lemma strip_prefix_refl p : strip_prefix p p = Some ""%string.
Proof. induction p as [|a p IH]; simpl; [reflexivity|]. rewrite Ascii.eqb_refl. apply IH. Qed.

Lemma match_route_Lit l s kw :
  match_route [Lit l] s = Some kw -> s = l.
Proof.
  simpl. destruct (strip_prefix l s) as [rest|] eqn:E; [|discriminate].
  apply strip_prefix_Some in E. destruct (String.eqb_spec rest "") as [-> | Hne];
    [|discriminate].
  intros _. subst s. clear. induction l; simpl; congruence.
Qed.

(** X19.  No path resolves to [CategoryListView]: the one path its
    route matches, [categories/], is taken by the product detail route
    that stands before it. *)
Theorem category_list_never_resolved (path : string) :
  forall v kw, resolve products_urlpatterns path = Some (v, kw) ->
               v <> "CategoryListView"%string.
Proof.
  intros v kw H. unfold products_urlpatterns in H. cbn [resolve route view] in H.
  destruct (match_route [] path) eqn:E1; [inversion H; discriminate|].
  destruct (match_route [Lit "create/"] path) eqn:E2; [inversion H; discriminate|].
  destruct (match_route [Slug "slug"; Lit "/"] path) eqn:E3; [inversion H; discriminate|].
  destruct (match_route [Slug "slug"; Lit "/edit/"] path) eqn:E4;
    [inversion H; discriminate|].
  destruct (match_route [Slug "slug"; Lit "/delete/"] path) eqn:E5;
    [inversion H; discriminate|].
  destruct (match_route [Lit "categories/"] path) eqn:E6.
  - apply match_route_Lit in E6. subst path. vm_compute in E3. discriminate.
  - destruct (match_route [Lit "categories/create/"] path) eqn:E7;
      [inversion H; discriminate|].
    destruct (match_route [Lit "categories/"; Slug "slug"; Lit "/edit/"] path) eqn:E8;
      [inversion H; discriminate|].
    discriminate H.
Qed.

Lemma category_list_never_resolved_witness :
  "ProductDetailView"%string <> "CategoryListView"%string.
Proof.
  apply (category_list_never_resolved "categories/" "ProductDetailView"
           [("slug"%string, "categories"%string)]).
  reflexivity.
Defined.

Lemma string_app_assoc (a b c : string) : ((a ++ b) ++ c = a ++ (b ++ c))%string.
Proof. induction a; simpl; congruence. Qed.

Lemma string_snoc_inv (a b : string) (c : ascii) :
  (a ++ String c "" = b ++ String c "")%string -> a = b.
Proof.
  revert b. induction a as [|x a IH]; intros [|y b] E; simpl in E.
  - reflexivity.
  - inversion E. destruct b; discriminate.
  - inversion E. destruct a; discriminate.
  - inversion E. f_equal. apply IH. assumption.
Qed.

(** The converter followed by the last literal of a route takes a whole
    slug. *)
Lemma match_slug_whole name l s : forall captured,
  all_slug_chars s = true -> s <> ""%string ->
  (forall c l', l = String c l' -> is_slug_char c = false) ->
  l <> ""%string ->
  match_slug (fun cap rest => option_map (cons (name, cap)) (match_route [Lit l] rest))
             captured (s ++ l)
  = Some [(name, (captured ++ s)%string)].
Proof.
  induction s as [|c s IH]; intros captured Hall Hne Hl Hlne; [congruence|].
  simpl in Hall. apply andb_true_iff in Hall. destruct Hall as [Hc Hs].
  cbn [String.append match_slug]. rewrite Hc.
  destruct s as [|c' s'].
  - cbn [String.append]. destruct l as [|a l']; [congruence|].
    cbn [match_slug]. rewrite (Hl a l' eq_refl).
    cbn [match_route]. rewrite strip_prefix_refl.
    cbn [match_route String.eqb option_map]. reflexivity.
  - rewrite IH; [| assumption | discriminate | assumption | assumption].
    rewrite string_app_assoc. reflexivity.
Qed.

(** X20.  The detail URL of a product round-trips unless the slug is
    [create]: for a slug of slug characters, [get_absolute_url] is
    [/products/<slug>/], and that path resolves to the detail view with
    the slug, except that [create/] is the create view; a slug that is
    empty or has another character gives no URL. *)
Theorem product_detail_url_round_trip (p : Product.t) :
  (is_slug (Product.slug p) = true ->
   Product_get_absolute_url p = Some ("/products/" ++ Product.slug p ++ "/")%string
   /\ resolve products_urlpatterns (Product.slug p ++ "/")
      = Some (if String.eqb (Product.slug p) "create"
              then ("ProductCreateView"%string, [])
              else ("ProductDetailView"%string, [("slug"%string, Product.slug p)])))
  /\ (is_slug (Product.slug p) = false -> Product_get_absolute_url p = None).
Proof.
  set (s := Product.slug p). split.
  - intros Hs. unfold is_slug in Hs. apply andb_true_iff in Hs. destruct Hs as [Hne Hall].
    apply negb_true_iff in Hne. apply String.eqb_neq in Hne. split.
    + unfold Product_get_absolute_url. fold s.
      unfold reverse, products_urlpatterns.
      cbn [url_name route params map fst same_names forallb existsb String.eqb
           Ascii.eqb Bool.eqb andb orb build lookup].
      unfold is_slug. rewrite Hall, (proj2 (String.eqb_neq s "") Hne). reflexivity.
    + unfold products_urlpatterns. cbn [resolve route view].
      assert (E1 : match_route [] (s ++ "/") = None).
      { cbn [match_route]. destruct s; [congruence | reflexivity]. }
      rewrite E1.
      destruct (String.eqb_spec s "create") as [-> | Hcreate]; [reflexivity|].
      assert (E2 : match_route [Lit "create/"] (s ++ "/") = None).
      { destruct (match_route [Lit "create/"] (s ++ "/")) eqn:E; [|reflexivity].
        apply match_route_Lit in E. exfalso. apply Hcreate.
        apply (string_snoc_inv s "create" "/"). exact E. }
      rewrite E2.
      change (match_route [Slug "slug"; Lit "/"] (s ++ "/"))
        with (match_slug (fun cap rest =>
                            option_map (cons ("slug"%string, cap))
                                       (match_route [Lit "/"] rest))
                         "" (s ++ "/")).
      rewrite (match_slug_whole "slug" "/" s ""); try assumption.
      * reflexivity.
      * intros c l' E. inversion E. reflexivity.
      * discriminate.
  - intros Hs. unfold Product_get_absolute_url. fold s.
    unfold reverse, products_urlpatterns.
    cbn [url_name route params map fst same_names forallb existsb String.eqb
         Ascii.eqb Bool.eqb andb orb build lookup].
    rewrite Hs. reflexivity.
Qed.

Lemma product_detail_url_round_trip_witness :
  Product_get_absolute_url kalem = Some ("/products/" ++ Product.slug kalem ++ "/")%string
  /\ resolve products_urlpatterns (Product.slug kalem ++ "/")
     = Some (if String.eqb (Product.slug kalem) "create"
             then ("ProductCreateView"%string, [])
             else ("ProductDetailView"%string, [("slug"%string, Product.slug kalem)])).
Proof.
  destruct (product_detail_url_round_trip kalem) as [H _]. apply H. reflexivity.
Defined.

(** ** Reading back what was saved *)

Section SaveThenGet.
Context {R : Type}.
Variable pk : R -> option Z.
Variable set_pk : Z -> R -> R.
Variable check : R -> bool.
Hypothesis set_pk_pk : forall k r, pk (set_pk k r) = Some k.

Lemma get_app_new t x k :
  exists_pk pk t k = false -> pk x = Some k -> get pk (t ++ [x]) k = Some x.
Proof.
  intros Hf Hx. unfold get, exists_pk in *. induction t as [|y t IH]; simpl in *.
  - rewrite (proj2 (has_pk_iff pk k x) Hx). reflexivity.
  - apply orb_false_iff in Hf. destruct Hf as [Hy Ht]. rewrite Hy. apply IH. assumption.
Qed.

Lemma get_app_other t x k j :
  pk x = Some k -> j <> k -> get pk (t ++ [x]) j = get pk t j.
Proof.
  intros Hx Hj. unfold get. induction t as [|y t IH]; simpl.
  - unfold has_pk. rewrite Hx. destruct (Z.eqb_spec k j); [congruence | reflexivity].
  - destruct (has_pk pk j y); [reflexivity | apply IH].
Qed.

Lemma get_update_same t k self :
  exists_pk pk t k = true -> pk self = Some k -> get pk (update pk t k self) k = Some self.
Proof.
  intros He Hs. unfold get, exists_pk, update in *. induction t as [|y t IH]; simpl in *.
  - discriminate.
  - destruct (has_pk pk k y) eqn:E.
    + rewrite (proj2 (has_pk_iff pk k self) Hs). reflexivity.
    + rewrite E. apply IH. simpl in He. assumption.
Qed.

Lemma get_update_other t k self j :
  pk self = Some k -> j <> k -> get pk (update pk t k self) j = get pk t j.
Proof.
  intros Hs Hj.
  assert (Hother : forall r, pk r = Some k -> has_pk pk j r = false).
  { intros r Hr. unfold has_pk. rewrite Hr.
    destruct (Z.eqb_spec k j); [congruence | reflexivity]. }
  unfold get, update. induction t as [|y t IH]; simpl; [reflexivity|].
  destruct (has_pk pk k y) eqn:E.
  - apply has_pk_iff in E. rewrite (Hother self Hs), (Hother y E). apply IH.
  - destruct (has_pk pk j y); [reflexivity | apply IH].
Qed.

(** After a save the key of the instance gives the instance back, and
    every other key gives what it gave before. *)
Lemma Model_save_get force t next self t' next' self' :
  Model_save pk set_pk check force t next self = Ok (t', next', self') ->
  exists k, pk self' = Some k /\ get pk t' k = Some self'
            /\ forall j, j <> k -> get pk t' j = get pk t j.
Proof.
  intros H. apply Model_save_Ok in H.
  destruct H as [_ [(_ & -> & -> & _ & Hf) | (k & Hk & -> & _ & [(-> & He & _) | (-> & Hf)])]].
  - exists next. split; [apply set_pk_pk|]. split.
    + apply get_app_new; [assumption | apply set_pk_pk].
    + intros j Hj. apply get_app_other with (k := next); [apply set_pk_pk | assumption].
  - exists k. split; [assumption|]. split.
    + apply get_update_same; assumption.
    + intros j Hj. apply get_update_other; assumption.
  - exists k. split; [assumption|]. split.
    + apply get_app_new; assumption.
    + intros j Hj. apply get_app_other with (k := k); assumption.
Qed.

Lemma update_same_row t k self :
  keyed pk t -> In self t -> pk self = Some k -> update pk t k self = t.
Proof.
  intros Hk Hin Hs. unfold update. rewrite <- (map_id t) at 2.
  apply map_ext_in. intros x Hx. destruct (has_pk pk k x) eqn:E; [|reflexivity].
  apply has_pk_iff in E. eapply keyed_inj; eauto. congruence.
Qed.
End SaveThenGet.

(** X21.  A cell that was saved can be read back: its key gives the
    saved instance, and every other key gives the cell it gave before. *)
Theorem Cell_save_then_get db self db' self' :
  Cell_save db self = Ok (db', self') ->
  exists k, Cell.id self' = Some k
    /\ related Cell.id (cells db') k = Ok self'
    /\ forall j, j <> k -> related Cell.id (cells db') j = related Cell.id (cells db) j.
Proof.
  unfold Cell_save, bind.
  destruct (Model_save _ _ _ _ _ _ _) as [[[t next] s1]|e] eqn:H; [|discriminate].
  intros E; inversion E; subst. clear E.
  destruct (Model_save_get Cell.id Cell_set_id _ (fun _ _ => eq_refl) _ _ _ _ _ _ _ H)
    as (k & Hk & Hg & Ho).
  exists k. split; [assumption|]. unfold related. simpl. rewrite Hg.
  split; [reflexivity|]. intros j Hj. rewrite (Ho j Hj). reflexivity.
Qed.

Lemma Cell_save_then_get_witness :
  exists k, Cell.id dolu = Some k
    /\ related Cell.id (cells dolu_db) k = Ok dolu
    /\ forall j, j <> k ->
          related Cell.id (cells dolu_db) j = related Cell.id (cells raf_db2) j.
Proof.
  apply (Cell_save_then_get raf_db2 dolu dolu_db dolu). reflexivity.
Defined.

(** ** [ProductForm.clean] *)

(** X23.  [ProductForm.clean] raises exactly when both stock levels are
    given and not 0 and the minimum is not below the maximum.  So two
    accepted levels that are not 0 are in order, while a level of 0, or
    a missing one, is accepted whatever the other is. *)
Theorem ProductForm_clean_levels (min_stock_level max_stock_level : option Z) :
  (ProductForm_clean min_stock_level max_stock_level = ValidationError <->
   exists a b, min_stock_level = Some a /\ max_stock_level = Some b
               /\ a <> 0 /\ b <> 0 /\ b <= a)
  /\ ProductForm_clean min_stock_level (Some 0) = Cleaned
  /\ ProductForm_clean min_stock_level None = Cleaned
  /\ ProductForm_clean (Some 0) max_stock_level = Cleaned
  /\ ProductForm_clean None max_stock_level = Cleaned.
Proof.
  split; [|repeat split].
  - unfold ProductForm_clean, truthy, get_or_0. split.
    + destruct min_stock_level as [a|], max_stock_level as [b|]; simpl;
        try (rewrite ?andb_false_r; discriminate).
      destruct (Z.eqb_spec a 0), (Z.eqb_spec b 0), (Z.leb_spec b a);
        simpl; try discriminate.
      intros _. exists a, b. repeat split; assumption.
    + intros (a & b & -> & -> & Ha & Hb & Hab).
      destruct (Z.eqb_spec a 0), (Z.eqb_spec b 0), (Z.leb_spec b a);
        simpl; try reflexivity; lia.
  - unfold ProductForm_clean. simpl. rewrite andb_false_r. reflexivity.
  - unfold ProductForm_clean. simpl. rewrite andb_false_r. reflexivity.
Qed.

Lemma ProductForm_clean_levels_witness :
  ProductForm_clean (Some 10) (Some 5) = ValidationError.
Proof.
  destruct (ProductForm_clean_levels (Some 10) (Some 5)) as [[_ H] _].
  apply H. exists 10, 5. repeat split; try reflexivity; lia.
Defined.

(** ** Marking a cell occupied *)

Lemma keyed_split {R : Type} (pk : R -> option Z) (t : list R) c k :
  keyed pk t -> In c t -> pk c = Some k ->
  exists l1 l2, t = (l1 ++ c :: l2)%list
    /\ forall x, In x (l1 ++ l2)%list -> has_pk pk k x = false.
Proof.
  intros Hk Hin Hc. destruct (in_split _ _ Hin) as (l1 & l2 & ->).
  exists l1, l2. split; [reflexivity|]. intros x Hx.
  destruct (has_pk pk k x) eqn:E; [|reflexivity]. exfalso.
  apply has_pk_iff in E. destruct Hk as [Hnd _].
  rewrite map_app in Hnd. simpl in Hnd. apply NoDup_remove_2 in Hnd.
  apply Hnd. rewrite <- map_app, Hc, <- E. apply in_map. assumption.
Qed.

Lemma update_split {R : Type} (pk : R -> option Z) l1 l2 c c' k :
  pk c = Some k ->
  (forall x, In x (l1 ++ l2)%list -> has_pk pk k x = false) ->
  update pk (l1 ++ c :: l2) k c' = (l1 ++ c' :: l2)%list.
Proof.
  intros Hc Hno. unfold update. rewrite map_app. simpl.
  rewrite (proj2 (has_pk_iff pk k c) Hc). f_equal; [|f_equal].
  - rewrite <- (map_id l1) at 2. apply map_ext_in. intros x Hx.
    rewrite Hno; [reflexivity | apply in_or_app; left; assumption].
  - rewrite <- (map_id l2) at 2. apply map_ext_in. intros x Hx.
    rewrite Hno; [reflexivity | apply in_or_app; right; assumption].
Qed.

(** X24.  In a database the saves can reach, saving a stored free cell
    as occupied returns; the corridor of the cell then has one occupied
    cell more and one available cell less, and the counts of every
    other corridor are as before. *)
Theorem occupy_cell db c :
  reachable db ->
  In c (cells db) ->
  Cell.is_occupied c = false ->
  exists db',
    Cell_save db (Cell_with_is_occupied true c)
    = Ok (db', Cell_with_is_occupied true c)
    /\ forall co,
         (Corridor.id co = Some (Cell.corridor c) ->
          Corridor_occupied_cells db' co = Corridor_occupied_cells db co + 1
          /\ Corridor_available_cells db' co = Corridor_available_cells db co - 1)
         /\ (Corridor.id co <> Some (Cell.corridor c) ->
             Corridor_occupied_cells db' co = Corridor_occupied_cells db co
             /\ Corridor_available_cells db' co = Corridor_available_cells db co).
Proof.
  intros Hr Hin Hfree. apply reachable_consistent in Hr. destruct Hr.
  pose proof cells_keyed0 as Hkeyed. destruct cells_keyed0 as [_ Hsome].
  destruct (Cell.id c) as [k|] eqn:Hk; [|exfalso; eapply Hsome; eauto].
  set (c' := Cell_with_is_occupied true c).
  assert (Hc : Cell_constraints db c' = true).
  { pose proof (cells_checked0 c Hin) as H0.
    apply Cell_constraints_iff in H0. apply Cell_constraints_iff. exact H0. }
  destruct (keyed_split _ _ _ _ Hkeyed Hin Hk) as (l1 & l2 & Ht & Hno).
  exists (set_cells db (l1 ++ c' :: l2) (next_cell_id db)). split.
  - unfold Cell_save, Model_save, bind.
    replace (Cell.id c') with (Some k) by (symmetry; exact Hk).
    rewrite (In_exists_pk _ _ _ _ Hin Hk), Hc. simpl.
    rewrite Ht, (update_split Cell.id l1 l2 c c' k Hk Hno). reflexivity.
  - intros co. unfold Corridor_occupied_cells, Corridor_available_cells,
      Corridor_cells, count. simpl cells. rewrite Ht.
    destruct (Corridor.id co) as [kc|]; [|split; [discriminate | split; reflexivity]].
    rewrite !filter_app. cbn [filter].
    replace (Cell.corridor c') with (Cell.corridor c) by reflexivity.
    destruct (Z.eqb_spec (Cell.corridor c) kc) as [E | E].
    + split; [|intros Hne; congruence]. intros _. cbv match.
      cbn [filter]. rewrite Hfree.
      replace (Cell.is_occupied c') with true by reflexivity.
      cbn [negb]. cbv match.
      rewrite !length_app. cbn [List.length]. lia.
    + split; [intros Heq; congruence|]. intros _. split; reflexivity.
Qed.

Lemma occupy_cell_witness :
  exists db',
    Cell_save raf_db2 (Cell_with_is_occupied true
                         (Cell.mk (Some 1) 1 1 "Hücre 1" false true false))
    = Ok (db', Cell_with_is_occupied true
                 (Cell.mk (Some 1) 1 1 "Hücre 1" false true false)).
Proof.
  destruct (occupy_cell raf_db2 (Cell.mk (Some 1) 1 1 "Hücre 1" false true false))
    as (db' & H & _).
  - apply raf_db2_reachable.
  - left. reflexivity.
  - reflexivity.
  - exists db'. exact H.
Defined.

(** * The occupancy flag, the ledger, the location code, the rates and
      the fan-out, on every operation *)

(** ** What a step does to the stored cells *)

Lemma get_app_old {R : Type} (pk : R -> option Z) (t t' : list R) k r :
  get pk t k = Some r -> get pk (t ++ t') k = Some r.
Proof.
  unfold get. induction t as [|x t IH]; simpl; [discriminate|].
  destruct (has_pk pk k x); auto.
Qed.

(** A step either appends cells that are free, or is a [Cell.save]. *)
Lemma step_cells db db' :
  step db db' ->
  (exists new, cells db' = (cells db ++ new)%list
               /\ forall c, In c new -> Cell.is_occupied c = false)
  \/ (exists self self', Cell_save db self = Ok (db', self')).
Proof.
  intros Hs. destruct Hs as [u db self db' self' H | db self db' self' H
                            | db self db' self' H | db self db' self' H
                            | u db self db' self' H | db self db' self' H
                            | db self db' H | db self db' H].
  - left. apply Warehouse_save_Ok in H.
    destruct H as (t & pk & _ & [(_ & ->) | (_ & ->)]).
    + exists []. simpl. rewrite app_nil_r. split; [reflexivity | contradiction].
    + eexists. simpl. split; [reflexivity|].
      intros c Hc. eapply default_corridor_cells_free. eassumption.
  - left. apply Corridor_save_Ok in H.
    destruct H as [(_ & _ & ->) | (k & t & _ & _ & -> & _)].
    + eexists. simpl. split; [reflexivity|].
      intros c Hc. apply default_cells_In in Hc. tauto.
    + exists []. simpl. rewrite app_nil_r. split; [reflexivity | contradiction].
  - right. eauto.
  - left. apply ProductLocation_save_Ok in H. destruct H as (t & n & -> & _).
    exists []. simpl. rewrite app_nil_r. split; [reflexivity | contradiction].
  - left. apply Product_save_Ok in H. destruct H as (t & -> & _).
    exists []. simpl. rewrite app_nil_r. split; [reflexivity | contradiction].
  - left. apply StockMovement_save_Ok in H. destruct H as (t & n & -> & _).
    exists []. simpl. rewrite app_nil_r. split; [reflexivity | contradiction].
  - left. apply create_default_corridors_Ok in H. destruct H as (pk & _ & ->).
    eexists. simpl. split; [reflexivity|].
    intros c Hc. eapply default_corridor_cells_free. eassumption.
  - left. apply create_default_cells_Ok in H. destruct H as (pk & _ & ->).
    eexists. simpl. split; [reflexivity|].
    intros c Hc. apply default_cells_In in Hc. tauto.
Qed.

(** C1, amended.  [is_occupied] is a column of the cell, and no
    operation derives it from the placements.  Saving a placement
    leaves every cell as it was.  Whatever the step is, a stored cell is
    afterwards the same row under the same key, flag included, unless
    the step is a [Cell.save] of an instance with that key, which is
    then the stored row; and a cell that a step adds is free, unless the
    step is a [Cell.save] of that very cell.  The cells that a new
    corridor gets are free and hold nothing, so flag and content agree
    when a cell is made. *)
Theorem is_occupied_is_a_stored_flag :
  (forall db self db' self',
     ProductLocation_save db self = Ok (db', self') -> cells db' = cells db)
  /\ (forall db db' k c,
        step db db' -> get Cell.id (cells db) k = Some c ->
        get Cell.id (cells db') k = Some c
        \/ exists self self',
             Cell_save db self = Ok (db', self') /\ Cell.id self' = Some k
             /\ get Cell.id (cells db') k = Some self')
  /\ (forall db db' c,
        step db db' -> In c (cells db') -> ~ In c (cells db) ->
        Cell.is_occupied c = false
        \/ exists self, Cell_save db self = Ok (db', c))
  /\ (forall db self db' self' c,
        reachable db ->
        Corridor_save db self = Ok (db', self') ->
        In c (cells db') -> ~ In c (cells db) ->
        Cell.is_occupied c = false /\ placed_quantity db' c = 0).
Proof.
  split; [|split; [|split]].
  - intros db self db' self' H. apply ProductLocation_save_Ok in H.
    destruct H as (t & n & -> & _). reflexivity.
  - intros db db' k c Hs Hg.
    destruct (step_cells _ _ Hs) as [(new & -> & _) | (self & self' & H)].
    + left. apply get_app_old. assumption.
    + pose proof H as H0. unfold Cell_save, bind in H0.
      destruct (Model_save _ _ _ _ _ _ _) as [[[t next] s1]|e] eqn:Hm; [|discriminate].
      inversion H0; subst. clear H0.
      destruct (Model_save_get Cell.id Cell_set_id _ (fun _ _ => eq_refl)
                               _ _ _ _ _ _ _ Hm) as (k0 & Hk0 & Hg0 & Ho).
      destruct (Z.eq_dec k k0) as [-> | Hne].
      * right. exists self, self'. simpl. auto.
      * left. simpl. rewrite (Ho k Hne). assumption.
  - intros db db' c Hs Hin Hnew.
    destruct (step_cells _ _ Hs) as [(new & E & Hfree) | (self & self' & H)].
    + left. rewrite E in Hin. apply in_app_or in Hin.
      destruct Hin as [Hin | Hin]; [contradiction | auto].
    + right. pose proof H as H0. apply Cell_save_Ok in H0.
      destruct H0 as (t & next & -> & _ & Ht). simpl in Hin.
      destruct (Ht c Hin) as [-> | Hold]; [eauto | contradiction].
  - intros db self db' self' c Hr H Hin Hnew.
    pose proof (reachable_placements_in_cells db Hr) as Hfk.
    unfold Corridor_save, bind in H.
    destruct (Model_save _ _ _ _ _ _ _) as [[[t next] s1]|e] eqn:Hm; [|discriminate].
    destruct (Corridor.id self) as [k|] eqn:Hid.
    + inversion H; subst. simpl in Hin. contradiction.
    + destruct (create_default_cells _ _) as [db2|e] eqn:H2; [|discriminate].
      inversion H; subst; clear H.
      pose proof (create_default_cells_fresh _ _ _ H2) as Hfresh.
      apply create_default_cells_Ok in H2. destruct H2 as (pk & Hpk & ->).
      simpl in Hin, Hfresh. apply in_app_or in Hin.
      destruct Hin as [Hin | Hin]; [contradiction|].
      apply default_cells_In in Hin.
      destruct Hin as (_ & Hocc & _ & _ & _ & j & Hj & Hrange).
      split; [assumption|].
      apply (placed_quantity_no_placement _ _ j Hj). simpl.
      intros l Hl E. specialize (Hfk l Hl). rewrite E in Hfk.
      rewrite (Hfresh j Hrange) in Hfk. discriminate.
Qed.

Lemma is_occupied_is_a_stored_flag_witness :
  cells raf_db = cells raf_db3
  /\ step raf_db3 raf_db
  /\ get Cell.id (cells raf_db3) 1
     = Some (Cell.mk (Some 1) 1 1 "Hücre 1" false true false)
  /\ (get Cell.id (cells raf_db) 1
      = Some (Cell.mk (Some 1) 1 1 "Hücre 1" false true false)
      \/ exists self self',
           Cell_save raf_db3 self = Ok (raf_db, self') /\ Cell.id self' = Some 1
           /\ get Cell.id (cells raf_db) 1 = Some self')
  /\ reachable raf_db1
  /\ (forall c, In c (cells raf_db2) -> ~ In c (cells raf_db1) ->
        Cell.is_occupied c = false /\ placed_quantity raf_db2 c = 0).
Proof.
  destruct is_occupied_is_a_stored_flag as (H1 & H2 & _ & H4).
  assert (S : step raf_db3 raf_db).
  { apply (step_ProductLocation_save raf_db3 (ProductLocation_init 5 1 (Some 5) None)
             raf_db (ProductLocation_set_id 1 (ProductLocation_init 5 1 (Some 5) None))).
    reflexivity. }
  assert (R : reachable raf_db1).
  { apply (reachable_step empty_db); [apply reachable_empty|].
    apply (step_Warehouse_save 77 empty_db (Warehouse_init 77 1 "Depo" "001" None)
             raf_db1 (Warehouse_saved (Warehouse_init 77 1 "Depo" "001" None))).
    reflexivity. }
  split; [|split; [exact S|split; [reflexivity|split; [|split; [exact R|]]]]].
  - apply (H1 raf_db3 (ProductLocation_init 5 1 (Some 5) None) raf_db
              (ProductLocation_set_id 1 (ProductLocation_init 5 1 (Some 5) None))).
    reflexivity.
  - apply (H2 raf_db3 raf_db 1 (Cell.mk (Some 1) 1 1 "Hücre 1" false true false) S).
    reflexivity.
  - intros c. apply (H4 raf_db1 (Corridor_init 77 1 "Koridor 1" None) raf_db2
                        (Corridor_set_id 1 (Corridor_init 77 1 "Koridor 1" None)) c R).
    reflexivity.
Defined.

(** ** The bounds of the fan-out, and what a save checks of them *)

(** C9, as the claim states it, fails: [save()] runs no validator.  A
    warehouse is stored with a [corridor_count] of 51, and a corridor
    saved with a [cell_count] of 101, which the validator refuses, gets
    101 cells. *)
Lemma fan_out_not_bounded :
  exists db1 w db2 self',
    corridor_count_valid 51 = false
    /\ Warehouse_objects_create 77 empty_db 1 "Depo" "001" (Some 51) = Ok db1
    /\ warehouses db1 = [w] /\ Warehouse.corridor_count w = 51
    /\ cell_count_valid 101 = false
    /\ reachable raf_db1
    /\ Corridor_save raf_db1 (Corridor_init 77 1 "Koridor 1" (Some 101)) = Ok (db2, self')
    /\ count (cells db2) = count (cells raf_db1) + 101.
Proof.
  do 4 eexists.
  split; [reflexivity|]. split; [vm_compute; reflexivity|].
  split; [reflexivity|]. split; [reflexivity|]. split; [reflexivity|].
  split.
  - apply (reachable_step empty_db); [apply reachable_empty|].
    apply (step_Warehouse_save 77 empty_db (Warehouse_init 77 1 "Depo" "001" None)
             raf_db1 (Warehouse_saved (Warehouse_init 77 1 "Depo" "001" None))).
    reflexivity.
  - split; [vm_compute; reflexivity|]. vm_compute. reflexivity.
Qed.

(** C9, amended.  The validators accept a [corridor_count] exactly in
    1..50 and a [cell_count] exactly in 1..100, and the defaults 5 and 10
    pass; a corridor [number] validates in 1..100 and a cell [number] in
    1..1000.  They run in [full_clean()] only: a save whose fan-out runs
    adds exactly [corridor_count] corridors, or exactly [cell_count]
    cells, whatever the count is.  So the fan-out adds at most 50
    corridors, or at most 100 cells, for a count that was validated, and
    not otherwise. *)
Theorem fan_out_bounded_by_validators :
  (forall v, corridor_count_valid v = true <-> 1 <= v <= 50)
  /\ (forall v, cell_count_valid v = true <-> 1 <= v <= 100)
  /\ (forall v, Corridor_number_valid v = true <-> 1 <= v <= 100)
  /\ (forall v, Cell_number_valid v = true <-> 1 <= v <= 1000)
  /\ (forall u s n c,
        corridor_count_valid (Warehouse.corridor_count (Warehouse_init u s n c None)) = true)
  /\ (forall w i n,
        cell_count_valid (Corridor.cell_count (Corridor_init w i n None)) = true)
  /\ (forall uuid4 db self db' self',
        Warehouse.id self = None ->
        Warehouse_save uuid4 db self = Ok (db', self') ->
        count (corridors db') = count (corridors db) + Warehouse.corridor_count self)
  /\ (forall db self db' self',
        Corridor.id self = None ->
        Corridor_save db self = Ok (db', self') ->
        count (cells db') = count (cells db) + Corridor.cell_count self)
  /\ (forall uuid4 db self db' self',
        corridor_count_valid (Warehouse.corridor_count self) = true ->
        Warehouse_save uuid4 db self = Ok (db', self') ->
        count (corridors db') <= count (corridors db) + 50)
  /\ (forall db self db' self',
        cell_count_valid (Corridor.cell_count self) = true ->
        Corridor_save db self = Ok (db', self') ->
        count (cells db') <= count (cells db) + 100).
Proof.
  split; [intros; apply range_valid|].
  split; [intros; apply range_valid|].
  split; [intros; apply range_valid|].
  split; [intros; apply range_valid|].
  split; [reflexivity|]. split; [reflexivity|].
  split; [|split; [|split]].
  - intros uuid4 db self db' self' Hid H.
    assert (Hcc : 0 <= Warehouse.corridor_count self).
    { unfold Warehouse_save, bind in H.
      destruct (Warehouse_base_save uuid4 db self) as [[db1 s1]|e] eqn:Hb; [|discriminate].
      apply Warehouse_base_save_Ok in Hb.
      destruct Hb as (t & k & _ & _ & Hsame & Hc & _).
      apply Warehouse_constraints_iff in Hc. lia. }
    apply Warehouse_save_Ok in H.
    destruct H as (t & pk & _ & [(Hx & _) | (_ & ->)]); [contradiction|].
    unfold count. simpl.
    rewrite length_app, default_corridors_length, Nat2Z.inj_add, py_range_length. lia.
  - intros db self db' self' Hid H.
    destruct (Corridor_save_new _ _ _ _ Hid H) as (Hs & _ & Hc & ->).
    apply Corridor_constraints_iff in Hc. destruct Hc as ((_ & Hcc) & _).
    rewrite Hs in Hcc. simpl in Hcc.
    unfold count. simpl.
    rewrite length_app, default_cells_length, Nat2Z.inj_add, py_range_length. lia.
  - intros uuid4 db self db' self' Hv H. apply range_valid in Hv.
    apply Warehouse_save_Ok in H.
    destruct H as (t & pk & _ & [(_ & ->) | (_ & ->)]); unfold count; simpl.
    + lia.
    + rewrite length_app, default_corridors_length, Nat2Z.inj_add, py_range_length. lia.
  - intros db self db' self' Hv H. apply range_valid in Hv.
    apply Corridor_save_Ok in H.
    destruct H as [(_ & _ & ->) | (k & t & _ & _ & -> & _)]; unfold count; simpl.
    + rewrite length_app, default_cells_length, Nat2Z.inj_add, py_range_length. lia.
    + lia.
Qed.

Lemma fan_out_bounded_by_validators_witness :
  (exists db' self',
     Warehouse_save 77 empty_db (Warehouse.mk None true 1 "Depo" "001" 3 true)
     = Ok (db', self')
     /\ count (corridors db') = count (corridors empty_db) + 3
     /\ count (corridors db') <= count (corridors empty_db) + 50)
  /\ (exists db' self',
        Corridor_save
          (set_warehouses empty_db [Warehouse.mk (Some 77) false 1 "Depo" "001" 3 true])
          (Corridor_init 77 1 "Koridor 1" (Some 4))
        = Ok (db', self')
        /\ count (cells db') = count (cells empty_db) + 4
        /\ count (cells db') <= count (cells empty_db) + 100).
Proof.
  destruct fan_out_bounded_by_validators
    as (_ & _ & _ & _ & _ & _ & Hwe & Hce & Hw & Hc).
  split.
  - eexists. eexists. split; [vm_compute; reflexivity|]. split.
    + eapply (Hwe 77 empty_db (Warehouse.mk None true 1 "Depo" "001" 3 true));
        [reflexivity | vm_compute; reflexivity].
    + eapply (Hw 77 empty_db (Warehouse.mk None true 1 "Depo" "001" 3 true));
        [reflexivity | vm_compute; reflexivity].
  - eexists. eexists. split; [vm_compute; reflexivity|]. split.
    + eapply (Hce (set_warehouses empty_db
                     [Warehouse.mk (Some 77) false 1 "Depo" "001" 3 true])
                  (Corridor_init 77 1 "Koridor 1" (Some 4)));
        [reflexivity | vm_compute; reflexivity].
    + eapply (Hc (set_warehouses empty_db
                    [Warehouse.mk (Some 77) false 1 "Depo" "001" 3 true])
                 (Corridor_init 77 1 "Koridor 1" (Some 4)));
        [reflexivity | vm_compute; reflexivity].
Defined.

(** ** The ledger *)





(** ** The location code *)

Lemma zfill_length_max w s :
  String.length (zfill w s) = Nat.max w (String.length s).
Proof. unfold zfill. rewrite string_length_app, zeros_length. lia. Qed.

Lemma format_0d_length w z :
  0 <= z ->
  String.length (format_0d w z) = Nat.max w (String.length (digits (Z.to_N z))).
Proof. intros H. rewrite format_0d_nonneg by assumption. apply zfill_length_max. Qed.

Lemma string_app_inv_tail (a : string) : forall b r : string,
  (a ++ r = b ++ r)%string -> a = b.
Proof.
  induction a as [|x a IH]; intros [|y b] r H; simpl in H.
  - reflexivity.
  - apply (f_equal String.length) in H. simpl in H.
    rewrite string_length_app in H. lia.
  - apply (f_equal String.length) in H. simpl in H.
    rewrite string_length_app in H. lia.
  - inversion H. f_equal. eapply IH. eassumption.
Qed.

(** C6, as the claim states it, fails in its stability: the code is not
    read from the fields of the cell alone.  In [raf_db2] cell 1 has the
    code W001-C01-H001; the warehouse is saved again with the code 002,
    which leaves the row of the cell as it was, and the same cell has
    the code W002-C01-H001. *)
Lemma location_code_not_stable :
  exists db db' c,
    reachable db /\ step db db'
    /\ In c (cells db) /\ cells db' = cells db
    /\ location_code db c = Ok "W001-C01-H001"
    /\ location_code db' c = Ok "W002-C01-H001".
Proof.
  exists raf_db2, depo_002_db, (Cell.mk (Some 1) 1 1 "Hücre 1" false true false).
  split; [apply raf_db2_reachable|]. split.
  - apply (step_Warehouse_save 0 raf_db2 (Warehouse_with_code "002" depo_kayit)
             depo_002_db (Warehouse_with_code "002" depo_kayit)).
    reflexivity.
  - split; [left; reflexivity|]. split; [reflexivity|]. split; reflexivity.
Qed.

(** C6, amended.  In a database whose corridor and cell rows satisfy
    the constraints of their tables, the location code of every stored
    cell is [W<code>-C<nn>-H<nnn>]: the code of its warehouse, then the
    number of its corridor in decimal digits, filled with zeros on the
    left to two digits and never cut, then the number of the cell
    likewise to three digits.  It is a function of these three values,
    of which the cell holds only the last: two cells with the same
    number, in corridors with the same number, of warehouses with the
    same code, have the same location code, in whatever databases; the
    code of a cell changes when the code of the warehouse or the number
    of the corridor does: for one cell read in two databases, equal
    codes and equal corridor numbers need equal warehouse codes, and
    equal codes and equal warehouse codes need equal corridor numbers.
    Two cells with different keys in corridors of one warehouse have
    different location codes.  Cell 7 of corridor
    2 of warehouse 001 has the code W001-C02-H007, and cell 1000 of
    corridor 100 the code W001-C100-H1000. *)
Theorem location_code_format_and_unique :
  (forall db : DB,
     forallb (Corridor_constraints db) (corridors db) = true ->
     forallb (Cell_constraints db) (cells db) = true ->
     (forall c, In c (cells db) ->
        exists co w cc hh,
          related Corridor.id (corridors db) (Cell.corridor c) = Ok co
          /\ related Warehouse.id (warehouses db) (Corridor.warehouse co) = Ok w
          /\ location_code db c
             = Ok ("W" ++ Warehouse.code w ++ "-C" ++ cc ++ "-H" ++ hh)%string
          /\ decimal_value cc = Some (Z.to_N (Corridor.number co))
          /\ String.length cc
             = Nat.max 2 (String.length (digits (Z.to_N (Corridor.number co))))
          /\ decimal_value hh = Some (Z.to_N (Cell.number c))
          /\ String.length hh
             = Nat.max 3 (String.length (digits (Z.to_N (Cell.number c)))))
     /\ (forall c1 c2 co1 co2,
           In c1 (cells db) -> In c2 (cells db) -> Cell.id c1 <> Cell.id c2 ->
           related Corridor.id (corridors db) (Cell.corridor c1) = Ok co1 ->
           related Corridor.id (corridors db) (Cell.corridor c2) = Ok co2 ->
           Corridor.warehouse co1 = Corridor.warehouse co2 ->
           location_code db c1 <> location_code db c2))
  /\ (forall db1 db2 c1 c2 co1 co2 w1 w2,
        related Corridor.id (corridors db1) (Cell.corridor c1) = Ok co1 ->
        related Warehouse.id (warehouses db1) (Corridor.warehouse co1) = Ok w1 ->
        related Corridor.id (corridors db2) (Cell.corridor c2) = Ok co2 ->
        related Warehouse.id (warehouses db2) (Corridor.warehouse co2) = Ok w2 ->
        Cell.number c1 = Cell.number c2 ->
        Corridor.number co1 = Corridor.number co2 ->
        Warehouse.code w1 = Warehouse.code w2 ->
        location_code db1 c1 = location_code db2 c2)
  /\ (forall db1 db2 c co1 co2 w1 w2,
        related Corridor.id (corridors db1) (Cell.corridor c) = Ok co1 ->
        related Warehouse.id (warehouses db1) (Corridor.warehouse co1) = Ok w1 ->
        related Corridor.id (corridors db2) (Cell.corridor c) = Ok co2 ->
        related Warehouse.id (warehouses db2) (Corridor.warehouse co2) = Ok w2 ->
        0 <= Corridor.number co1 -> 0 <= Corridor.number co2 ->
        location_code db1 c = location_code db2 c ->
        (Corridor.number co1 = Corridor.number co2 ->
         Warehouse.code w1 = Warehouse.code w2)
        /\ (Warehouse.code w1 = Warehouse.code w2 ->
            Corridor.number co1 = Corridor.number co2))
  /\ (exists c, In c (cells depo_db) /\ Cell.corridor c = 2 /\ Cell.number c = 7
                /\ location_code depo_db c = Ok "W001-C02-H007")
  /\ (exists c, In c (cells genis_db) /\ Cell.number c = 1000
                /\ location_code genis_db c = Ok "W001-C100-H1000").
Proof.
  split; [|split; [|split; [|split]]].
  - intros db Hco Hce. rewrite forallb_forall in Hco, Hce. split.
    + intros c Hc.
      destruct (Cell_constraints_true _ _ (Hce c Hc)) as (Hn & Hfk & _).
      destruct (exists_pk_related _ _ _ Hfk) as [co Hr].
      destruct (related_Ok _ _ _ _ Hr) as [Hin _].
      destruct (Corridor_constraints_true _ _ (Hco co Hin)) as (Hcn & _ & Hfw & _).
      destruct (exists_pk_related _ _ _ Hfw) as [w Hw].
      exists co, w, (format_0d 2 (Corridor.number co)), (format_0d 3 (Cell.number c)).
      split; [assumption|]. split; [assumption|].
      split; [apply (location_code_eq _ _ _ _ Hr Hw)|].
      split; [apply format_0d_value; assumption|].
      split; [apply format_0d_length; assumption|].
      split; [apply format_0d_value; assumption|].
      apply format_0d_length; assumption.
    + intros c1 c2 co1 co2 Hc1 Hc2 Hid Hr1 Hr2 Hsame E.
      destruct (related_Ok _ _ _ _ Hr1) as [Hin1 Hk1].
      destruct (related_Ok _ _ _ _ Hr2) as [Hin2 Hk2].
      destruct (Corridor_constraints_true _ _ (Hco co1 Hin1)) as (Hn1 & _ & Hfw & Hu).
      destruct (Corridor_constraints_true _ _ (Hco co2 Hin2)) as (Hn2 & _ & _ & _).
      destruct (Cell_constraints_true _ _ (Hce c1 Hc1)) as (Hm1 & _ & Hv).
      destruct (Cell_constraints_true _ _ (Hce c2 Hc2)) as (Hm2 & _ & _).
      destruct (exists_pk_related _ _ _ Hfw) as [w Hw].
      rewrite (location_code_eq _ _ _ _ Hr1 Hw) in E.
      rewrite Hsame in Hw. rewrite (location_code_eq _ _ _ _ Hr2 Hw) in E.
      inversion E as [E1]. clear E.
      apply string_app_inv_head in E1.
      change ("-C" ++ ?a)%string with (String "-" (String "C" a)) in E1.
      inversion E1 as [E2]. clear E1.
      change ("-H" ++ ?a)%string with (String "-" (String "H" a)) in E2.
      apply digits_dash_split in E2;
        [| rewrite format_0d_value by assumption; discriminate
         | rewrite format_0d_value by assumption; discriminate].
      destruct E2 as [Ea Eb]. inversion Eb as [Ec]. clear Eb.
      apply format_0d_inj in Ea; [|assumption|assumption].
      apply format_0d_inj in Ec; [|assumption|assumption].
      (* same warehouse, same number: the same corridor *)
      specialize (Hu co2 Hin2 (eq_sym Hsame) (eq_sym Ea)).
      apply same_row_true in Hu. destruct Hu as (k & Hk2' & Hk1').
      assert (Hcor : Cell.corridor c2 = Cell.corridor c1) by congruence.
      (* same corridor, same number: the same cell *)
      specialize (Hv c2 Hc2 Hcor (eq_sym Ec)).
      apply same_row_true in Hv. destruct Hv as (j & Hj2 & Hj1).
      apply Hid. congruence.
  - intros db1 db2 c1 c2 co1 co2 w1 w2 Hr1 Hw1 Hr2 Hw2 En Ec Ew.
    rewrite (location_code_eq _ _ _ _ Hr1 Hw1), (location_code_eq _ _ _ _ Hr2 Hw2).
    rewrite En, Ec, Ew. reflexivity.
  - intros db1 db2 c co1 co2 w1 w2 Hr1 Hw1 Hr2 Hw2 Hn1 Hn2 E.
    rewrite (location_code_eq _ _ _ _ Hr1 Hw1), (location_code_eq _ _ _ _ Hr2 Hw2) in E.
    inversion E as [E1]. clear E. split.
    + intros Ec. rewrite Ec in E1. apply string_app_inv_tail in E1. assumption.
    + intros Ew. rewrite Ew in E1. apply string_app_inv_head in E1.
      change ("-C" ++ ?a)%string with (String "-" (String "C" a)) in E1.
      inversion E1 as [E2]. clear E1.
      change ("-H" ++ ?a)%string with (String "-" (String "H" a)) in E2.
      apply digits_dash_split in E2;
        [| rewrite format_0d_value by assumption; discriminate
         | rewrite format_0d_value by assumption; discriminate].
      destruct E2 as [Ea _]. apply format_0d_inj in Ea; assumption.
  - exists (Cell.mk (Some 17) 2 7 "Hücre 7" false true false).
    split; [vm_compute; tauto|]. split; [reflexivity|]. split; reflexivity.
  - exists (Cell.mk (Some 1) 1 1000 "Hücre 1000" false true false).
    split; [left; reflexivity|]. split; reflexivity.
Qed.

Lemma location_code_format_and_unique_witness :
  forallb (Corridor_constraints depo_db) (corridors depo_db) = true
  /\ forallb (Cell_constraints depo_db) (cells depo_db) = true
  /\ (forall c, In c (cells depo_db) ->
        exists co w cc hh,
          related Corridor.id (corridors depo_db) (Cell.corridor c) = Ok co
          /\ related Warehouse.id (warehouses depo_db) (Corridor.warehouse co) = Ok w
          /\ location_code depo_db c
             = Ok ("W" ++ Warehouse.code w ++ "-C" ++ cc ++ "-H" ++ hh)%string
          /\ decimal_value cc = Some (Z.to_N (Corridor.number co))
          /\ String.length cc
             = Nat.max 2 (String.length (digits (Z.to_N (Corridor.number co))))
          /\ decimal_value hh = Some (Z.to_N (Cell.number c))
          /\ String.length hh
             = Nat.max 3 (String.length (digits (Z.to_N (Cell.number c)))))
  /\ (forall c1 c2 co1 co2,
        In c1 (cells depo_db) -> In c2 (cells depo_db) -> Cell.id c1 <> Cell.id c2 ->
        related Corridor.id (corridors depo_db) (Cell.corridor c1) = Ok co1 ->
        related Corridor.id (corridors depo_db) (Cell.corridor c2) = Ok co2 ->
        Corridor.warehouse co1 = Corridor.warehouse co2 ->
        location_code depo_db c1 <> location_code depo_db c2).
Proof.
  destruct location_code_format_and_unique as (H & _).
  split; [reflexivity|]. split; [reflexivity|].
  apply (H depo_db); reflexivity.
Defined.

(** ** Occupancy rates *)

Lemma filter_true {A : Type} (l : list A) : filter (fun _ => true) l = l.
Proof. induction l as [|x l IH]; simpl; congruence. Qed.

Lemma existsb_filter {A : Type} (q p : A -> bool) (l : list A) :
  existsb q (filter p l) = existsb (fun x => q x && p x) l.
Proof.
  induction l as [|x l IH]; simpl; [reflexivity|].
  destruct (p x); simpl; rewrite IH.
  - rewrite andb_true_r. reflexivity.
  - rewrite andb_false_r. reflexivity.
Qed.

(** The rows of a keyed table that pass a filter are keyed. *)
Lemma keyed_filter {R : Type} (pk : R -> option Z) (keep : R -> bool) (t : list R) :
  keyed pk t -> keyed pk (filter keep t).
Proof.
  unfold keyed. induction t as [|r t IH]; intros [Hnd Hsome]; [split; assumption|].
  inversion Hnd as [|? ? Hr Hnd']; subst.
  destruct IH as [IHnd IHsome]; [split; [assumption | intros; apply Hsome; right; assumption]|].
  cbn [filter]. destruct (keep r) eqn:Ek; [|split; assumption].
  split.
  - cbn [map]. constructor; [|assumption].
    intros Hin. apply Hr. apply in_map_iff in Hin. destruct Hin as (y & E & Hy).
    apply filter_In in Hy. apply in_map_iff. exists y. tauto.
  - intros r' [<- | Hr']; [apply Hsome; left; reflexivity | apply IHsome; assumption].
Qed.

Lemma filter_filter_orb_length {A : Type} (p f g : A -> bool) (l : list A) :
  (forall x, In x l -> f x = true -> g x = false) ->
  List.length (filter p (filter (fun x => f x || g x) l))
  = (List.length (filter p (filter f l)) + List.length (filter p (filter g l)))%nat.
Proof.
  induction l as [|x l IH]; intros H; [reflexivity|].
  assert (IH' := IH (fun y Hy => H y (or_intror Hy))).
  cbn [filter]. destruct (f x) eqn:Ef.
  - rewrite (H x (or_introl eq_refl) Ef). cbn [orb filter].
    destruct (p x); cbn [List.length]; lia.
  - cbn [orb]. destruct (g x); cbn [filter]; [|assumption].
    destruct (p x); cbn [List.length]; lia.
Qed.

(** The cells of a list of corridors with distinct keys, counted
    corridor by corridor and counted on the table of cells. *)
Lemma cells_over_corridors db (p : Cell.t -> bool) (cos : list Corridor.t) :
  keyed Corridor.id cos ->
  py_sum (map (fun co => count (filter p (Corridor_cells db co))) cos)
  = count (filter p (filter (fun c => existsb (has_pk Corridor.id (Cell.corridor c)) cos)
                            (cells db))).
Proof.
  induction cos as [|co cos IH]; intros [Hnd Hsome].
  - simpl. rewrite (filter_none (fun _ : Cell.t => false) (cells db))
      by (intros; reflexivity).
    reflexivity.
  - inversion Hnd as [|? ? Hx Hnd']; subst.
    destruct (Corridor.id co) as [k|] eqn:Hk;
      [|exfalso; apply (Hsome co); [left; reflexivity | assumption]].
    cbn [map py_sum fold_right existsb].
    change (fold_right Z.add 0 ?l) with (py_sum l).
    rewrite IH; [|split; [assumption | intros; apply Hsome; right; assumption]].
    unfold count.
    rewrite (filter_filter_orb_length p
               (fun c => has_pk Corridor.id (Cell.corridor c) co)
               (fun c => existsb (has_pk Corridor.id (Cell.corridor c)) cos)).
    + rewrite Nat2Z.inj_add. f_equal. unfold Corridor_cells. rewrite Hk.
      do 3 f_equal. apply filter_ext. intros c. unfold has_pk. rewrite Hk.
      apply Z.eqb_sym.
    + intros c _ Hf. apply has_pk_iff in Hf.
      destruct (existsb _ cos) eqn:E; [|reflexivity]. exfalso.
      apply existsb_exists in E. destruct E as (co' & Hin & Hco').
      apply has_pk_iff in Hco'. apply Hx. apply in_map_iff.
      exists co'. split; [congruence | assumption].
Qed.

Lemma Warehouse_cells_on_table db w k (p : Cell.t -> bool) :
  keyed Corridor.id (corridors db) ->
  Warehouse.id w = Some k ->
  py_sum (map (fun co => count (filter p (Corridor_cells db co)))
              (Warehouse_corridors db w))
  = count (filter p (filter (spec_cell_of_warehouse db k) (cells db))).
Proof.
  intros Hkeyed Hk. unfold Warehouse_corridors. rewrite Hk.
  rewrite cells_over_corridors by (apply keyed_filter; assumption).
  do 2 f_equal. apply filter_ext. intros c. unfold spec_cell_of_warehouse.
  apply existsb_filter.
Qed.

Lemma iki_depo_db_reachable : reachable iki_depo_db.
Proof.
  assert (R1 : reachable raf_db1).
  { apply (reachable_step empty_db); [apply reachable_empty|].
    apply (step_Warehouse_save 77 empty_db (Warehouse_init 77 1 "Depo" "001" None)
             raf_db1 (Warehouse_saved (Warehouse_init 77 1 "Depo" "001" None))).
    reflexivity. }
  apply (reachable_step iki_depo_db6);
    [apply (reachable_step iki_depo_db5);
     [apply (reachable_step iki_depo_db4);
      [apply (reachable_step iki_depo_db3);
       [apply (reachable_step iki_depo_db2);
        [apply (reachable_step iki_depo_db1);
         [apply (reachable_step raf_db1); [exact R1|] |] |] |] |] |] |].
  - apply (step_Warehouse_save 88 raf_db1 (Warehouse_init 88 1 "Depo 2" "002" None)
             iki_depo_db1 (Warehouse_saved (Warehouse_init 88 1 "Depo 2" "002" None))).
    reflexivity.
  - apply (step_Corridor_save iki_depo_db1 (Corridor_init 77 1 "Koridor 1" (Some 1))
             iki_depo_db2 (Corridor_set_id 1 (Corridor_init 77 1 "Koridor 1" (Some 1)))).
    reflexivity.
  - apply (step_Corridor_save iki_depo_db2 (Corridor_init 77 2 "Koridor 2" (Some 3))
             iki_depo_db3 (Corridor_set_id 2 (Corridor_init 77 2 "Koridor 2" (Some 3)))).
    reflexivity.
  - apply (step_Corridor_save iki_depo_db3 (Corridor_init 88 1 "Koridor 1" (Some 2))
             iki_depo_db4 (Corridor_set_id 3 (Corridor_init 88 1 "Koridor 1" (Some 2)))).
    reflexivity.
  - apply (step_Cell_save iki_depo_db4 (Cell.mk (Some 1) 1 1 "Hücre 1" true true false)
             iki_depo_db5 (Cell.mk (Some 1) 1 1 "Hücre 1" true true false)).
    reflexivity.
  - apply (step_Cell_save iki_depo_db5 (Cell.mk (Some 5) 3 1 "Hücre 1" true true false)
             iki_depo_db6 (Cell.mk (Some 5) 3 1 "Hücre 1" true true false)).
    reflexivity.
  - apply (step_Cell_save iki_depo_db6 (Cell.mk (Some 6) 3 2 "Hücre 2" true true false)
             iki_depo_db (Cell.mk (Some 6) 3 2 "Hücre 2" true true false)).
    reflexivity.
Qed.

(** C7.  Whatever the float operations are, in a database the saves can
    reach: the rate of a corridor is occupied / total * 100 over the
    stored cells that point to the corridor, and the rate of a warehouse
    is the same formula over the stored cells whose corridor is a
    corridor of that warehouse, which is the occupied cells and the
    cells summed over the corridors of that warehouse and of no other;
    both are the [int] 0 when there is no such cell.  The rate of a
    warehouse is not the mean of the rates of its corridors: with exact
    division, in [iki_depo_db] the corridors of warehouse 77 are at 100
    (one cell of one) and at 0 (none of three) and warehouse 77 is at 25,
    while warehouse 88, with two cells of two, is at 100. *)
Theorem occupancy_rate_from_counts :
  (forall (float : Type) (truediv : Z -> Z -> float) (mul : float -> Z -> float)
          (db : DB),
     reachable db ->
     (forall co k, Corridor.id co = Some k ->
        Corridor_occupancy_rate float truediv mul db co
        = spec_occupancy_rate truediv mul
            (filter (spec_cell_of_corridor k) (cells db)))
     /\ (forall w k, Warehouse.id w = Some k ->
           Warehouse_occupancy_rate float truediv mul db w
           = spec_occupancy_rate truediv mul
               (filter (spec_cell_of_warehouse db k) (cells db)))
     /\ (forall w k, Warehouse.id w = Some k ->
           let own := filter (fun co => Corridor.warehouse co =? k) (corridors db) in
           Warehouse_occupancy_rate float truediv mul db w
           = rate truediv mul
                  (py_sum (map (fun co => count (filter Cell.is_occupied
                                                        (Corridor_cells db co))) own))
                  (py_sum (map (fun co => count (Corridor_cells db co)) own)))
     /\ (forall co k, Corridor.id co = Some k ->
           filter (spec_cell_of_corridor k) (cells db) = [] ->
           Corridor_occupancy_rate float truediv mul db co = Int 0)
     /\ (forall w k, Warehouse.id w = Some k ->
           filter (spec_cell_of_warehouse db k) (cells db) = [] ->
           Warehouse_occupancy_rate float truediv mul db w = Int 0))
  /\ (exists w1 w2 c1 c2 c3 q1 q2 q3 r1 r2,
        warehouses iki_depo_db = [w1; w2]
        /\ Warehouse_corridors iki_depo_db w1 = [c1; c2]
        /\ Warehouse_corridors iki_depo_db w2 = [c3]
        /\ Corridor_occupancy_rate Q Q_truediv Q_mul iki_depo_db c1 = Float q1
        /\ Corridor_occupancy_rate Q Q_truediv Q_mul iki_depo_db c2 = Float q2
        /\ Corridor_occupancy_rate Q Q_truediv Q_mul iki_depo_db c3 = Float q3
        /\ Warehouse_occupancy_rate Q Q_truediv Q_mul iki_depo_db w1 = Float r1
        /\ Warehouse_occupancy_rate Q Q_truediv Q_mul iki_depo_db w2 = Float r2
        /\ Qeq q1 (inject_Z 100) /\ Qeq q2 (inject_Z 0) /\ Qeq q3 (inject_Z 100)
        /\ Qeq r1 (inject_Z 25) /\ Qeq r2 (inject_Z 100)).
Proof.
  split.
  - intros float truediv mul db Hr. apply reachable_consistent in Hr.
    destruct Hr as [_ Hkeyed _ _ _ _ _ _ _ _ _ _].
    assert (Hcor : forall co k, Corridor.id co = Some k ->
              Corridor_occupancy_rate float truediv mul db co
              = spec_occupancy_rate truediv mul
                  (filter (spec_cell_of_corridor k) (cells db))).
    { intros co k Hk.
      unfold Corridor_occupancy_rate, Corridor_occupied_cells, Corridor_cells,
        spec_occupancy_rate, rate, spec_cell_of_corridor.
      rewrite Hk. reflexivity. }
    assert (Htot : forall w k, Warehouse.id w = Some k ->
              Warehouse_total_cells db w
              = count (filter (spec_cell_of_warehouse db k) (cells db))).
    { intros w k Hk. unfold Warehouse_total_cells.
      rewrite (map_ext _ (fun co => count (filter (fun _ => true) (Corridor_cells db co))))
        by (intros co; rewrite filter_true; reflexivity).
      rewrite (Warehouse_cells_on_table db w k _ Hkeyed Hk), filter_true. reflexivity. }
    assert (Hocc : forall w k, Warehouse.id w = Some k ->
              Warehouse_occupied_cells db w
              = count (filter Cell.is_occupied
                              (filter (spec_cell_of_warehouse db k) (cells db)))).
    { intros w k Hk. unfold Warehouse_occupied_cells.
      apply (Warehouse_cells_on_table db w k Cell.is_occupied Hkeyed Hk). }
    assert (Hware : forall w k, Warehouse.id w = Some k ->
              Warehouse_occupancy_rate float truediv mul db w
              = spec_occupancy_rate truediv mul
                  (filter (spec_cell_of_warehouse db k) (cells db))).
    { intros w k Hk. unfold Warehouse_occupancy_rate, spec_occupancy_rate, rate.
      rewrite (Htot w k Hk), (Hocc w k Hk). reflexivity. }
    split; [exact Hcor|]. split; [exact Hware|]. split; [|split].
    + intros w k Hk own.
      unfold Warehouse_occupancy_rate, Warehouse_total_cells, Warehouse_occupied_cells,
        Warehouse_corridors, rate. rewrite Hk. reflexivity.
    + intros co k Hk E. rewrite (Hcor co k Hk), E. reflexivity.
    + intros w k Hk E. rewrite (Hware w k Hk), E. reflexivity.
  - do 10 eexists. repeat split; reflexivity.
Qed.

Lemma occupancy_rate_from_counts_witness :
  reachable iki_depo_db
  /\ (forall w k, Warehouse.id w = Some k ->
        Warehouse_occupancy_rate Q Q_truediv Q_mul iki_depo_db w
        = spec_occupancy_rate Q_truediv Q_mul
            (filter (spec_cell_of_warehouse iki_depo_db k) (cells iki_depo_db))).
Proof.
  destruct occupancy_rate_from_counts as [H _].
  split; [apply iki_depo_db_reachable|].
  apply (H Q Q_truediv Q_mul iki_depo_db iki_depo_db_reachable).
Defined.
